(** * XcodeBuildMCP: the destination resolver and the command executor

    A shallow embedding of [src/utils/xcode.ts] and of the command assembly of
    [src/utils/build-utils.ts], with the properties the specification states
    about them.

    Conventions of the embedding.
    - A JavaScript string is a Rocq [string]; its characters stand for UTF-16
      code units below 256, so the class [\s] and the line terminators are
      the members of those classes below 256.
    - An optional value ([x?: T], [undefined]) is an [option].
    - A JavaScript number is a [Double.Number]: an IEEE 754 double, with its
      rounding, its infinities and NaN.  The readings of the clock, the exit
      codes and the status codes are integers ([Z]): they are small enough
      for the arithmetic done on them to be exact.
    - A function with effects returns the list of the effects it performed, in
      order, next to its result; a function that may throw returns a
      [Completion].
    - What the environment decides is an explicit input: the readings of
      [Date.now()], what [spawn] and the spawned child process do, and what
      the xcpretty helper would do if it were called.
    - Left out: the [operationId] and [timestamp] of a progress update, an
      exception raised by the progress callback, and the formatting of the
      tool response at the end of [executeXcodeBuild]. *)

From Stdlib Require Import String Ascii List ZArith QArith Qround Qreduction Qabs.
From Stdlib Require Import Lia Lqa Bool DecimalString.
Import ListNotations.
Local Open Scope string_scope.
Local Open Scope Z_scope.

(* ================================================================== *)
(** * JavaScript numbers *)

Module Double.

(** A JavaScript number is an IEEE 754 double (binary64).  A finite double is
    given by its exact value, a rational in lowest terms; that the rational
    is one a double can have is kept by the operations, which round.  The
    sign of a zero is not kept: the sources never divide by a zero and never
    print one, the only ways to tell the two zeros apart. *)
Inductive Number :=
| NaN
| Infinity (negative : bool)
| Finite (value : Q).

Definition pow2 (e : Z) : Q :=
  match e with
  | Zneg p => 1 # (2 ^ p)
  | _ => inject_Z (2 ^ e)
  end.

Definition pow10 (e : Z) : Q :=
  match e with
  | Zneg p => 1 # (10 ^ p)
  | _ => inject_Z (10 ^ e)
  end.

(** The exponent [e] with [2^e <= q < 2^(e+1)], for a positive [q]: the
    difference of the binary logarithms of numerator and denominator, or one
    less. *)
Definition log2floor (q : Q) : Z :=
  let e0 := Z.log2 (Qnum q) - Z.log2 (Zpos (Qden q)) in
  if Qle_bool (pow2 e0) q then e0 else e0 - 1.

(** The nearest integer, the even one of the two when [q] is half way. *)
Definition roundHalfEven (q : Q) : Z :=
  let f := Qfloor q in
  match Qcompare (q - inject_Z f) (1 # 2) with
  | Lt => f
  | Gt => f + 1
  | Eq => if Z.even f then f else f + 1
  end.

(** The double nearest to the real number [q] (round to nearest, ties to
    even): [q] is rounded to a multiple of the unit in its last place, which
    is [2^(e-52)] for [2^e <= |q| < 2^(e+1)] and [2^-1074] below the normal
    numbers; a result of magnitude [2^1024] or more is an infinity. *)
Definition round (q : Q) : Number :=
  let q := Qred q in
  if Qeq_bool q 0 then Finite 0
  else
    let ulp := pow2 (Z.max (log2floor (Qabs q) - 52) (-1074)) in
    let v := Qred (inject_Z (roundHalfEven (q / ulp)) * ulp) in
    if Qle_bool (pow2 1024) (Qabs v) then Infinity (Qnum v <? 0) else Finite v.

(** The number an integer literal or a parsed integer stands for. *)
Definition ofZ (z : Z) : Number := round (inject_Z z).

Definition isNegative (x : Number) : bool :=
  match x with
  | NaN => false
  | Infinity negative => negative
  | Finite q => Qnum q <? 0
  end.

Definition isZero (x : Number) : bool :=
  match x with Finite q => Qeq_bool q 0 | _ => false end.

(** [x + y] *)
Definition add (x y : Number) : Number :=
  match x, y with
  | NaN, _ | _, NaN => NaN
  | Infinity a, Infinity b => if Bool.eqb a b then x else NaN
  | Infinity _, Finite _ => x
  | Finite _, Infinity _ => y
  | Finite a, Finite b => round (a + b)
  end.

(** [x * y] *)
Definition mul (x y : Number) : Number :=
  match x, y with
  | NaN, _ | _, NaN => NaN
  | Finite a, Finite b => round (a * b)
  | _, _ =>
      if isZero x || isZero y then NaN
      else Infinity (xorb (isNegative x) (isNegative y))
  end.

(** [x / y] *)
Definition div (x y : Number) : Number :=
  match x, y with
  | NaN, _ | _, NaN => NaN
  | Infinity _, Infinity _ => NaN
  | Infinity a, Finite _ => Infinity (xorb a (isNegative y))
  | Finite _, Infinity _ => Finite 0
  | Finite a, Finite b =>
      if Qeq_bool b 0
      then if Qeq_bool a 0 then NaN else Infinity (isNegative x)
      else round (a / b)
  end.

(** [Math.floor(x)]: the floor of a double is a double. *)
Definition floor (x : Number) : Number :=
  match x with
  | Finite q => Finite (inject_Z (Qfloor q))
  | _ => x
  end.

(** [x <= y]: false when one of the two is NaN. *)
Definition leb (x y : Number) : bool :=
  match x, y with
  | NaN, _ | _, NaN => false
  | Infinity true, _ => true
  | _, Infinity false => true
  | Infinity false, _ => false
  | _, Infinity true => false
  | Finite a, Finite b => Qle_bool a b
  end.

(** [x < y] *)
Definition ltb (x y : Number) : bool := leb x y && negb (leb y x).

(** [x > y] *)
Definition gtb (x y : Number) : bool := ltb y x.

(** [Math.min(x, y)] *)
Definition min (x y : Number) : Number :=
  match x, y with
  | NaN, _ | _, NaN => NaN
  | _, _ => if leb x y then x else y
  end.

(** Truthiness of a number: neither zero nor NaN. *)
Definition truthy (x : Number) : bool :=
  match x with
  | NaN => false
  | Infinity _ => true
  | Finite q => negb (Qeq_bool q 0)
  end.

(** ** [Number::toString]

    The digits printed for a positive number [v] are those of the integer
    [s] of the fewest digits [k] such that [s * 10^(n-k)] is a real number
    whose double is [v]; of several such [s], the one nearest to [v]. *)

(** The exponent [e] with [10^e <= q < 10^(e+1)], for a positive [q]: an
    estimate from the binary exponent, put right by one step at most. *)
Definition log10floor (q : Q) : Z :=
  let e0 := log2floor q * 30103 / 100000 in
  if Qle_bool (pow10 (e0 + 1)) q then e0 + 1
  else if Qle_bool (pow10 e0) q then e0 else e0 - 1.

(** The double of the real number [q] is [v]. *)
Definition rounds (q v : Q) : bool :=
  match round q with Finite w => Qeq_bool w v | _ => false end.

(** The search for [s], from [k] digits on, [n] being the number of digits
    of the integer part of [v]: the two multiples of [10^(n-k)] next to [v]
    are tried.  The result is [s] and [n]; a candidate [10^k] is the digit 1
    with one more digit before the point.  Seventeen digits always do. *)
Fixpoint shortest (fuel : nat) (k : Z) (v : Q) (n : Z) : Z * Z :=
  let scale := pow10 (n - k) in
  let lo := Qfloor (v / scale) in
  let hi := lo + 1 in
  let dlo := (v - inject_Z lo * scale)%Q in
  let dhi := (inject_Z hi * scale - v)%Q in
  let pick (s : Z) : Z * Z := if s =? 10 ^ k then (1, n + 1) else (s, n) in
  match rounds (inject_Z lo * scale) v, rounds (inject_Z hi * scale) v with
  | true, true =>
      match Qcompare dlo dhi with
      | Lt => pick lo
      | Gt => pick hi
      | Eq => if Z.even lo then pick lo else pick hi
      end
  | true, false => pick lo
  | false, true => pick hi
  | false, false =>
      match fuel with
      | O => pick lo
      | S fuel' => shortest fuel' (k + 1) v n
      end
  end.

Definition digits (n : Z) : string := NilZero.string_of_int (Z.to_int n).

Fixpoint zeros (n : nat) : string :=
  match n with O => EmptyString | S m => String "0" (zeros m) end.

(** The four layouts of [Number::toString]: an integer with zeros after its
    digits, a decimal point inside the digits, a small fraction, and the
    exponent notation. *)
Definition showPositive (v : Q) : string :=
  let '(s, n) := shortest 17 1 v (log10floor v + 1) in
  let ds := digits s in
  let k := Z.of_nat (String.length ds) in
  if (k <=? n) && (n <=? 21) then ds ++ zeros (Z.to_nat (n - k))
  else if (0 <? n) && (n <=? 21) then
    substring 0 (Z.to_nat n) ds ++ "." ++ substring (Z.to_nat n) (Z.to_nat (k - n)) ds
  else if (-6 <? n) && (n <=? 0) then "0." ++ zeros (Z.to_nat (- n)) ++ ds
  else
    let e := n - 1 in
    let expo := (if e <? 0 then "-" else "+") ++ digits (Z.abs e) in
    if k =? 1 then ds ++ "e" ++ expo
    else substring 0 1 ds ++ "." ++ substring 1 (Z.to_nat (k - 1)) ds ++ "e" ++ expo.

(** The printing of a number in a template literal. *)
Definition toString (x : Number) : string :=
  match x with
  | NaN => "NaN"
  | Infinity false => "Infinity"
  | Infinity true => "-Infinity"
  | Finite q =>
      if Qeq_bool q 0 then "0"
      else if Qnum q <? 0 then "-" ++ showPositive (- q)
      else showPositive q
  end.

(** The same number, written the same way. *)
Definition same (x y : Number) : bool :=
  match x, y with
  | NaN, NaN => true
  | Infinity a, Infinity b => Bool.eqb a b
  | Finite a, Finite b => (Qnum a =? Qnum b) && Pos.eqb (Qden a) (Qden b)
  | _, _ => false
  end.

End Double.

(* ================================================================== *)
(** * JavaScript primitives used by the sources *)

Module Js.

Definition dquote : ascii := "034".
Definition squote : ascii := "039".
Definition backslash : ascii := "092".
Definition LF : ascii := "010".
Definition CR : ascii := "013".

(** [s === ''] *)
Definition isEmpty (s : string) : bool :=
  match s with EmptyString => true | String _ _ => false end.

(** Truthiness of an optional string: defined and not empty. *)
Definition truthy (v : option string) : bool :=
  match v with Some s => negb (isEmpty s) | None => false end.

(** A template literal prints an absent value as [undefined]. *)
Definition show (v : option string) : string :=
  match v with Some s => s | None => "undefined" end.

(** [s || d] on strings. *)
Definition orElse (s d : string) : string := if isEmpty s then d else s.

(** [v || d] on an optional string. *)
Definition orElseOpt (v : option string) (d : string) : string :=
  if truthy v then show v else d.

(** Truthiness of an optional number: defined, and neither zero nor NaN. *)
Definition truthyNum (v : option Double.Number) : bool :=
  match v with Some n => Double.truthy n | None => false end.

(** The characters [.] does not match. *)
Definition isLineTerminator (c : ascii) : bool :=
  Ascii.eqb c LF || Ascii.eqb c CR.

(** The class [\s]: TAB, LF, VT, FF, CR, SPACE and NBSP. *)
Definition isWhiteSpace (c : ascii) : bool :=
  existsb (Ascii.eqb c) ["009"; "010"; "011"; "012"; "013"; " "; "160"]%char.

(** The class [\d]. *)
Definition isDigit (c : ascii) : bool :=
  existsb (Ascii.eqb c) ["0"; "1"; "2"; "3"; "4"; "5"; "6"; "7"; "8"; "9"]%char.

(** [line.includes(needle)] *)
Definition includes (line needle : string) : bool :=
  match String.index 0 needle line with Some _ => true | None => false end.

(** [chunk.split('\n')] *)
Fixpoint splitLines (s : string) : list string :=
  match s with
  | EmptyString => [EmptyString]
  | String c rest =>
      if Ascii.eqb c LF then EmptyString :: splitLines rest
      else match splitLines rest with
           | l :: ls => String c l :: ls
           | [] => [String c EmptyString]
           end
  end.

(** [parts.join(sep)] *)
Fixpoint join (sep : string) (parts : list string) : string :=
  match parts with
  | [] => EmptyString
  | [p] => p
  | p :: rest => p ++ sep ++ join sep rest
  end.

(** [s.trim()] *)
Fixpoint trimStart (s : string) : string :=
  match s with
  | EmptyString => EmptyString
  | String c rest => if isWhiteSpace c then trimStart rest else s
  end.

Fixpoint trimEnd (s : string) : string :=
  match s with
  | EmptyString => EmptyString
  | String c rest =>
      let rest' := trimEnd rest in
      if isEmpty rest' && isWhiteSpace c then EmptyString else String c rest'
  end.

Definition trim (s : string) : string := trimEnd (trimStart s).

(** Printing of an exit code or a status code in a template literal: an
    integer of less than 22 digits is printed in plain decimal. *)
Definition showNum (n : Z) : string := NilZero.string_of_int (Z.to_int n).

(** [parseInt(digits, 10)] on a string of decimal digits: the double nearest
    to the integer the digits denote, an infinity when there is none.  (The
    language lets an implementation replace the digits after the twentieth
    by zeros; V8 does not.) *)
Definition digitValue (c : ascii) : Z := Z.of_nat (nat_of_ascii c) - 48.

Fixpoint parseDigits (acc : Z) (digits : string) : Z :=
  match digits with
  | EmptyString => acc
  | String c rest => parseDigits (10 * acc + digitValue c) rest
  end.

Definition parseInt (digits : string) : Double.Number :=
  Double.ofZ (parseDigits 0 digits).

(** [Math.floor((a / b) * k)], the shape of the estimates of the sources:
    the quotient is rounded, and then the product. *)
Definition floorRatio (a b k : Double.Number) : Double.Number :=
  Double.floor (Double.mul (Double.div a b) k).

(** The longest prefix of digits and what follows it. *)
Fixpoint spanDigits (s : string) : string * string :=
  match s with
  | EmptyString => (EmptyString, EmptyString)
  | String c rest =>
      if isDigit c
      then let (d, r) := spanDigits rest in (String c d, r)
      else (EmptyString, s)
  end.

Fixpoint stripPrefix (p s : string) : option string :=
  match p, s with
  | EmptyString, _ => Some s
  | String a p', String b s' => if Ascii.eqb a b then stripPrefix p' s' else None
  | String _ _, EmptyString => None
  end.

(** [/(\d+) of (\d+) files/] anchored at the start of [s].  Both groups are
    greedy, and giving back a digit never helps, the next character of the
    pattern being a space. *)
Definition matchFileCountHere (s : string) : option (string * string) :=
  let (d1, r1) := spanDigits s in
  if isEmpty d1 then None
  else match stripPrefix " of " r1 with
       | None => None
       | Some r2 =>
           let (d2, r3) := spanDigits r2 in
           if isEmpty d2 then None
           else match stripPrefix " files" r3 with
                | Some _ => Some (d1, d2)
                | None => None
                end
       end.

(** [line.match(/(\d+) of (\d+) files/)]: the leftmost match, as the two
    captured groups. *)
Fixpoint matchFileCount (s : string) : option (string * string) :=
  match matchFileCountHere s with
  | Some m => Some m
  | None =>
      match s with
      | EmptyString => None
      | String _ rest => matchFileCount rest
      end
  end.

(** [JSON.stringify] of an array of strings. *)
Definition hexDigit (n : nat) : ascii :=
  nth n ["0"; "1"; "2"; "3"; "4"; "5"; "6"; "7"; "8"; "9";
         "a"; "b"; "c"; "d"; "e"; "f"]%char "0"%char.

Definition jsonChar (c : ascii) : string :=
  let n := nat_of_ascii c in
  if Ascii.eqb c dquote then String backslash (String dquote EmptyString)
  else if Ascii.eqb c backslash then String backslash (String backslash EmptyString)
  else if Ascii.eqb c "008" then String backslash "b"
  else if Ascii.eqb c "009" then String backslash "t"
  else if Ascii.eqb c "010" then String backslash "n"
  else if Ascii.eqb c "012" then String backslash "f"
  else if Ascii.eqb c "013" then String backslash "r"
  else if (n <? 32)%nat
       then String backslash
              ("u00" ++ String (hexDigit (n / 16)) (String (hexDigit (n mod 16)) EmptyString))
       else String c EmptyString.

Fixpoint jsonChars (s : string) : string :=
  match s with
  | EmptyString => EmptyString
  | String c rest => jsonChar c ++ jsonChars rest
  end.

Definition jsonString (s : string) : string :=
  String dquote (jsonChars s ++ String dquote EmptyString).

Definition jsonStringify (a : list string) : string :=
  "[" ++ join "," (map jsonString a) ++ "]".

End Js.

(* ================================================================== *)
(** * Shared types ([src/types/common.ts]) and effects *)

Module Common.

Inductive XcodePlatform :=
| macOS | iOS | iOSSimulator | watchOS | watchOSSimulator
| tvOS | tvOSSimulator | visionOS | visionOSSimulator.

(** Modelled from the spec: the string value of each member of the
    [XcodePlatform] enum, whose declaration ([src/types/common.ts]) is not
    among the sources.  The specification lists the platforms and prints the
    iOS simulator as [iOS Simulator]; the literals of [xcode.ts] give the
    device platforms. *)
Definition platformString (p : XcodePlatform) : string :=
  match p with
  | macOS => "macOS"
  | iOS => "iOS"
  | iOSSimulator => "iOS Simulator"
  | watchOS => "watchOS"
  | watchOSSimulator => "watchOS Simulator"
  | tvOS => "tvOS"
  | tvOSSimulator => "tvOS Simulator"
  | visionOS => "visionOS"
  | visionOSSimulator => "visionOS Simulator"
  end.

Definition platform_eqb (p q : XcodePlatform) : bool :=
  String.eqb (platformString p) (platformString q).

Inductive Status := running | completed | failed.

(** A progress update, with the fields the object literals of [xcode.ts]
    fill in.  [operationId] (a fresh uuid) and [timestamp] (the wall clock)
    are environment data no code reads back; they are not part of the
    record. *)
Record ToolProgressUpdate := mkUpdate {
  status : Status;
  progress : Double.Number;
  message : string;
  details : option string
}.

(** What a function does to the outside world. *)
Inductive Event :=
| Log (level text : string)
| Spawn (file : string) (args : list string)
| CallXcpretty (commandString : string)
| Progress (update : ToolProgressUpdate).

(** How a call that may throw ends. *)
Inductive Completion (A : Type) :=
| Return (value : A)
| Throw (errorMessage : string).
Arguments Return {A} value.
Arguments Throw {A} errorMessage.

End Common.

(* ================================================================== *)
(** * [src/utils/xcode.ts] *)

Module Xcode.
Import Js Common.

Record XcodeCommandResponse := mkResponse {
  success : bool;
  output : string;
  error : option string
}.

Record XcodeParams := mkParams {
  workspacePath : option string;
  projectPath : option string;
  scheme : option string;
  configuration : option string;
  derivedDataPath : option string;
  platform : option XcodePlatform;
  destination : option string;
  simulatorName : option string;
  simulatorId : option string;
  useLatestOS : option bool;
  arch : option string;
  extraArgs : option (list string)
}.

(** ** The destination resolver *)

Definition simulatorPlatforms : list XcodePlatform :=
  [iOSSimulator; watchOSSimulator; tvOSSimulator; visionOSSimulator].

Definition isSimulatorPlatform (p : XcodePlatform) : bool :=
  existsb (platform_eqb p) simulatorPlatforms.

(** [constructDestinationString(platform, simulatorName?, simulatorId?,
    useLatest = true, arch?)].  An omitted [useLatest] is [None] and takes the
    default of the parameter. *)
Definition constructDestinationString
    (platform : XcodePlatform) (simulatorName simulatorId : option string)
    (useLatest : option bool) (arch : option string)
  : list Event * Completion string :=
  let useLatest := match useLatest with Some b => b | None => true end in
  let P := platformString platform in
  if isSimulatorPlatform platform && truthy simulatorId then
    ([], Return ("platform=" ++ P ++ ",id=" ++ show simulatorId))
  else if isSimulatorPlatform platform && truthy simulatorName then
    ([], Return ("platform=" ++ P ++ ",name=" ++ show simulatorName
                   ++ (if useLatest then ",OS=latest" else EmptyString)))
  else if isSimulatorPlatform platform
          && negb (truthy simulatorId) && negb (truthy simulatorName) then
    ([Log "warning"
        ("Constructing generic destination for " ++ P
           ++ " without name or ID. This might not be specific enough.")],
     Throw ("Simulator name or ID is required for specific " ++ P ++ " operations"))
  else
    match platform with
    | macOS =>
        ([], Return (if truthy arch
                     then "platform=macOS,arch=" ++ show arch
                     else "platform=macOS"))
    | iOS => ([], Return "generic/platform=iOS")
    | watchOS => ([], Return "generic/platform=watchOS")
    | tvOS => ([], Return "generic/platform=tvOS")
    | visionOS => ([], Return "generic/platform=visionOS")
    | _ =>
        ([Log "error"
            ("Reached unexpected point in constructDestinationString for platform: " ++ P)],
         Return ("platform=" ++ P))
    end.

(** ** [addXcodeParameters]

    The function pushes onto the caller's array; the embedding returns the
    array after the call, with the log lines written. *)

Definition pathParameters (params : XcodeParams) (logPrefix : string)
  : list string * list Event :=
  if truthy (workspacePath params) then
    (["-workspace"; show (workspacePath params)],
     [Log "info" (logPrefix ++ ": Using workspace " ++ show (workspacePath params))])
  else if truthy (projectPath params) then
    (["-project"; show (projectPath params)],
     [Log "info" (logPrefix ++ ": Using project " ++ show (projectPath params))])
  else
    ([], [Log "info" (logPrefix ++ ": No workspace or project path specified, using implicit.")]).

(** One [if (params.x) { command.push(flag, params.x); log(...) }]. *)
Definition flagParameter (flag what : string) (value : option string) (logPrefix : string)
  : list string * list Event :=
  if truthy value then
    ([flag; show value],
     [Log "info" (logPrefix ++ ": Using " ++ what ++ " " ++ show value)])
  else ([], []).

Definition destinationParameters (params : XcodeParams) (logPrefix : string)
  : list string * list Event :=
  if truthy (destination params) then
    (["-destination"; show (destination params)],
     [Log "info" (logPrefix ++ ": Using explicit destination " ++ show (destination params))])
  else
    match platform params with
    | Some p =>
        let useLatest := match useLatestOS params with Some b => b | None => true end in
        match constructDestinationString p (simulatorName params) (simulatorId params)
                (Some useLatest) None with
        | (logs, Return dest) =>
            (["-destination"; dest],
             (logs ++ [Log "info" (logPrefix ++ ": Using constructed destination " ++ dest)])%list)
        | (logs, Throw errorMessage) =>
            ([],
             (logs ++
              [Log "error" (logPrefix ++ ": Error constructing destination: " ++ errorMessage);
               Log "warning"
                 (logPrefix ++ ": Proceeding without explicit -destination parameter due to error.")])%list)
        end
    | None => ([], [])
    end.

Definition extraParameters (params : XcodeParams) (logPrefix : string)
  : list string * list Event :=
  match extraArgs params with
  | Some (a :: args) =>
      (a :: args,
       [Log "info" (logPrefix ++ ": Adding extra arguments: " ++ join " " (a :: args))])
  | _ => ([], [])
  end.

Definition addXcodeParameters (command : list string) (params : XcodeParams)
    (logPrefix : string) : list string * list Event :=
  let '(c1, l1) := pathParameters params logPrefix in
  let '(c2, l2) := flagParameter "-scheme" "scheme" (scheme params) logPrefix in
  let '(c3, l3) := flagParameter "-configuration" "configuration" (configuration params) logPrefix in
  let '(c4, l4) := flagParameter "-derivedDataPath" "derived data path"
                     (derivedDataPath params) logPrefix in
  let '(c5, l5) := destinationParameters params logPrefix in
  let '(c6, l6) := extraParameters params logPrefix in
  ((command ++ c1 ++ c2 ++ c3 ++ c4 ++ c5 ++ c6)%list,
   (l1 ++ l2 ++ l3 ++ l4 ++ l5 ++ l6)%list).

(** ** The environment of an execution *)

(** What the child process writes before it exits. *)
Inductive OutputChunk :=
| OnStdout (chunk : string)
| OnStderr (chunk : string).

(** The events the listeners of [executeStandard] are registered for.  The
    exit code of [close] is [None] when the child was ended by a signal. *)
Inductive ProcessEvent :=
| StdoutData (chunk : string)
| StderrData (chunk : string)
| CloseEvent (exitCode : option Z)
| ErrorEvent (errMessage : string).

(** What [spawn] and the child do, by the contract of Node's
    [child_process]:
    - a child that started delivers its output and then [close], once, with
      its exit code;
    - a child that could not be started for want of the file, of the
      permission or of a process (ENOENT, EACCES, EAGAIN) delivers [error],
      and then [close] with the negative errno as exit code ("the 'close'
      event will always emit after 'exit' was already emitted, or 'error' if
      the child failed to spawn");
    - for every other failure [spawn] itself throws, before it returns a
      child: a command string longer than the system takes (E2BIG), a
      command string with a NUL character.  (When the system has no file
      descriptor left, EMFILE and ENFILE, [spawn] returns a child without
      streams and the next line of [executeStandard] throws; so far that is
      the same, and what the [error] event without a listener does next is
      outside the embedding.) *)
Inductive ProcessRun :=
| Exits (chunks : list OutputChunk) (exitCode : option Z)
| FailsToStart (errMessage : string) (errno : positive)
| SpawnThrows (errMessage : string).

Definition chunkEvent (c : OutputChunk) : ProcessEvent :=
  match c with
  | OnStdout chunk => StdoutData chunk
  | OnStderr chunk => StderrData chunk
  end.

Definition processEvents (run : ProcessRun) : list ProcessEvent :=
  match run with
  | Exits chunks exitCode => (map chunkEvent chunks ++ [CloseEvent exitCode])%list
  | FailsToStart errMessage errno =>
      [ErrorEvent errMessage; CloseEvent (Some (Z.neg errno))]
  | SpawnThrows _ => []
  end.

(** The argument of the [onProgress] callback handed to xcpretty; the fields
    [target], [configuration] and [file] are never read. *)
Record XcprettyProgressData := mkData {
  phase : option string;
  dataMessage : option string;
  fileCount : option Double.Number;
  fileIndex : option Double.Number
}.

Record XcprettyResult := mkXResult {
  xstatus : Z;
  xoutput : string;
  xerror : option string
}.

(** What a callable xcpretty would do when called: it throws at once, or it
    calls [onProgress] some times and then its promise resolves or rejects. *)
Inductive XcprettyRun :=
| HelperThrows (errMessage : string)
| HelperResolves (calls : list (option XcprettyProgressData)) (result : XcprettyResult)
| HelperRejects (calls : list (option XcprettyProgressData)) (errMessage : string).

(** [dateNow n] is the value of the [n]-th reading of [Date.now()] in the
    execution; [xcpretty] is what the package [@expo/xcpretty] would do if
    its export were called as the sources call it, [None] when there is
    nothing to call (see [typeofXcpretty] for what the sources get to
    call). *)
Record Env := mkEnv {
  dateNow : nat -> Z;
  xcpretty : option XcprettyRun;
  child : ProcessRun
}.

(** The effects of an execution and how its promise ends: [result] is the
    value it resolves to, [rejected] the message of the error it rejects
    with; both are [None] when the promise stays pending for ever. *)
Record Outcome := mkOutcome {
  events : list Event;
  result : option XcodeCommandResponse;
  rejected : option string
}.

Definition progressUpdateInterval : Z := 1000.

(** ** [executeStandard] *)

(** The variables of the closure (the write-only [_lastProgressMessage]
    apart), the number of clock readings so far, the effects so far, and the
    state of the promise. *)
Record State := mkState {
  stdout : string;
  stderr : string;
  currentPhase : string;
  totalFiles : Double.Number;
  processedFiles : Double.Number;
  estimatedProgress : Double.Number;
  lastProgressUpdate : Z;
  clockReads : nat;
  trace : list Event;
  resolved : option XcodeCommandResponse
}.

Definition set_stdout v (st : State) :=
  mkState v (stderr st) (currentPhase st) (totalFiles st) (processedFiles st)
    (estimatedProgress st) (lastProgressUpdate st) (clockReads st) (trace st) (resolved st).
Definition set_stderr v (st : State) :=
  mkState (stdout st) v (currentPhase st) (totalFiles st) (processedFiles st)
    (estimatedProgress st) (lastProgressUpdate st) (clockReads st) (trace st) (resolved st).
Definition set_currentPhase v (st : State) :=
  mkState (stdout st) (stderr st) v (totalFiles st) (processedFiles st)
    (estimatedProgress st) (lastProgressUpdate st) (clockReads st) (trace st) (resolved st).
Definition set_totalFiles v (st : State) :=
  mkState (stdout st) (stderr st) (currentPhase st) v (processedFiles st)
    (estimatedProgress st) (lastProgressUpdate st) (clockReads st) (trace st) (resolved st).
Definition set_processedFiles v (st : State) :=
  mkState (stdout st) (stderr st) (currentPhase st) (totalFiles st) v
    (estimatedProgress st) (lastProgressUpdate st) (clockReads st) (trace st) (resolved st).
Definition set_estimatedProgress v (st : State) :=
  mkState (stdout st) (stderr st) (currentPhase st) (totalFiles st) (processedFiles st)
    v (lastProgressUpdate st) (clockReads st) (trace st) (resolved st).
Definition set_lastProgressUpdate v (st : State) :=
  mkState (stdout st) (stderr st) (currentPhase st) (totalFiles st) (processedFiles st)
    (estimatedProgress st) v (clockReads st) (trace st) (resolved st).
Definition set_clockReads v (st : State) :=
  mkState (stdout st) (stderr st) (currentPhase st) (totalFiles st) (processedFiles st)
    (estimatedProgress st) (lastProgressUpdate st) v (trace st) (resolved st).

(** One more effect. *)
Definition emit (e : Event) (st : State) :=
  mkState (stdout st) (stderr st) (currentPhase st) (totalFiles st) (processedFiles st)
    (estimatedProgress st) (lastProgressUpdate st) (clockReads st)
    (trace st ++ [e])%list (resolved st).

(** [resolve(r)]: only the first call settles the promise. *)
Definition resolve (r : XcodeCommandResponse) (st : State) :=
  mkState (stdout st) (stderr st) (currentPhase st) (totalFiles st) (processedFiles st)
    (estimatedProgress st) (lastProgressUpdate st) (clockReads st) (trace st)
    (match resolved st with Some r0 => Some r0 | None => Some r end).

Definition initialState (before : list Event) : State :=
  mkState EmptyString EmptyString EmptyString (Double.Finite 0) (Double.Finite 0)
    (Double.Finite 0) 0 0%nat before None.

Definition buildPhases : list string :=
  ["CompileC"; "CompileSwift"; "Linking"; "CodeSign"].

(** [buildPhases.indexOf(x)] *)
Fixpoint indexOfFrom (i : Z) (x : string) (l : list string) : Z :=
  match l with
  | [] => -1
  | y :: rest => if String.eqb x y then i else indexOfFrom (i + 1) x rest
  end.

Definition indexOf (x : string) (l : list string) : Z := indexOfFrom 0 x l.

(** [Math.min(Math.floor(25 * phaseIndex), 90)] *)
Definition phaseFloor (phaseIndex : Z) : Double.Number :=
  Double.min (Double.floor (Double.mul (Double.Finite 25) (Double.ofZ phaseIndex)))
    (Double.Finite 90).

(** [Math.min(Math.floor((processedFiles / totalFiles) * 90), 95)] *)
Definition fileCountEstimate (processed total : Double.Number) : Double.Number :=
  Double.min (floorRatio processed total (Double.Finite 90)) (Double.Finite 95).

(** [`${exitCode}`] *)
Definition showExitCode (exitCode : option Z) : string :=
  match exitCode with Some n => showNum n | None => "null" end.

Definition isExitZero (exitCode : option Z) : bool :=
  match exitCode with Some n => n =? 0 | None => false end.

Section ExecuteStandard.

Variable now : nat -> Z.
Variable logPrefix : string.
Variable progressCallback : bool.

(** [sendProgressUpdate(message, forceSend = false)] *)
Definition sendProgressUpdate (message : string) (forceSend : bool) (st : State) : State :=
  let t := now (clockReads st) in
  let st := set_clockReads (S (clockReads st)) st in
  if progressCallback && (forceSend || (t - lastProgressUpdate st >? progressUpdateInterval))
  then
    emit (Progress (mkUpdate running (estimatedProgress st) message
                      (Some ("Phase: " ++ orElse (currentPhase st) "Preparing"))))
         (set_lastProgressUpdate t st)
  else st.

(** The body of [if (currentPhase !== phase)]. *)
Definition phaseTransition (phase : string) (st : State) : State :=
  let st := set_currentPhase phase st in
  let phaseIndex := indexOf phase buildPhases in
  let st := set_estimatedProgress (phaseFloor phaseIndex) st in
  sendProgressUpdate (phase ++ " phase...") true st.

(** The body of [if (phase === 'CompileC' || phase === 'CompileSwift')]. *)
Definition countCompiledFile (st : State) : State :=
  let st := set_processedFiles (Double.add (processedFiles st) (Double.Finite 1)) st in
  if Double.gtb (totalFiles st) (Double.Finite 0) then
    let phaseProgress :=
      Double.min (floorRatio (processedFiles st) (totalFiles st) (Double.Finite 100))
        (Double.Finite 100) in
    set_estimatedProgress
      (Double.min
         (Double.add (estimatedProgress st) (Double.div phaseProgress (Double.Finite 4)))
         (Double.Finite 95)) st
  else st.

(** The body of [if (line.includes(phase))], up to its [break]. *)
Definition phaseSeen (phase line : string) (st : State) : State :=
  let st :=
    if negb (String.eqb (currentPhase st) phase)
    then phaseTransition phase st else st in
  let st :=
    if String.eqb phase "CompileC" || String.eqb phase "CompileSwift"
    then countCompiledFile st else st in
  sendProgressUpdate ("Processing: " ++ substring 0 80 line ++ "...") false st.

(** [for (const phase of buildPhases) { if (line.includes(phase)) { ...; break; } }] *)
Fixpoint detectPhase (phases : list string) (line : string) (st : State) : State :=
  match phases with
  | [] => st
  | phase :: rest =>
      if includes line phase then phaseSeen phase line st
      else detectPhase rest line st
  end.

(** The body of [if (fileCountMatch && fileCountMatch.length >= 3)], the two
    groups of the match given. *)
Definition fileCountSeen (group1 group2 : string) (st : State) : State :=
  let st := set_processedFiles (parseInt group1) st in
  let st := set_totalFiles (parseInt group2) st in
  if Double.gtb (totalFiles st) (Double.Finite 0) then
    let st := set_estimatedProgress
                (fileCountEstimate (processedFiles st) (totalFiles st)) st in
    sendProgressUpdate
      ("Processing file " ++ Double.toString (processedFiles st) ++ " of "
         ++ Double.toString (totalFiles st)) true st
  else st.

(** The pattern of the file counts, [N of M files]. *)
Definition detectFileCount (line : string) (st : State) : State :=
  match matchFileCount line with
  | Some (group1, group2) => fileCountSeen group1 group2 st
  | None => st
  end.

Definition processLine (st : State) (line : string) : State :=
  detectFileCount line (detectPhase buildPhases line st).

(** [process.stdout.on('data', ...)] *)
Definition onStdout (chunk : string) (st : State) : State :=
  let st := set_stdout (stdout st ++ chunk) st in
  if progressCallback then fold_left processLine (splitLines chunk) st else st.

(** [process.stderr.on('data', ...)] *)
Definition onStderr (chunk : string) (st : State) : State :=
  let st := set_stderr (stderr st ++ chunk) st in
  let st := emit (Log "warning" ("stderr chunk: " ++ trim chunk)) st in
  if progressCallback
  then sendProgressUpdate ("Warning: " ++ substring 0 100 chunk ++ "...") true st
  else st.

(** [process.on('close', ...)] *)
Definition onClose (exitCode : option Z) (st : State) : State :=
  let ok := isExitZero exitCode in
  let st := emit (Log "info" (logPrefix ++ " process completed with exit code: "
                                ++ showExitCode exitCode)) st in
  let st :=
    if progressCallback then
      emit (Progress (mkUpdate
              (if ok then completed else failed)
              (if ok then Double.Finite 100 else estimatedProgress st)
              (if ok then logPrefix ++ " completed successfully"
               else logPrefix ++ " failed with exit code " ++ showExitCode exitCode)
              (if ok then None else Some (substring 0 500 (stderr st))))) st
    else st in
  if ok then
    let st := emit (Log "info" (logPrefix ++ " operation successful")) st in
    resolve (mkResponse true
               (orElse (stdout st) (logPrefix ++ " operation completed successfully"))
               None) st
  else
    let st := emit (Log "error" (logPrefix ++ " operation failed with exit code "
                                   ++ showExitCode exitCode)) st in
    resolve (mkResponse false (stdout st)
               (Some (orElse (stderr st)
                        ("Operation failed with exit code " ++ showExitCode exitCode
                           ++ ". No stderr output.")))) st.

(** [process.on('error', ...)] *)
Definition onError (errMessage : string) (st : State) : State :=
  let st := emit (Log "error" (logPrefix ++ " failed to start process: " ++ errMessage)) st in
  let st :=
    if progressCallback then
      emit (Progress (mkUpdate failed (Double.Finite 0)
              ("Failed to start " ++ logPrefix ++ " process: " ++ errMessage) None)) st
    else st in
  resolve (mkResponse false (stdout st) (Some ("Failed to start process: " ++ errMessage))) st.

Definition handle (st : State) (ev : ProcessEvent) : State :=
  match ev with
  | StdoutData chunk => onStdout chunk st
  | StderrData chunk => onStderr chunk st
  | CloseEvent exitCode => onClose exitCode st
  | ErrorEvent errMessage => onError errMessage st
  end.

(** The state after the child was spawned and the listeners have run on the
    events [evs], [before] being the effects of the execution so far. *)
Definition runStandard (before : list Event) (commandString : string)
    (evs : list ProcessEvent) : State :=
  fold_left handle evs
    (initialState (before ++ [Spawn "sh" ["-c"; commandString]])%list).

(** [executeStandard(commandString, logPrefix, progressCallback, operationId)].
    When [spawn] throws, the executor of the promise ends there: no listener
    is registered and the promise rejects with the error. *)
Definition executeStandard (before : list Event) (commandString : string)
    (run : ProcessRun) : Outcome :=
  match run with
  | SpawnThrows errMessage =>
      mkOutcome (before ++ [Spawn "sh" ["-c"; commandString]])%list None (Some errMessage)
  | _ =>
      let st := runStandard before commandString (processEvents run) in
      mkOutcome (trace st) (resolved st) None
  end.

End ExecuteStandard.

(** ** [executeWithXcpretty] *)

(** The variables of the closure, the clock readings and the effects. *)
Record XState := mkXState {
  x_currentPhase : string;
  x_estimatedProgress : Double.Number;
  x_lastProgressUpdate : Z;
  x_clockReads : nat;
  x_trace : list Event
}.

(** The [switch (currentPhase)] of [onProgress]. *)
Definition phaseEstimate (currentPhase : string) (estimatedProgress : Double.Number)
  : Double.Number :=
  if String.eqb currentPhase "Clean" then Double.Finite 5
  else if String.eqb currentPhase "Compile" then Double.Finite 25
  else if String.eqb currentPhase "Link" then Double.Finite 75
  else if String.eqb currentPhase "Copy" || String.eqb currentPhase "CodeSign"
  then Double.Finite 90
  else estimatedProgress.

Section ExecuteWithXcpretty.

Variable now : nat -> Z.
Variable logPrefix : string.
Variable progressCallback : bool.

(** The [onProgress] callback. *)
Definition onProgress (st : XState) (data : option XcprettyProgressData) : XState :=
  match data with
  | Some d =>
      if progressCallback then
        let '(ph, est) :=
          if truthy (phase d)
          then (show (phase d), phaseEstimate (show (phase d)) (x_estimatedProgress st))
          else (x_currentPhase st, x_estimatedProgress st) in
        let est :=
          if truthyNum (fileCount d) && truthyNum (fileIndex d) then
            match fileIndex d, fileCount d with
            | Some i, Some c =>
                Double.min (floorRatio i c (Double.Finite 100)) (Double.Finite 95)
            | _, _ => est
            end
          else est in
        let t := now (x_clockReads st) in
        if t - x_lastProgressUpdate st >? progressUpdateInterval then
          let message := orElseOpt (dataMessage d) ("Processing " ++ ph ++ "...") in
          let update := mkUpdate running est message (Some ("Phase: " ++ ph)) in
          mkXState ph est t (S (x_clockReads st)) (x_trace st ++ [Progress update])%list
        else
          mkXState ph est (x_lastProgressUpdate st) (S (x_clockReads st)) (x_trace st)
      else st
  | None => st
  end.

(** The [.then] handler. *)
Definition onResolved (r : XcprettyResult) (st : XState) : Outcome :=
  let ok := xstatus r =? 0 in
  let final :=
    if progressCallback then
      [Progress (mkUpdate
         (if ok then completed else failed)
         (if ok then Double.Finite 100 else x_estimatedProgress st)
         (if ok then logPrefix ++ " completed successfully"
          else logPrefix ++ " failed with status code " ++ showNum (xstatus r))
         (if ok then None else option_map (substring 0 500) (xerror r)))]
    else [] in
  let logLine :=
    if ok then Log "info" (logPrefix ++ " operation successful")
    else Log "error" (logPrefix ++ " operation failed with status code "
                        ++ showNum (xstatus r)) in
  if ok then
    mkOutcome
      (x_trace st ++ final ++ [logLine])%list
      (Some (mkResponse true
               (orElse (xoutput r) (logPrefix ++ " operation completed successfully"))
               None))
      None
  else
    mkOutcome
      (x_trace st ++ final ++ [logLine])%list
      (Some (mkResponse false
               (orElse (xoutput r) EmptyString)
               (Some (orElseOpt (xerror r)
                        ("Operation failed with status code " ++ showNum (xstatus r))))))
      None.

(** The [.catch] handler. *)
Definition onRejected (errMessage : string) (st : XState) : Outcome :=
  let final :=
    if progressCallback then
      [Progress (mkUpdate failed (x_estimatedProgress st)
                   ("Failed during xcpretty execution: " ++ errMessage) None)]
    else [] in
  let logLine :=
    Log "error" (logPrefix ++ " failed during xcpretty execution: " ++ errMessage) in
  mkOutcome
    (x_trace st ++ [logLine] ++ final)%list
    (Some (mkResponse false EmptyString
             (Some ("Failed during xcpretty execution: " ++ errMessage))))
    None.

(** [executeWithXcpretty(commandString, logPrefix, progressCallback,
    operationId)].  In the [catch] of the executor of the promise the source
    has [return executeStandard(...)]: the standard execution runs, and the
    promise it returns is the return value of the executor, which
    [new Promise] ignores; [resolve] is never called.  ([executeXcodeCommand]
    never calls this function: see [typeofXcpretty].) *)
Definition executeWithXcpretty (before : list Event) (commandString : string)
    (helper : XcprettyRun) (run : ProcessRun) : Outcome :=
  let st0 := mkXState "Preparing" (Double.Finite 0) 0 0%nat
               (before ++ [CallXcpretty commandString])%list in
  match helper with
  | HelperResolves calls r => onResolved r (fold_left onProgress calls st0)
  | HelperRejects calls errMessage => onRejected errMessage (fold_left onProgress calls st0)
  | HelperThrows errMessage =>
      let logLine :=
        Log "warning"
          ("xcpretty failed, falling back to standard execution: " ++ errMessage) in
      let fallback :=
        executeStandard now logPrefix progressCallback
          (x_trace st0 ++ [logLine])%list commandString run in
      mkOutcome (events fallback) None None
  end.

End ExecuteWithXcpretty.

(** ** [executeXcodeCommand] *)

Fixpoint anyChar (p : ascii -> bool) (s : string) : bool :=
  match s with
  | EmptyString => false
  | String c rest => p c || anyChar p rest
  end.

(** The test of the character class of [executeXcodeCommand]: white space,
    comma, double quote, single quote or equals sign. *)
Definition isSpecial (c : ascii) : bool :=
  isWhiteSpace c || Ascii.eqb c "," || Ascii.eqb c dquote
  || Ascii.eqb c squote || Ascii.eqb c "=".

Definition needsQuoting (arg : string) : bool := anyChar isSpecial arg.

(** The tail of the second pattern: any number of characters other than line
    terminators (the dot), then a double quote that ends the input. *)
Fixpoint restThenQuote (s : string) : bool :=
  match s with
  | EmptyString => false
  | String c rest =>
      if isEmpty rest then Ascii.eqb c dquote
      else negb (isLineTerminator c) && restThenQuote rest
  end.

(** The second pattern of [executeXcodeCommand]: a double quote at the start
    of the input, then the tail above. *)
Definition alreadyQuoted (arg : string) : bool :=
  match arg with
  | String c rest => Ascii.eqb c dquote && restThenQuote rest
  | EmptyString => false
  end.

(** The [replace] of [executeXcodeCommand]: a backslash is put before every
    double quote and every backslash. *)
Fixpoint escapeQuotes (s : string) : string :=
  match s with
  | EmptyString => EmptyString
  | String c rest =>
      if Ascii.eqb c dquote || Ascii.eqb c backslash
      then String backslash (String c (escapeQuotes rest))
      else String c (escapeQuotes rest)
  end.

(** The function mapped over the command array. *)
Definition escapeArg (arg : string) : string :=
  if needsQuoting arg && negb (alreadyQuoted arg)
  then String dquote (escapeQuotes arg ++ String dquote EmptyString)
  else arg.

(** [typeof xcpretty], for the binding of [import * as xcpretty from
    '@expo/xcpretty'] (line 24).  The package is an ES module ([package.json]
    has [type] set to [module]), where such a binding is a module namespace
    object whatever the imported package exports: its [typeof] is [object]. *)
Definition typeofXcpretty : string := "object".

(** [command[0] === 'xcodebuild' && typeof xcpretty === 'function'] *)
Definition useXcpretty (env : Env) (command : list string) : option XcprettyRun :=
  match command with
  | first :: _ =>
      if String.eqb first "xcodebuild" && String.eqb typeofXcpretty "function"
      then xcpretty env else None
  | [] => None
  end.

(** [executeXcodeCommand(command, logPrefix, progressCallback?)];
    [progressCallback] tells whether a callback was passed, and the calls of
    it are the [Progress] events. *)
Definition executeXcodeCommand (env : Env) (command : list string) (logPrefix : string)
    (progressCallback : bool) : Outcome :=
  let commandString := join " " (map escapeArg command) in
  let starting :=
    mkUpdate running (Double.Finite 0) ("Starting " ++ logPrefix ++ "...") None in
  let header :=
    [Log "info" ("Executing " ++ logPrefix ++ " command: " ++ commandString);
     Log "debug" ("DEBUG - Raw command array: " ++ jsonStringify command)] in
  let before :=
    (header ++ (if progressCallback then [Progress starting] else []))%list in
  match useXcpretty env command with
  | Some helper =>
      executeWithXcpretty (dateNow env) logPrefix progressCallback
        (before ++ [Log "info" "Using xcpretty for improved output formatting"])%list
        commandString helper (child env)
  | None =>
      executeStandard (dateNow env) logPrefix progressCallback
        (before ++ [Log "info" "Using standard execution method"])%list
        commandString (child env)
  end.

End Xcode.

(* ================================================================== *)
(** * [src/utils/build-utils.ts] *)

Module BuildUtils.
Import Js Common.

Record SharedBuildParams := mkShared {
  workspacePath : option string;
  projectPath : option string;
  scheme : string;
  configuration : string;
  derivedDataPath : option string;
  extraArgs : option (list string)
}.

Record PlatformBuildOptions := mkOptions {
  platform : XcodePlatform;
  simulatorName : option string;
  simulatorId : option string;
  useLatestOS : option bool;
  arch : option string;
  logPrefix : string
}.

(** How the part of [executeXcodeBuild] before the formatting of the
    response ends: with [return createTextResponse(text, isError)], early or
    from the [catch], or with the result awaited from [executeXcodeCommand]
    ([None]: the promise never settles). *)
Inductive BuildStep :=
| Responded (text : string) (isError : bool)
| Executed (outcome : option Xcode.XcodeCommandResponse).

(** The command of [executeXcodeBuild], without the destination. *)
Definition commandHead (params : SharedBuildParams) : list string :=
  (["xcodebuild"]
   ++ (if truthy (workspacePath params) then ["-workspace"; show (workspacePath params)]
       else if truthy (projectPath params) then ["-project"; show (projectPath params)]
       else [])
   ++ ["-scheme"; scheme params; "-configuration"; configuration params])%list.

Definition commandTail (params : SharedBuildParams) (buildAction : string) : list string :=
  ((if truthy (derivedDataPath params)
    then ["-derivedDataPath"; show (derivedDataPath params)] else [])
   ++ (match extraArgs params with Some args => args | None => [] end)
   ++ [buildAction])%list.

(** The destination of [executeXcodeBuild]: the effects of computing it, and
    the destination string, a response returned early, or an exception for
    the [catch] of the function. *)
Definition buildDestination (opts : PlatformBuildOptions)
  : list Event * Completion (string + string) :=
  let lift (r : list Event * Completion string) :=
    match r with
    | (logs, Return d) => (logs, Return (inl d))
    | (logs, Throw errorMessage) => (logs, Throw errorMessage)
    end in
  let p := platform opts in
  if Xcode.isSimulatorPlatform p then
    if truthy (simulatorId opts) then
      lift (Xcode.constructDestinationString p None (simulatorId opts) None None)
    else if truthy (simulatorName opts) then
      lift (Xcode.constructDestinationString p (simulatorName opts) None
              (useLatestOS opts) None)
    else
      ([], Return (inr ("For " ++ platformString p
                          ++ " platform, either simulatorId or simulatorName must be provided")))
  else if platform_eqb p macOS then
    lift (Xcode.constructDestinationString p None None (Some false) (arch opts))
  else if platform_eqb p iOS then ([], Return (inl "generic/platform=iOS"))
  else if platform_eqb p watchOS then ([], Return (inl "generic/platform=watchOS"))
  else if platform_eqb p tvOS then ([], Return (inl "generic/platform=tvOS"))
  else if platform_eqb p visionOS then ([], Return (inl "generic/platform=visionOS"))
  else ([], Return (inr ("Unsupported platform: " ++ platformString p))).

(** [executeXcodeBuild(params, platformOptions, buildAction)] from its first
    line to the result of [executeXcodeCommand] (lines 64 to 139 of the
    source) and its [catch], which a rejected promise of
    [executeXcodeCommand] reaches.  The rest of the function formats the tool
    response from that result; it writes log lines and does nothing else to
    the outside world, and is not embedded. *)
Definition executeXcodeBuild (env : Xcode.Env) (params : SharedBuildParams)
    (opts : PlatformBuildOptions) (buildAction : string) : list Event * BuildStep :=
  let starting :=
    Log "info" ("Starting " ++ logPrefix opts ++ " " ++ buildAction
                  ++ " for scheme " ++ scheme params) in
  match buildDestination opts with
  | (logs, Return (inl destinationString)) =>
      let command :=
        (commandHead params ++ ["-destination"; destinationString]
           ++ commandTail params buildAction)%list in
      let run := Xcode.executeXcodeCommand env command (logPrefix opts) false in
      match Xcode.rejected run with
      | Some errorMessage =>
          let text :=
            "Error during " ++ logPrefix opts ++ " " ++ buildAction ++ ": "
              ++ errorMessage in
          ((starting :: logs) ++ Xcode.events run ++ [Log "error" text],
           Responded text true)%list
      | None =>
          ((starting :: logs) ++ Xcode.events run, Executed (Xcode.result run))%list
      end
  | (logs, Return (inr text)) => (starting :: logs, Responded text true)
  | (logs, Throw errorMessage) =>
      let text :=
        "Error during " ++ logPrefix opts ++ " " ++ buildAction ++ ": " ++ errorMessage in
      ((starting :: logs) ++ [Log "error" text], Responded text true)%list
  end.

End BuildUtils.

(* ================================================================== *)
(** * The shell that runs the command string *)

Module Sh.
Import Js.

(** How [sh] reads a word written in double quotes (POSIX, Shell Command
    Language, Double-Quotes): every character stands for itself, except that
    the double quote ends the word, that a backslash before a dollar sign, a
    backquote, a double quote or a backslash stands for that character (and
    before a newline the two are dropped), and that the dollar sign and the
    backquote start an expansion. *)

(** The characters that keep a word in double quotes from being a literal
    the shell reads: the dollar sign and the backquote, and the NUL
    character, which no argument of [spawn] may hold. *)
Definition breaksLiteral (c : ascii) : bool :=
  Ascii.eqb c "$" || Ascii.eqb c "`" || Ascii.eqb c "000".

(** [readQuoted s] reads what follows the opening quote.  It gives the text
    of the word when the word is literal and its closing quote ends [s];
    [None] otherwise: no closing quote, text after it, an expansion, or a
    NUL character. *)
Fixpoint readQuoted (s : string) : option string :=
  match s with
  | EmptyString => None
  | String c rest =>
      if Ascii.eqb c dquote then
        if isEmpty rest then Some EmptyString else None
      else if breaksLiteral c then None
      else if Ascii.eqb c backslash then
        match rest with
        | EmptyString => None
        | String d rest' =>
            if Ascii.eqb d dquote || Ascii.eqb d backslash
               || Ascii.eqb d "$" || Ascii.eqb d "`"
            then option_map (String d) (readQuoted rest')
            else if Ascii.eqb d LF then readQuoted rest'
            else if Ascii.eqb d "000" then None
            else option_map (fun r => String c (String d r)) (readQuoted rest')
        end
      else option_map (String c) (readQuoted rest)
  end.

(** The token [sh] receives from a word that is one double-quoted literal. *)
Definition readWord (w : string) : option string :=
  match w with
  | String c rest => if Ascii.eqb c dquote then readQuoted rest else None
  | EmptyString => None
  end.

End Sh.

(* ================================================================== *)
(** * The vocabulary of the properties *)

Module Props.
Import Js Common.

(** The number of child processes spawned among some effects. *)
Fixpoint spawnCount (evs : list Event) : nat :=
  match evs with
  | [] => 0
  | Spawn _ _ :: rest => S (spawnCount rest)
  | _ :: rest => spawnCount rest
  end.

(** The updates handed to the progress callback, in order. *)
Fixpoint progressUpdates (evs : list Event) : list ToolProgressUpdate :=
  match evs with
  | [] => []
  | Progress u :: rest => u :: progressUpdates rest
  | _ :: rest => progressUpdates rest
  end.

Definition isRunning (u : ToolProgressUpdate) : Prop := status u = running.

(** A terminal update: its status is [completed] or [failed]. *)
Definition isTerminal (u : ToolProgressUpdate) : Prop :=
  status u = completed \/ status u = failed.

(** Exactly one terminal update, and it is the last update. *)
Definition oneTerminalLast (ups : list ToolProgressUpdate) : Prop :=
  exists before final,
    ups = (before ++ [final])%list /\ Forall isRunning before /\ isTerminal final.

(** Every two neighbours of a list are related. *)
Inductive Chain {A : Type} (R : A -> A -> Prop) : list A -> Prop :=
| Chain_nil : Chain R []
| Chain_one (a : A) : Chain R [a]
| Chain_cons (a b : A) (l : list A) :
    R a b -> Chain R (b :: l) -> Chain R (a :: b :: l).

(** The update restarts the estimate at the floor of a build phase. *)
Definition isPhaseReset (u : ToolProgressUpdate) : Prop :=
  exists phase,
    In phase Xcode.buildPhases
    /\ message u = phase ++ " phase..."
    /\ progress u = Xcode.phaseFloor (Xcode.indexOf phase Xcode.buildPhases).

(** The update recomputes the estimate from a line [N of M files]. *)
Definition isFileRecount (u : ToolProgressUpdate) : Prop :=
  exists processed total,
    Double.gtb total (Double.Finite 0) = true
    /\ message u
       = "Processing file " ++ Double.toString processed ++ " of "
           ++ Double.toString total
    /\ progress u = Xcode.fileCountEstimate processed total.

(** The estimate [new] is not below the estimate [old].  (NaN is below
    nothing, and nothing is below NaN.) *)
Definition notBelow (old new : Double.Number) : Prop := Double.ltb new old = false.

(** From one update to the next, as the specification has it: the estimate
    does not fall, or a phase transition resets it. *)
Definition stepClaimed (u1 u2 : ToolProgressUpdate) : Prop :=
  notBelow (progress u1) (progress u2) \/ isPhaseReset u2.

(** From one update to the next, as the code has it. *)
Definition stepAmended (u1 u2 : ToolProgressUpdate) : Prop :=
  notBelow (progress u1) (progress u2) \/ isPhaseReset u2 \/ isFileRecount u2.

(** What the specification says of the estimates of an execution. *)
Definition progressClaim (ups : list ToolProgressUpdate) (succeeded : bool) : Prop :=
  Chain stepClaimed ups
  /\ Forall (fun u => isRunning u ->
                      Double.ltb (progress u) (Double.Finite 100) = true) ups
  /\ (succeeded = true ->
      exists before final,
        ups = (before ++ [final])%list /\ progress final = Double.Finite 100).

(** An estimate of 95 at most, or NaN. *)
Definition capped (x : Double.Number) : Prop :=
  x = Double.NaN \/ Double.leb x (Double.Finite 95) = true.

(** What the code does about the estimates of an execution. *)
Definition progressAmended (ups : list ToolProgressUpdate) (succeeded : bool) : Prop :=
  Chain stepAmended ups
  /\ Forall (fun u => isRunning u -> capped (progress u)) ups
  /\ (succeeded = true ->
      exists before final,
        ups = (before ++ [final])%list /\ progress final = Double.Finite 100).

(** Where the estimate stands after some updates: not below the last one. *)
Definition lastLe (ups : list ToolProgressUpdate) (x : Double.Number) : Prop :=
  forall before u, ups = (before ++ [u])%list -> notBelow (progress u) x.

(** The estimates the listeners compute: NaN, or a multiple of a quarter
    from 0 to 95. *)
Definition quarter (x : Double.Number) : Prop :=
  x = Double.NaN
  \/ exists k, 0 <= k <= 380 /\ x = Double.Finite (Qred (k # 4)).

(** The file counters: an infinity, or a number that is not negative. *)
Definition counted (x : Double.Number) : Prop :=
  x = Double.Infinity false
  \/ exists q, x = Double.Finite q /\ (0 <= q)%Q.

(** The invariant of the listeners of [executeStandard] on the estimates. *)
Record Mono (st : Xcode.State) : Prop := mkMono {
  mono_running :
    Forall (fun u => isRunning u /\ capped (progress u))
      (progressUpdates (Xcode.trace st));
  mono_chain : Chain stepAmended (progressUpdates (Xcode.trace st));
  mono_last : lastLe (progressUpdates (Xcode.trace st)) (Xcode.estimatedProgress st);
  mono_quarter : quarter (Xcode.estimatedProgress st);
  mono_count : counted (Xcode.processedFiles st);
  mono_total : counted (Xcode.totalFiles st)
}.

(** The text written to standard output, and to standard error. *)
Fixpoint outText (chunks : list Xcode.OutputChunk) : string :=
  match chunks with
  | [] => EmptyString
  | Xcode.OnStdout chunk :: rest => chunk ++ outText rest
  | Xcode.OnStderr _ :: rest => outText rest
  end.

Fixpoint errText (chunks : list Xcode.OutputChunk) : string :=
  match chunks with
  | [] => EmptyString
  | Xcode.OnStderr chunk :: rest => chunk ++ errText rest
  | Xcode.OnStdout _ :: rest => errText rest
  end.

(** The captured output and the state of the promise are as given. *)
Definition keeps (out err : string) (r : option Xcode.XcodeCommandResponse)
    (st : Xcode.State) : Prop :=
  Xcode.stdout st = out /\ Xcode.stderr st = err /\ Xcode.resolved st = r.

(** What the specification says of the result of an execution: a result is
    returned, and nothing is thrown. *)
Definition oneResult (out : Xcode.Outcome) : Prop :=
  (exists r, Xcode.result out = Some r) /\ Xcode.rejected out = None.

(** The command is run by [executeStandard]: at once, or as the fallback of
    [executeWithXcpretty]. *)
Definition standardPath (env : Xcode.Env) (command : list string) : Prop :=
  match Xcode.useXcpretty env command with
  | None | Some (Xcode.HelperThrows _) => True
  | Some (Xcode.HelperResolves _ _) | Some (Xcode.HelperRejects _ _) => False
  end.

(** The child ran and exited with code 0. *)
Definition exitedZero (run : Xcode.ProcessRun) : bool :=
  match run with
  | Xcode.Exits _ exitCode => Xcode.isExitZero exitCode
  | Xcode.FailsToStart _ _ | Xcode.SpawnThrows _ => false
  end.

(** The parameters with no platform. *)
Definition withoutPlatform (params : Xcode.XcodeParams) : Xcode.XcodeParams :=
  Xcode.mkParams (Xcode.workspacePath params) (Xcode.projectPath params)
    (Xcode.scheme params) (Xcode.configuration params) (Xcode.derivedDataPath params)
    None (Xcode.destination params) (Xcode.simulatorName params)
    (Xcode.simulatorId params) (Xcode.useLatestOS params) (Xcode.arch params)
    (Xcode.extraArgs params).

(** The tokens of [extraArgs]. *)
Definition extraTokens (params : Xcode.XcodeParams) : list string :=
  match Xcode.extraArgs params with Some args => args | None => [] end.

(** A token that begins and ends with a double quote, two characters at
    least. *)
Definition wrappedInQuotes (t : string) : Prop :=
  exists inner, t = String dquote (inner ++ String dquote EmptyString).

(** A token with one of the given characters. *)
Definition hasChar (p : ascii -> bool) (t : string) : Prop :=
  exists a c b, t = a ++ String c b /\ p c = true.

(** A token with white space, a comma, a double or single quote, or an
    equals sign. *)
Definition hasSpecial (t : string) : Prop := hasChar Xcode.isSpecial t.

(** A token with no line terminator. *)
Definition singleLine (t : string) : Prop := ~ hasChar isLineTerminator t.

(** The token in double quotes, a backslash before each of its double quotes
    and backslashes. *)
Definition quoted (t : string) : string :=
  String dquote (Xcode.escapeQuotes t ++ String dquote EmptyString).

(** What the specification says of the quoting of one token: the three cases,
    and idempotence. *)
Definition quotingShape (t : string) : Prop :=
  (wrappedInQuotes t -> Xcode.escapeArg t = t)
  /\ (~ wrappedInQuotes t -> hasSpecial t -> Xcode.escapeArg t = quoted t)
  /\ (~ hasSpecial t -> Xcode.escapeArg t = t)
  /\ Xcode.escapeArg (Xcode.escapeArg t) = Xcode.escapeArg t.

(** A token that gets wrapped reaches the shell as a single token, itself. *)
Definition singleToken (t : string) : Prop :=
  ~ wrappedInQuotes t -> hasSpecial t ->
  Sh.readWord (Xcode.escapeArg t) = Some t.

Definition quotingClaim (t : string) : Prop := quotingShape t /\ singleToken t.

End Props.

(* ================================================================== *)
(** * The patterns of [app_path.ts] and [build-utils.ts] *)

Module Patterns.
Import Js.

(** The longest prefix with no line terminator: what a greedy dot-star
    matches. *)
Fixpoint takeLine (s : string) : string :=
  match s with
  | EmptyString => EmptyString
  | String c rest => if isLineTerminator c then EmptyString else String c (takeLine rest)
  end.

(** A pattern made of the literal [key], a group of one character or more
    other than line terminators, and the end of a line (the flag [m]),
    anchored at the start of [s]: the group is the rest of the line, which
    must not be empty. *)
Definition matchSettingHere (key s : string) : option string :=
  match stripPrefix key s with
  | Some rest =>
      let value := takeLine rest in
      if isEmpty value then None else Some value
  | None => None
  end.

(** [output.match(pattern)] for such a pattern: the group of the leftmost
    match. *)
Fixpoint matchSetting (key s : string) : option string :=
  match matchSettingHere key s with
  | Some value => Some value
  | None =>
      match s with
      | EmptyString => None
      | String _ rest => matchSetting key rest
      end
  end.

Definition warningMarker : string := "[warning]: ".

(** The loop of [executeXcodeBuild] over the global pattern made of the
    literal [warningMarker] and a group of any number of characters other
    than line terminators: the groups of the successive matches, in order.
    [skip] counts the characters still inside the last match. *)
Fixpoint warningGroups (skip : nat) (s : string) : list string :=
  match s with
  | EmptyString => []
  | String _ rest =>
      match skip with
      | S k => warningGroups k rest
      | O =>
          match stripPrefix warningMarker s with
          | Some after =>
              let group := takeLine after in
              group :: warningGroups (10 + String.length group) rest
          | None => warningGroups 0 rest
          end
      end
  end.

Definition extractWarnings (output : string) : list string := warningGroups 0 output.

End Patterns.

(* ================================================================== *)
(** * [src/tools/app_path.ts] *)

Module AppPath.
Import Js Common.

(** The parameters of [_handleGetAppPathLogic]. *)
Record Params := mkParams {
  workspacePath : option string;
  projectPath : option string;
  scheme : string;
  configuration : string;
  platform : XcodePlatform;
  simulatorName : option string;
  simulatorId : option string;
  useLatestOS : bool
}.

(** The responses of [_handleGetAppPathLogic]: [createTextResponse(text,
    isError)], or the response of a success, whose two texts are a check
    mark with [App path retrieved successfully: ] and the path, and the next
    steps. *)
Inductive ToolResponse :=
| TextResponse (text : string) (isError : bool)
| AppPathResponse (appPath nextStepsText : string).

Definition inQuotes (s : string) : string :=
  String dquote (s ++ String dquote EmptyString).

(** The destination, or the text of the response returned early. *)
Definition destinationString (params : Params) : string + string :=
  let p := platform params in
  let P := platformString p in
  if Xcode.isSimulatorPlatform p then
    if truthy (simulatorId params) then
      inl ("platform=" ++ P ++ ",id=" ++ show (simulatorId params))
    else if truthy (simulatorName params) then
      inl ("platform=" ++ P ++ ",name=" ++ show (simulatorName params)
             ++ (if useLatestOS params then ",OS=latest" else EmptyString))
    else
      inr ("For " ++ P ++ " platform, either simulatorId or simulatorName must be provided")
  else if platform_eqb p macOS then inl "platform=macOS,arch=arm64,arch=x86_64"
  else if platform_eqb p iOS then inl "generic/platform=iOS"
  else if platform_eqb p watchOS then inl "generic/platform=watchOS"
  else if platform_eqb p tvOS then inl "generic/platform=tvOS"
  else if platform_eqb p visionOS then inl "generic/platform=visionOS"
  else inr ("Unsupported platform: " ++ P).

(** The command array, the destination given. *)
Definition showBuildSettings (params : Params) (destination : string) : list string :=
  (["xcodebuild"; "-showBuildSettings"]
   ++ (if truthy (workspacePath params) then ["-workspace"; show (workspacePath params)]
       else if truthy (projectPath params) then ["-project"; show (projectPath params)]
       else [])
   ++ ["-scheme"; scheme params; "-configuration"; configuration params;
       "-destination"; destination])%list.

(** The path of the app from the build settings, when both settings are
    there. *)
Definition appPathOf (buildSettingsOutput : string) : option string :=
  match Patterns.matchSetting "BUILT_PRODUCTS_DIR = " buildSettingsOutput,
        Patterns.matchSetting "FULL_PRODUCT_NAME = " buildSettingsOutput with
  | Some builtProductsDir, Some fullProductName =>
      Some (trim builtProductsDir ++ "/" ++ trim fullProductName)
  | _, _ => None
  end.

Definition nextSteps (p : XcodePlatform) (appPath : string) : string :=
  if platform_eqb p macOS then
    "Next Steps:" ++ String LF
      ("1. Get bundle ID: get_macos_bundle_id({ appPath: " ++ inQuotes appPath ++ " })"
         ++ String LF
             ("2. Launch the app: launch_macos_app({ appPath: " ++ inQuotes appPath ++ " })"))
  else if platform_eqb p iOSSimulator then
    "Next Steps:" ++ String LF
      ("1. Get bundle ID: get_ios_bundle_id({ appPath: " ++ inQuotes appPath ++ " })"
         ++ String LF
             ("2. Boot simulator: boot_simulator({ simulatorUuid: "
                ++ inQuotes "SIMULATOR_UUID" ++ " })"
                ++ String LF
                    ("3. Install app: install_app_in_simulator({ simulatorUuid: "
                       ++ inQuotes "SIMULATOR_UUID" ++ ", appPath: "
                       ++ inQuotes appPath ++ " })"
                       ++ String LF
                           ("4. Launch app: launch_app_in_simulator({ simulatorUuid: "
                              ++ inQuotes "SIMULATOR_UUID" ++ ", bundleId: "
                              ++ inQuotes "BUNDLE_ID" ++ " })"))))
  else if platform_eqb p iOS then
    "Next Steps:" ++ String LF
      ("1. Get bundle ID: get_ios_bundle_id({ appPath: " ++ inQuotes appPath ++ " })"
         ++ String LF "2. Use Xcode to install the app on your connected iOS device")
  else EmptyString.

(** The response made from the result of the command. *)
Definition respond (p : XcodePlatform) (r : Xcode.XcodeCommandResponse) : ToolResponse :=
  if negb (Xcode.success r) then
    TextResponse ("Failed to get app path: " ++ show (Xcode.error r)) true
  else if isEmpty (Xcode.output r) then
    TextResponse "Failed to extract build settings output from the result." true
  else
    match appPathOf (Xcode.output r) with
    | Some appPath => AppPathResponse appPath (nextSteps p appPath)
    | None =>
        TextResponse
          "Failed to extract app path from build settings. Make sure the app has been built first."
          true
    end.

(** [_handleGetAppPathLogic(params)]: its effects, and its response, [None]
    when the promise of [executeXcodeCommand] never settles.  A rejected
    promise of [executeXcodeCommand] takes the function to its [catch]. *)
Definition _handleGetAppPathLogic (env : Xcode.Env) (params : Params)
  : list Event * option ToolResponse :=
  let starting :=
    Log "info" ("Getting app path for scheme " ++ scheme params ++ " on platform "
                  ++ platformString (platform params)) in
  match destinationString params with
  | inr text => ([starting], Some (TextResponse text true))
  | inl destination =>
      let run :=
        Xcode.executeXcodeCommand env (showBuildSettings params destination)
          "Get App Path" false in
      match Xcode.rejected run with
      | Some errorMessage =>
          let text := "Error retrieving app path: " ++ errorMessage in
          ((starting :: Xcode.events run) ++ [Log "error" text],
           Some (TextResponse text true))%list
      | None =>
          (starting :: Xcode.events run,
           option_map (respond (platform params)) (Xcode.result run))
      end
  end.

End AppPath.

(* ================================================================== *)
(** * The shell that splits the command string *)

Module Shell.
Import Js.

(** How [sh] reads a simple command (POSIX, Shell Command Language, Token
    Recognition and Simple Commands), for the commands made of words of
    ordinary characters and of words in double quotes, blanks between them.
    A word in double quotes is read as [Sh.readQuoted] reads it.  Everything
    else is outside the model and gives [None]: the characters with a meaning
    of their own outside quotes (operators, expansions, patterns, single
    quotes, the backslash, the newline), a quote that touches another word,
    a NUL character (which [spawn] refuses), and a command that begins with
    a reserved word. *)

Definition isBlank (c : ascii) : bool := Ascii.eqb c " " || Ascii.eqb c "009".

(** The characters that stand for themselves in a word without quotes. *)
Definition isOrdinary (c : ascii) : bool :=
  negb (existsb (Ascii.eqb c)
          [" "; "009"; "010"; "000"; "|"; "&"; ";"; "<"; ">"; "("; ")"; "$"; "`";
           "092"; "034"; "039"; "*"; "?"; "["; "]"; "#"; "~"; "="; "%"; "!"; "{";
           "}"; "^"]%char).

(** The reserved words, and the words an implementation may reserve (those
    of bash and of zsh are listed).  As the first word of a command, without
    quotes, such a word begins a compound command, modifies the command or
    is a syntax error.  (The reserved words made of braces, brackets or the
    exclamation mark are not made of ordinary characters.) *)
Definition reservedWords : list string :=
  ["if"; "then"; "else"; "elif"; "fi"; "do"; "done"; "case"; "esac"; "while";
   "until"; "for"; "in"; "function"; "select"; "time"; "coproc"; "repeat";
   "foreach"; "end"; "nocorrect"].

Fixpoint skipBlanks (s : string) : string :=
  match s with
  | EmptyString => EmptyString
  | String c rest => if isBlank c then skipBlanks rest else s
  end.

(** The characters up to the first blank. *)
Fixpoint upToBlank (s : string) : string :=
  match s with
  | EmptyString => EmptyString
  | String c rest => if isBlank c then EmptyString else String c (upToBlank rest)
  end.

(** The command begins with a reserved word, written without quotes. *)
Definition beginsWithReservedWord (s : string) : bool :=
  existsb (String.eqb (upToBlank (skipBlanks s))) reservedWords.

Inductive Mode := Between | Plain | Quoted.

(** One more character of the word being read, the first of the list. *)
Definition addChar (c : ascii) (r : option (list string)) : option (list string) :=
  match r with
  | Some (w :: ws) => Some (String c w :: ws)
  | _ => None
  end.

(** The word being read starts here. *)
Definition newWord (r : option (list string)) : option (list string) :=
  option_map (cons EmptyString) r.

(** The words of [s], read in mode [m]; in the modes [Plain] and [Quoted]
    the first word of the result is the one being read. *)
Fixpoint scan (m : Mode) (s : string) : option (list string) :=
  match m, s with
  | Between, EmptyString => Some []
  | Between, String c rest =>
      if isBlank c then scan Between rest
      else if Ascii.eqb c dquote then scan Quoted rest
      else if isOrdinary c then addChar c (scan Plain rest)
      else None
  | Plain, EmptyString => Some [EmptyString]
  | Plain, String c rest =>
      if isBlank c then newWord (scan Between rest)
      else if isOrdinary c then addChar c (scan Plain rest)
      else None
  | Quoted, EmptyString => None
  | Quoted, String c rest =>
      if Ascii.eqb c dquote then
        match rest with
        | EmptyString => Some [EmptyString]
        | String b rest' => if isBlank b then newWord (scan Between rest') else None
        end
      else if Sh.breaksLiteral c then None
      else if Ascii.eqb c backslash then
        match rest with
        | EmptyString => None
        | String d rest' =>
            if Ascii.eqb d dquote || Ascii.eqb d backslash
               || Ascii.eqb d "$" || Ascii.eqb d "`"
            then addChar d (scan Quoted rest')
            else if Ascii.eqb d LF then scan Quoted rest'
            else if Ascii.eqb d "000" then None
            else addChar c (addChar d (scan Quoted rest'))
        end
      else addChar c (scan Quoted rest)
  end.

(** The words of the simple command [sh] reads from a command string. *)
Definition words (commandString : string) : option (list string) :=
  if beginsWithReservedWord commandString then None
  else scan Between commandString.

End Shell.

(* ================================================================== *)
(** * More vocabulary *)

Module More.
Import Js Common.

(** The calls of xcpretty among some effects. *)
Fixpoint xcprettyCalls (evs : list Event) : nat :=
  match evs with
  | [] => 0
  | CallXcpretty _ :: rest => S (xcprettyCalls rest)
  | _ :: rest => xcprettyCalls rest
  end.

(** The throttled updates of [executeStandard]: the updates with status
    [running] whose message is the one of a line of output. *)
Definition isLineUpdate (u : ToolProgressUpdate) : bool :=
  match status u with
  | running => String.prefix "Processing: " (message u)
  | _ => false
  end.

Fixpoint countIf {A : Type} (p : A -> bool) (l : list A) : Z :=
  match l with
  | [] => 0
  | a :: rest => (if p a then 1 else 0) + countIf p rest
  end.

(** The effects that only report: log lines and progress updates. *)
Definition isReport (e : Event) : bool :=
  match e with
  | Log _ _ | Progress _ => true
  | Spawn _ _ | CallXcpretty _ => false
  end.

(** Since the effects [start], the state has only reported. *)
Definition reportsSince (start : list Event) (st : Xcode.State) : Prop :=
  exists more, Xcode.trace st = (start ++ more)%list /\ forallb isReport more = true.

(** A clock that does not go back. *)
Definition monotone (now : nat -> Z) : Prop :=
  forall n m, (n <= m)%nat -> now n <= now m.

(** All the readings of the clock lie between the two bounds. *)
Definition within (now : nat -> Z) (tmin tmax : Z) : Prop :=
  forall n, tmin <= now n <= tmax.

(** The invariant of the throttle of [executeStandard]: when [k] updates of
    lines were sent, the time stamp of the last update is a reading of the
    clock, [k - 1] intervals after [tmin] at least. *)
Definition throttled (now : nat -> Z) (tmin : Z) (st : Xcode.State) : Prop :=
  let k := countIf isLineUpdate (Props.progressUpdates (Xcode.trace st)) in
  k = 0
  \/ (tmin + 1001 * (k - 1) <= Xcode.lastProgressUpdate st
      /\ exists i, (i < Xcode.clockReads st)%nat /\ Xcode.lastProgressUpdate st = now i).

(** A token the model of the shell reads back: not empty, not taken for
    quoted already, with no dollar sign, no backquote and no NUL character,
    and made of ordinary characters when the executor does not wrap it. *)
Definition readable (t : string) : Prop :=
  t <> EmptyString
  /\ Xcode.alreadyQuoted t = false
  /\ Xcode.anyChar Sh.breaksLiteral t = false
  /\ (Xcode.needsQuoting t = false ->
      Xcode.anyChar (fun c => negb (Shell.isOrdinary c)) t = false).

(** The words after a word that ends where [tail] starts: [tail] is the end
    of the command, or a blank and more words. *)
Definition afterWord (tail : string) : option (list string) :=
  match tail with
  | EmptyString => Some []
  | String b rest => if Shell.isBlank b then Shell.scan Shell.Between rest else None
  end.

(** [value] is what follows an occurrence of [key] in [s] up to the end of
    the line, and is not empty. *)
Definition restOfLine (key value s : string) : Prop :=
  exists before after,
    s = before ++ key ++ value ++ after
    /\ value <> EmptyString
    /\ Xcode.anyChar isLineTerminator value = false
    /\ match after with
       | EmptyString => True
       | String c _ => isLineTerminator c = true
       end.

(** The tokens that are not empty. *)
Definition nonEmptyTokens (command : list string) : list string :=
  filter (fun t => negb (isEmpty t)) command.

(** The first token that is not empty, the word [sh] takes for the command,
    is not a reserved word. *)
Definition namesCommand (command : list string) : Prop :=
  match nonEmptyTokens command with
  | t :: _ => existsb (String.eqb t) Shell.reservedWords = false
  | [] => True
  end.

(** The parameters with other simulator settings and another architecture. *)
Definition withTarget (params : Xcode.XcodeParams) (p : option XcodePlatform)
    (name id : option string) (latest : option bool) (arch : option string)
  : Xcode.XcodeParams :=
  Xcode.mkParams (Xcode.workspacePath params) (Xcode.projectPath params)
    (Xcode.scheme params) (Xcode.configuration params) (Xcode.derivedDataPath params)
    p (Xcode.destination params) name id latest arch (Xcode.extraArgs params).

(** The parameters with another project path. *)
Definition withProject (params : Xcode.XcodeParams) (project : option string)
  : Xcode.XcodeParams :=
  Xcode.mkParams (Xcode.workspacePath params) project
    (Xcode.scheme params) (Xcode.configuration params) (Xcode.derivedDataPath params)
    (Xcode.platform params) (Xcode.destination params) (Xcode.simulatorName params)
    (Xcode.simulatorId params) (Xcode.useLatestOS params) (Xcode.arch params)
    (Xcode.extraArgs params).

(** What the resolver returns or throws, its log lines apart. *)
Definition resolverResult (p : XcodePlatform) (name id : option string)
    (latest : option bool) (arch : option string) : Completion string :=
  snd (Xcode.constructDestinationString p name id latest arch).

End More.

Import Js Common Props.

(* ================================================================== *)
(** * The embedding on the examples of the specification *)

Example resolve_device_platforms :
  map (fun p => Xcode.constructDestinationString p None None None None)
    [iOS; watchOS; tvOS; visionOS]
  = [([], Return "generic/platform=iOS"); ([], Return "generic/platform=watchOS");
     ([], Return "generic/platform=tvOS"); ([], Return "generic/platform=visionOS")].
Proof. reflexivity. Qed.

Example resolve_macOS :
  Xcode.constructDestinationString macOS None None None (Some "arm64")
  = ([], Return "platform=macOS,arch=arm64")
  /\ Xcode.constructDestinationString macOS None None None None
     = ([], Return "platform=macOS").
Proof. split; reflexivity. Qed.

Example build_command :
  BuildUtils.executeXcodeBuild
    (Xcode.mkEnv (fun _ => 0) None (Xcode.Exits [] (Some 0)))
    (BuildUtils.mkShared None (Some "My App.xcodeproj") "My App" "Debug" None None)
    (BuildUtils.mkOptions macOS None None None (Some "arm64") "macOS Build")
    "build"
  = ([Log "info" "Starting macOS Build build for scheme My App";
      Log "info"
        ("Executing macOS Build command: xcodebuild -project "
           ++ quoted "My App.xcodeproj" ++ " -scheme " ++ quoted "My App"
           ++ " -configuration Debug -destination "
           ++ quoted "platform=macOS,arch=arm64" ++ " build");
      Log "debug"
        ("DEBUG - Raw command array: "
           ++ jsonStringify ["xcodebuild"; "-project"; "My App.xcodeproj"; "-scheme";
                             "My App"; "-configuration"; "Debug"; "-destination";
                             "platform=macOS,arch=arm64"; "build"]);
      Log "info" "Using standard execution method";
      Spawn "sh"
        ["-c";
         "xcodebuild -project " ++ quoted "My App.xcodeproj" ++ " -scheme "
           ++ quoted "My App" ++ " -configuration Debug -destination "
           ++ quoted "platform=macOS,arch=arm64" ++ " build"];
      Log "info" "macOS Build process completed with exit code: 0";
      Log "info" "macOS Build operation successful"],
     BuildUtils.Executed
       (Some (Xcode.mkResponse true "macOS Build operation completed successfully" None))).
Proof. vm_compute. reflexivity. Qed.

Example file_count_pattern :
  matchFileCount "Compiling 12 of 345 files" = Some ("12", "345")
  /\ matchFileCount "12 of 345 file" = None
  /\ Xcode.fileCountEstimate (parseInt "12") (parseInt "345") = Double.Finite 3.
Proof. repeat split. Qed.

(** The arithmetic is the one of doubles: 7 / 10 is a little less than seven
    tenths and its product with 90 a little less than 63; 29 / 100 times 100
    is a little less than 29; a third of 3 is 1.  An integer of more than 53
    bits is rounded, one beyond the largest double is an infinity, and the
    quotient of two infinities is NaN. *)
Example double_arithmetic :
  Xcode.fileCountEstimate (parseInt "7") (parseInt "10") = Double.Finite 62
  /\ floorRatio (Double.Finite 29) (Double.Finite 100) (Double.Finite 100)
     = Double.Finite 28
  /\ floorRatio (Double.Finite 1) (Double.Finite 3) (Double.Finite 3) = Double.Finite 1
  /\ parseInt "9007199254740993" = Double.Finite 9007199254740992
  /\ parseInt (String "2" (Double.zeros 308)) = Double.Infinity false
  /\ Xcode.fileCountEstimate (Double.Infinity false) (Double.Infinity false) = Double.NaN.
Proof. vm_compute. repeat split. Qed.

Example number_printing :
  map Double.toString
    [Double.Finite 12; parseInt "18446744073709551616";
     parseInt "123456789012345678901234"; Double.Finite (1 # 8);
     Double.Infinity false; Double.NaN]
  = ["12"; "18446744073709552000"; "1.2345678901234569e+23"; "0.125"; "Infinity"; "NaN"].
Proof. vm_compute. reflexivity. Qed.

(** The clock advances by a second at every reading: the update for the
    first line comes too early after the update of the phase and is not
    sent; the update for the second line is sent. *)
Example throttled_updates :
  progressUpdates
    (Xcode.events
       (Xcode.executeXcodeCommand
          (Xcode.mkEnv (fun n => 1000 * Z.of_nat n) None
             (Xcode.Exits
                [Xcode.OnStdout ("CompileC a.c" ++ String LF "CompileC b.c");
                 Xcode.OnStderr "warning: unused"]
                (Some 65)))
          ["ls"] "Build" true))
  = [mkUpdate running (Double.Finite 0) "Starting Build..." None;
     mkUpdate running (Double.Finite 0) "CompileC phase..." (Some "Phase: CompileC");
     mkUpdate running (Double.Finite 0) "Processing: CompileC b.c..." (Some "Phase: CompileC");
     mkUpdate running (Double.Finite 0) "Warning: warning: unused..." (Some "Phase: CompileC");
     mkUpdate failed (Double.Finite 0) "Build failed with exit code 65" (Some "warning: unused")].
Proof. vm_compute. reflexivity. Qed.

(* ================================================================== *)
(** * The destination resolver *)

Lemma truthy_Some (s : string) : s <> EmptyString -> truthy (Some s) = true.
Proof. destruct s; [congruence | reflexivity]. Qed.

Lemma append_empty_r (s : string) : s ++ EmptyString = s.
Proof. induction s as [|c s IH]; simpl; [reflexivity | now rewrite IH]. Qed.

Lemma isSimulatorPlatform_In (p : XcodePlatform) :
  In p Xcode.simulatorPlatforms -> Xcode.isSimulatorPlatform p = true.
Proof.
  unfold Xcode.simulatorPlatforms; simpl.
  intros [<- | [<- | [<- | [<- | []]]]]; reflexivity.
Qed.

(** C3. For every simulator platform, a destination resolved with a simulator
    identifier supplied (a non-empty string) is exactly
    [platform=<P>,id=<ID>], whatever simulator name, OS flag and architecture
    come with it; [executeXcodeBuild] computes the same destination from its
    options. *)
Theorem destination_identifier_takes_precedence
    (p : XcodePlatform) (name : option string) (id : string)
    (useLatest : option bool) (arch : option string) (logPrefix : string) :
  In p Xcode.simulatorPlatforms ->
  id <> EmptyString ->
  Xcode.constructDestinationString p name (Some id) useLatest arch
    = ([], Return ("platform=" ++ platformString p ++ ",id=" ++ id))
  /\ BuildUtils.buildDestination
       (BuildUtils.mkOptions p name (Some id) useLatest arch logPrefix)
     = ([], Return (inl ("platform=" ++ platformString p ++ ",id=" ++ id))).
Proof.
  intros Hp Hid.
  apply isSimulatorPlatform_In in Hp.
  apply truthy_Some in Hid.
  unfold BuildUtils.buildDestination, Xcode.constructDestinationString.
  cbn [BuildUtils.platform BuildUtils.simulatorId].
  rewrite Hp, Hid; simpl.
  split; reflexivity.
Qed.

Lemma destination_identifier_takes_precedence_witness :
  Xcode.constructDestinationString iOSSimulator (Some "iPhone 16") (Some "ABC-123")
    None None
  = ([], Return "platform=iOS Simulator,id=ABC-123").
Proof.
  refine (proj1 (destination_identifier_takes_precedence iOSSimulator
                   (Some "iPhone 16") "ABC-123" None None "Build" _ _)).
  - simpl; auto.
  - discriminate.
Defined.

(** C4. For every simulator platform, a destination resolved with a simulator
    name supplied (a non-empty string) and no identifier is exactly
    [platform=<P>,name=<NAME>,OS=latest] when [useLatestOS] is true or
    omitted, and exactly [platform=<P>,name=<NAME>] when it is false. *)
Theorem destination_name_and_latest_os
    (p : XcodePlatform) (name : string) (id arch : option string) :
  In p Xcode.simulatorPlatforms ->
  name <> EmptyString ->
  truthy id = false ->
  Xcode.constructDestinationString p (Some name) id (Some true) arch
    = ([], Return ("platform=" ++ platformString p ++ ",name=" ++ name ++ ",OS=latest"))
  /\ Xcode.constructDestinationString p (Some name) id None arch
    = ([], Return ("platform=" ++ platformString p ++ ",name=" ++ name ++ ",OS=latest"))
  /\ Xcode.constructDestinationString p (Some name) id (Some false) arch
    = ([], Return ("platform=" ++ platformString p ++ ",name=" ++ name)).
Proof.
  intros Hp Hname Hid.
  apply isSimulatorPlatform_In in Hp.
  apply truthy_Some in Hname.
  unfold Xcode.constructDestinationString.
  rewrite Hp, Hid, Hname; simpl.
  repeat split.
  now rewrite append_empty_r.
Qed.

Lemma destination_name_and_latest_os_witness :
  Xcode.constructDestinationString iOSSimulator (Some "iPhone 16") None None None
    = ([], Return "platform=iOS Simulator,name=iPhone 16,OS=latest")
  /\ Xcode.constructDestinationString iOSSimulator (Some "iPhone 16") None (Some false) None
    = ([], Return "platform=iOS Simulator,name=iPhone 16").
Proof.
  assert (Hp : In iOSSimulator Xcode.simulatorPlatforms) by (simpl; auto).
  assert (Hn : "iPhone 16" <> EmptyString) by discriminate.
  destruct (destination_name_and_latest_os iOSSimulator "iPhone 16" None None
              Hp Hn eq_refl) as (_ & H1 & H2).
  split; [exact H1 | exact H2].
Defined.

(** C5. For every simulator platform, resolving a destination with neither a
    simulator identifier nor a simulator name supplied throws the error
    [Simulator name or ID is required ...] after one log line, and spawns no
    child process; [executeXcodeBuild], given such options, returns an error
    response at once and spawns no child process either, whatever the
    environment. *)
Theorem destination_needs_name_or_id
    (p : XcodePlatform) (name id : option string)
    (useLatest : option bool) (arch : option string) :
  In p Xcode.simulatorPlatforms ->
  truthy name = false ->
  truthy id = false ->
  (exists logs,
      Xcode.constructDestinationString p name id useLatest arch
      = (logs, Throw ("Simulator name or ID is required for specific "
                        ++ platformString p ++ " operations"))
      /\ spawnCount logs = 0%nat)
  /\ (forall env params logPrefix buildAction,
        exists logs,
          BuildUtils.executeXcodeBuild env params
            (BuildUtils.mkOptions p name id useLatest arch logPrefix) buildAction
          = (logs,
             BuildUtils.Responded
               ("For " ++ platformString p
                  ++ " platform, either simulatorId or simulatorName must be provided")
               true)
          /\ spawnCount logs = 0%nat).
Proof.
  intros Hp Hname Hid.
  apply isSimulatorPlatform_In in Hp.
  split.
  - unfold Xcode.constructDestinationString.
    rewrite Hp, Hid, Hname; simpl.
    eexists; split; reflexivity.
  - intros env params logPrefix buildAction.
    unfold BuildUtils.executeXcodeBuild, BuildUtils.buildDestination.
    cbn [BuildUtils.platform BuildUtils.simulatorId BuildUtils.simulatorName].
    rewrite Hp, Hid, Hname.
    eexists; split; reflexivity.
Qed.

Lemma destination_needs_name_or_id_witness :
  exists logs,
    Xcode.constructDestinationString iOSSimulator None None None None
    = (logs, Throw "Simulator name or ID is required for specific iOS Simulator operations")
    /\ spawnCount logs = 0%nat.
Proof.
  refine (proj1 (destination_needs_name_or_id iOSSimulator None None None None _ _ _)).
  - simpl; auto.
  - reflexivity.
  - reflexivity.
Defined.

(* ================================================================== *)
(** * The quoting of the arguments *)

Lemma anyChar_app (p : ascii -> bool) (a b : string) :
  Xcode.anyChar p (a ++ b) = Xcode.anyChar p a || Xcode.anyChar p b.
Proof.
  induction a as [|c a IH]; simpl; [reflexivity|].
  now rewrite IH, orb_assoc.
Qed.

Lemma anyChar_hasChar (p : ascii -> bool) (t : string) :
  Xcode.anyChar p t = true <-> hasChar p t.
Proof.
  split.
  - induction t as [|c t IH]; simpl; [discriminate|].
    destruct (p c) eqn:Hc; simpl.
    + intros _. exists EmptyString, c, t. auto.
    + intros H. destruct (IH H) as (a & d & b & -> & Hd).
      exists (String c a), d, b. auto.
  - intros (a & c & b & -> & Hc).
    rewrite anyChar_app; simpl. rewrite Hc.
    now rewrite orb_true_r.
Qed.

Lemma anyChar_false (p : ascii -> bool) (t : string) :
  ~ hasChar p t -> Xcode.anyChar p t = false.
Proof.
  intros H. destruct (Xcode.anyChar p t) eqn:E; [|reflexivity].
  now apply anyChar_hasChar in E.
Qed.

Lemma restThenQuote_iff (s : string) :
  Xcode.restThenQuote s = true <->
  exists inner, s = inner ++ String dquote EmptyString
                /\ Xcode.anyChar isLineTerminator inner = false.
Proof.
  induction s as [|c s IH]; simpl.
  - split; [discriminate|]. intros ([|? ?] & H & _); discriminate.
  - destruct s as [|d s]; simpl isEmpty; cbv iota.
    + split.
      * intros H. apply Ascii.eqb_eq in H. subst c.
        exists EmptyString. auto.
      * intros ([|a [|? ?]] & H & _); simpl in H; inversion H.
        apply Ascii.eqb_refl.
    + rewrite andb_true_iff, IH, negb_true_iff. split.
      * intros (Hc & inner & Hs & Hin).
        exists (String c inner). simpl. rewrite Hs, Hc, Hin. auto.
      * intros ([|a inner] & H & Hin); simpl in H; inversion H; subst.
        simpl in Hin. apply orb_false_iff in Hin as [Ha Hin].
        split; [assumption|]. exists inner. auto.
Qed.

Lemma alreadyQuoted_iff (t : string) :
  Xcode.alreadyQuoted t = true <-> wrappedInQuotes t /\ singleLine t.
Proof.
  unfold wrappedInQuotes, singleLine. split.
  - destruct t as [|c t]; simpl; [discriminate|].
    rewrite andb_true_iff, restThenQuote_iff.
    intros (Hc & inner & -> & Hin). apply Ascii.eqb_eq in Hc. subst c.
    split; [now exists inner|].
    intros H. apply anyChar_hasChar in H. simpl in H.
    rewrite anyChar_app, Hin in H. discriminate.
  - intros ((inner & ->) & Hline). apply anyChar_false in Hline.
    simpl in *. apply restThenQuote_iff. exists inner. split; [reflexivity|].
    rewrite anyChar_app in Hline. now apply orb_false_iff in Hline as [? _].
Qed.

Lemma escapeQuotes_singleLine (t : string) :
  Xcode.anyChar isLineTerminator (Xcode.escapeQuotes t)
  = Xcode.anyChar isLineTerminator t.
Proof.
  induction t as [|c t IH]; simpl; [reflexivity|].
  destruct (Ascii.eqb c dquote || Ascii.eqb c backslash); simpl; now rewrite IH.
Qed.

Lemma readQuoted_escapeQuotes (t : string) :
  Xcode.anyChar Sh.breaksLiteral t = false ->
  Sh.readQuoted (Xcode.escapeQuotes t ++ String dquote EmptyString) = Some t.
Proof.
  induction t as [|c t IH]; simpl; [reflexivity|].
  intros H. apply orb_false_iff in H as [Hc Ht]. specialize (IH Ht).
  destruct (Ascii.eqb c dquote) eqn:Hq; simpl.
  - apply Ascii.eqb_eq in Hq. subst c. simpl. now rewrite IH.
  - destruct (Ascii.eqb c backslash) eqn:Hb; simpl.
    + apply Ascii.eqb_eq in Hb. subst c. simpl. now rewrite IH.
    + rewrite Hq, Hc, Hb, IH. reflexivity.
Qed.

Lemma escapeArg_quoted (t : string) :
  hasSpecial t -> ~ (wrappedInQuotes t /\ singleLine t) -> Xcode.escapeArg t = quoted t.
Proof.
  intros Hs Hw. unfold Xcode.escapeArg, Xcode.needsQuoting.
  apply anyChar_hasChar in Hs. rewrite Hs.
  destruct (Xcode.alreadyQuoted t) eqn:E; [|reflexivity].
  apply alreadyQuoted_iff in E. contradiction.
Qed.

Lemma escapeArg_wrapped (t : string) :
  wrappedInQuotes t -> singleLine t -> Xcode.escapeArg t = t.
Proof.
  intros Hw Hline. unfold Xcode.escapeArg.
  replace (Xcode.alreadyQuoted t) with true
    by (symmetry; apply alreadyQuoted_iff; auto).
  now rewrite andb_false_r.
Qed.

Lemma escapeArg_plain (t : string) : ~ hasSpecial t -> Xcode.escapeArg t = t.
Proof.
  intros Hs. unfold Xcode.escapeArg, Xcode.needsQuoting.
  now rewrite (anyChar_false _ _ Hs).
Qed.

Lemma escapeArg_cases (t : string) :
  Xcode.escapeArg t = t \/ Xcode.escapeArg t = quoted t.
Proof.
  unfold Xcode.escapeArg.
  destruct (Xcode.needsQuoting t && negb (Xcode.alreadyQuoted t)); auto.
Qed.

Lemma length_append (a b : string) :
  String.length (a ++ b) = (String.length a + String.length b)%nat.
Proof. induction a as [|x a IH]; cbn [append String.length]; [reflexivity | now rewrite IH]. Qed.

Lemma escapeQuotes_length (t : string) :
  (String.length t <= String.length (Xcode.escapeQuotes t))%nat.
Proof.
  induction t as [|c t IH]; cbn [Xcode.escapeQuotes String.length]; [lia|].
  destruct (_ || _); cbn [String.length]; lia.
Qed.

(** The wrapped token is longer than the token. *)
Lemma quoted_differs (t : string) : quoted t <> t.
Proof.
  intros E. apply (f_equal String.length) in E. unfold quoted in E.
  cbn [String.length] in E. rewrite length_append in E. cbn [String.length] in E.
  pose proof (escapeQuotes_length t). lia.
Qed.

Lemma lineTerminator_special (t : string) : hasChar isLineTerminator t -> hasSpecial t.
Proof.
  intros (a & c & b & E & Hc). exists a, c, b. split; [exact E|].
  unfold isLineTerminator in Hc. unfold Xcode.isSpecial.
  apply orb_true_iff in Hc as [Hc | Hc]; apply Ascii.eqb_eq in Hc; subst c; reflexivity.
Qed.

Lemma quoted_singleLine (t : string) : singleLine (quoted t) <-> singleLine t.
Proof.
  unfold singleLine. rewrite <- !anyChar_hasChar. unfold quoted.
  cbn [Xcode.anyChar]. rewrite anyChar_app, escapeQuotes_singleLine.
  cbn [Xcode.anyChar]. change (isLineTerminator dquote) with false.
  cbn [orb]. now rewrite orb_false_r.
Qed.

Lemma quoted_special (t : string) : hasSpecial (quoted t).
Proof.
  exists EmptyString, dquote, (Xcode.escapeQuotes t ++ String dquote EmptyString).
  split; reflexivity.
Qed.

(** A token with a line terminator is wrapped, and wrapped again when it is
    quoted again. *)
Lemma escapeArg_of_lines (t : string) :
  hasChar isLineTerminator t ->
  Xcode.escapeArg t = quoted t /\ Xcode.escapeArg (quoted t) = quoted (quoted t).
Proof.
  intros Hl. split.
  - apply escapeArg_quoted; [now apply lineTerminator_special|].
    intros [_ Hs]. now apply Hs.
  - apply escapeArg_quoted; [apply quoted_special|].
    intros [_ Hs]. apply (proj1 (quoted_singleLine t)) in Hs. now apply Hs.
Qed.

(** C6, as amended. A token that begins and ends with a double quote is left
    unchanged exactly when there is no line terminator in it; any other
    token with white space, a comma, a quote character or an equals sign, and
    also a token in double quotes with a line terminator in it, is wrapped in
    double quotes, a backslash put before each double quote and backslash of
    it, and when it has no dollar sign, no backquote and no NUL character the
    shell reads the word back as the token itself; a token with none of the
    special characters is passed through unchanged; and quoting a quoted
    token changes nothing exactly when the token has no line terminator. *)
Theorem quoting_of_tokens (t : string) :
  (wrappedInQuotes t -> (Xcode.escapeArg t = t <-> singleLine t))
  /\ (hasSpecial t -> ~ (wrappedInQuotes t /\ singleLine t) ->
      Xcode.escapeArg t = quoted t
      /\ (Xcode.anyChar Sh.breaksLiteral t = false ->
          Sh.readWord (Xcode.escapeArg t) = Some t))
  /\ (~ hasSpecial t -> Xcode.escapeArg t = t)
  /\ (Xcode.escapeArg (Xcode.escapeArg t) = Xcode.escapeArg t <-> singleLine t).
Proof.
  split; [|split; [|split]].
  - intros Hw. split; [|now apply escapeArg_wrapped].
    intros E Hl. apply escapeArg_of_lines in Hl as [E' _].
    rewrite E in E'. symmetry in E'. now apply quoted_differs in E'.
  - intros Hs Hw. pose proof (escapeArg_quoted t Hs Hw) as E.
    split; [exact E|]. intros Hlit. rewrite E. simpl.
    now apply readQuoted_escapeQuotes.
  - apply escapeArg_plain.
  - split.
    + intros E Hl. apply escapeArg_of_lines in Hl as [E1 E2].
      rewrite E1, E2 in E. now apply quoted_differs in E.
    + intros Hline. destruct (escapeArg_cases t) as [E | E]; rewrite E; [exact E|].
      apply escapeArg_wrapped; [now eexists | now apply (proj2 (quoted_singleLine t))].
Qed.

Lemma quoting_of_tokens_witness :
  Xcode.escapeArg "My App" = quoted "My App"
  /\ Sh.readWord (Xcode.escapeArg "My App") = Some "My App".
Proof.
  destruct (quoting_of_tokens "My App") as (_ & H & _).
  destruct H as [E Hread].
  - exists "My", " "%char, "App". split; reflexivity.
  - intros [(inner & E) _]. discriminate E.
  - split; [exact E | apply Hread; reflexivity].
Defined.

(** C6, as stated, fails.  A token wrapped in double quotes that holds a
    newline is quoted again; a token with a newline is quoted a second time
    when quoted twice; and a token with a backquote is wrapped into a word
    the shell does not read as a literal. *)
Lemma quoting_claim_fails :
  ~ quotingClaim (String dquote ("a" ++ String LF ("b" ++ String dquote EmptyString)))
  /\ ~ quotingClaim ("a" ++ String LF "b")
  /\ ~ quotingClaim "a `".
Proof.
  repeat split.
  - intros [(H & _) _].
    assert (Hw : wrappedInQuotes
                   (String dquote ("a" ++ String LF ("b" ++ String dquote EmptyString))))
      by (exists ("a" ++ String LF "b"); reflexivity).
    specialize (H Hw). vm_compute in H. discriminate H.
  - intros [(_ & _ & _ & H) _]. vm_compute in H. discriminate H.
  - intros [_ H]. unfold singleToken in H.
    assert (Hw : ~ wrappedInQuotes "a `")
      by (intros (inner & E); vm_compute in E; discriminate E).
    assert (Hs : hasSpecial "a `")
      by (exists "a", " "%char, "`"; split; reflexivity).
    specialize (H Hw Hs). vm_compute in H. discriminate H.
Qed.

(* ================================================================== *)
(** * The listeners of [executeStandard] *)

Lemma progressUpdates_app (a b : list Event) :
  progressUpdates (a ++ b) = (progressUpdates a ++ progressUpdates b)%list.
Proof.
  induction a as [|e a IH]; simpl; [reflexivity|].
  destruct e; simpl; now rewrite IH.
Qed.

Lemma Chain_snoc {A : Type} (R : A -> A -> Prop) (l : list A) (x : A) :
  Chain R l ->
  (forall before a, l = (before ++ [a])%list -> R a x) ->
  Chain R (l ++ [x]).
Proof.
  induction 1 as [|a|a b l Hab Hl IH]; intros Hlast; simpl.
  - constructor.
  - constructor; [|constructor]. now apply (Hlast []).
  - constructor; [assumption|]. apply IH.
    intros before c E. apply (Hlast (a :: before)). simpl. now rewrite E.
Qed.

Section Listeners.

Variable now : nat -> Z.
Variable progressCallback : bool.

(** A property of the state kept by every step of the listeners of the two
    output streams is kept by the listeners. *)
Variable Inv : Xcode.State -> Prop.

Hypothesis Inv_transition : forall phase st,
  In phase Xcode.buildPhases -> Inv st ->
  Inv (Xcode.phaseTransition now progressCallback phase st).
Hypothesis Inv_count : forall st, Inv st -> Inv (Xcode.countCompiledFile st).
Hypothesis Inv_send : forall message forceSend st,
  Inv st -> Inv (Xcode.sendProgressUpdate now progressCallback message forceSend st).
Hypothesis Inv_files : forall line group1 group2 st,
  matchFileCount line = Some (group1, group2) -> Inv st ->
  Inv (Xcode.fileCountSeen now progressCallback group1 group2 st).

Lemma Inv_phaseSeen (phase line : string) (st : Xcode.State) :
  In phase Xcode.buildPhases -> Inv st ->
  Inv (Xcode.phaseSeen now progressCallback phase line st).
Proof.
  intros Hin H. unfold Xcode.phaseSeen.
  apply Inv_send.
  destruct (String.eqb phase "CompileC" || String.eqb phase "CompileSwift");
    [apply Inv_count|];
    (destruct (negb (String.eqb (Xcode.currentPhase st) phase));
     [now apply Inv_transition | assumption]).
Qed.

Lemma Inv_detectPhase (phases : list string) (line : string) (st : Xcode.State) :
  incl phases Xcode.buildPhases -> Inv st ->
  Inv (Xcode.detectPhase now progressCallback phases line st).
Proof.
  induction phases as [|phase phases IH]; simpl; intros Hincl H; [assumption|].
  destruct (includes line phase).
  - apply Inv_phaseSeen; [apply Hincl; now left | assumption].
  - apply IH; [|assumption]. intros x Hx. apply Hincl. now right.
Qed.

Lemma Inv_processLine (line : string) (st : Xcode.State) :
  Inv st -> Inv (Xcode.processLine now progressCallback st line).
Proof.
  intros H. unfold Xcode.processLine, Xcode.detectFileCount.
  pose proof (Inv_detectPhase Xcode.buildPhases line st (incl_refl _) H) as H'.
  destruct (matchFileCount line) as [[group1 group2]|] eqn:E; [|assumption].
  now apply (Inv_files line).
Qed.

Lemma Inv_lines (lines : list string) (st : Xcode.State) :
  Inv st -> Inv (fold_left (Xcode.processLine now progressCallback) lines st).
Proof.
  revert st. induction lines as [|line lines IH]; simpl; intros st H; [assumption|].
  apply IH. now apply Inv_processLine.
Qed.

Hypothesis Inv_stdout : forall text st, Inv st -> Inv (Xcode.set_stdout text st).
Hypothesis Inv_stderr : forall text st, Inv st -> Inv (Xcode.set_stderr text st).
Hypothesis Inv_log : forall level text st,
  Inv st -> Inv (Xcode.emit (Log level text) st).

Lemma Inv_if (c : bool) (st1 st2 : Xcode.State) :
  Inv st1 -> Inv st2 -> Inv (if c then st1 else st2).
Proof. now destruct c. Qed.

Lemma Inv_onStdout (chunk : string) (st : Xcode.State) :
  Inv st -> Inv (Xcode.onStdout now progressCallback chunk st).
Proof.
  intros H. unfold Xcode.onStdout.
  apply Inv_if; [apply Inv_lines|]; now apply Inv_stdout.
Qed.

Lemma Inv_onStderr (chunk : string) (st : Xcode.State) :
  Inv st -> Inv (Xcode.onStderr now progressCallback chunk st).
Proof.
  intros H. unfold Xcode.onStderr.
  apply Inv_if; [apply Inv_send|]; apply Inv_log; now apply Inv_stderr.
Qed.

Lemma Inv_output (logPrefix : string) (chunks : list Xcode.OutputChunk)
    (st : Xcode.State) :
  Inv st ->
  Inv (fold_left (Xcode.handle now logPrefix progressCallback)
         (map Xcode.chunkEvent chunks) st).
Proof.
  revert st. induction chunks as [|c chunks IH]; simpl; intros st H; [assumption|].
  apply IH. destruct c; simpl; [now apply Inv_onStdout | now apply Inv_onStderr].
Qed.

End Listeners.

(** ** The captured output and the result *)

Lemma append_assoc (a b c : string) : (a ++ b) ++ c = a ++ (b ++ c).
Proof. induction a as [|x a IH]; simpl; [reflexivity | now rewrite IH]. Qed.

Lemma keeps_send now cb out err r message forceSend st :
  keeps out err r st ->
  keeps out err r (Xcode.sendProgressUpdate now cb message forceSend st).
Proof.
  unfold Xcode.sendProgressUpdate, keeps.
  destruct (cb && _); simpl; auto.
Qed.

Lemma keeps_lines now cb out err r lines st :
  keeps out err r st ->
  keeps out err r (fold_left (Xcode.processLine now cb) lines st).
Proof.
  apply Inv_lines.
  - intros phase st0 _ H. unfold Xcode.phaseTransition. now apply keeps_send.
  - intros st0 H. unfold Xcode.countCompiledFile.
    destruct (Double.gtb _ _); exact H.
  - intros. now apply keeps_send.
  - intros _ g1 g2 st0 _ H. unfold Xcode.fileCountSeen.
    destruct (Double.gtb _ _); [apply keeps_send|]; exact H.
Qed.

Lemma output_captured now logPrefix cb chunks st :
  keeps (Xcode.stdout st ++ outText chunks) (Xcode.stderr st ++ errText chunks)
    (Xcode.resolved st)
    (fold_left (Xcode.handle now logPrefix cb) (map Xcode.chunkEvent chunks) st).
Proof.
  revert st. induction chunks as [|c chunks IH]; intros st; simpl.
  - unfold keeps. now rewrite !append_empty_r.
  - destruct c as [chunk | chunk]; simpl.
    + assert (H : keeps (Xcode.stdout st ++ chunk) (Xcode.stderr st) (Xcode.resolved st)
                    (Xcode.onStdout now cb chunk st)).
      { unfold Xcode.onStdout. destruct cb; [apply keeps_lines|]; repeat split. }
      destruct H as (H1 & H2 & H3).
      specialize (IH (Xcode.onStdout now cb chunk st)).
      now rewrite H1, H2, H3, append_assoc in IH.
    + assert (H : keeps (Xcode.stdout st) (Xcode.stderr st ++ chunk) (Xcode.resolved st)
                    (Xcode.onStderr now cb chunk st)).
      { unfold Xcode.onStderr. destruct cb; [apply keeps_send|]; repeat split. }
      destruct H as (H1 & H2 & H3).
      specialize (IH (Xcode.onStderr now cb chunk st)).
      now rewrite H1, H2, H3, append_assoc in IH.
Qed.

Lemma fold_left_snoc {A B : Type} (f : A -> B -> A) (l : list B) (x : B) (a : A) :
  fold_left f (l ++ [x]) a = f (fold_left f l a) x.
Proof. now rewrite fold_left_app. Qed.

Lemma isExitZero_iff (exitCode : option Z) :
  Xcode.isExitZero exitCode = true <-> exitCode = Some 0.
Proof.
  destruct exitCode as [n|]; simpl; [|split; discriminate].
  rewrite Z.eqb_eq. split; congruence.
Qed.

Lemma orElse_not_empty (s d : string) : d <> EmptyString -> orElse s d <> EmptyString.
Proof. unfold orElse. destruct s; simpl; [auto | discriminate]. Qed.

(** The result of [executeStandard] when the child runs to its exit. *)
Lemma result_on_exit now logPrefix cb before commandString chunks exitCode :
  Xcode.result
    (Xcode.executeStandard now logPrefix cb before commandString
       (Xcode.Exits chunks exitCode))
  = Some (if Xcode.isExitZero exitCode
          then Xcode.mkResponse true
                 (orElse (outText chunks)
                    (logPrefix ++ " operation completed successfully"))
                 None
          else Xcode.mkResponse false (outText chunks)
                 (Some (orElse (errText chunks)
                          ("Operation failed with exit code "
                             ++ Xcode.showExitCode exitCode
                             ++ ". No stderr output.")))).
Proof.
  unfold Xcode.executeStandard, Xcode.runStandard, Xcode.processEvents.
  rewrite fold_left_snoc. cbn [Xcode.result Xcode.handle].
  match goal with
  | |- context [fold_left ?f (map Xcode.chunkEvent chunks) ?st0] =>
      destruct (output_captured now logPrefix cb chunks st0)
        as (Hout & Herr & Hres);
      set (st := fold_left f (map Xcode.chunkEvent chunks) st0) in *
  end.
  simpl in Hout, Herr, Hres.
  unfold Xcode.onClose.
  destruct (Xcode.isExitZero exitCode), cb; simpl; now rewrite Hres, Hout, ?Herr.
Qed.

(** C2. A command run by [executeStandard] whose child process runs to its
    exit: with exit code 0 the result has [success = true] and as output the
    captured standard output, or a generic message when that is empty; with
    any other exit code the result has [success = false], as error the
    captured standard error, or a generic message that names the exit code
    when that is empty (an error that is never empty), and as output the
    captured standard output. *)
Theorem exit_code_decides_result
    (now : nat -> Z) (logPrefix : string) (progressCallback : bool)
    (before : list Event) (commandString : string)
    (chunks : list Xcode.OutputChunk) (exitCode : option Z) :
  let out := Xcode.executeStandard now logPrefix progressCallback before
               commandString (Xcode.Exits chunks exitCode) in
  (exitCode = Some 0 ->
   Xcode.result out
   = Some (Xcode.mkResponse true
             (orElse (outText chunks) (logPrefix ++ " operation completed successfully"))
             None))
  /\ (exitCode <> Some 0 ->
      exists message,
        message = orElse (errText chunks)
                    ("Operation failed with exit code " ++ Xcode.showExitCode exitCode
                       ++ ". No stderr output.")
        /\ message <> EmptyString
        /\ Xcode.result out
           = Some (Xcode.mkResponse false (outText chunks) (Some message))).
Proof.
  cbv zeta. rewrite result_on_exit. split.
  - intros ->. reflexivity.
  - intros Hcode.
    destruct (Xcode.isExitZero exitCode) eqn:E;
      [apply isExitZero_iff in E; contradiction|].
    eexists. split; [reflexivity|]. split; [|reflexivity].
    apply orElse_not_empty. discriminate.
Qed.

Lemma exit_code_decides_result_witness :
  exists message,
    message = "Operation failed with exit code 65. No stderr output."
    /\ message <> EmptyString
    /\ Xcode.result
         (Xcode.executeStandard (fun _ => 0) "Build" true [] "xcodebuild build"
            (Xcode.Exits [Xcode.OnStdout "Compiling"] (Some 65)))
       = Some (Xcode.mkResponse false "Compiling" (Some message)).
Proof.
  refine (proj2 (exit_code_decides_result (fun _ => 0) "Build" true [] "xcodebuild build"
                   [Xcode.OnStdout "Compiling"] (Some 65)) _).
  discriminate.
Defined.

(** ** What the listeners add to the effects *)

Lemma trace_send now cb message forceSend st :
  exists more,
    Xcode.trace (Xcode.sendProgressUpdate now cb message forceSend st)
    = (Xcode.trace st ++ more)%list.
Proof.
  unfold Xcode.sendProgressUpdate.
  destruct (cb && _); simpl; eexists; [reflexivity|].
  symmetry. apply app_nil_r.
Qed.

Lemma In_trace_send e now cb message forceSend st :
  In e (Xcode.trace st) ->
  In e (Xcode.trace (Xcode.sendProgressUpdate now cb message forceSend st)).
Proof.
  intros H. destruct (trace_send now cb message forceSend st) as (more & ->).
  apply in_or_app. now left.
Qed.

Lemma In_trace_output e now logPrefix cb chunks st :
  In e (Xcode.trace st) ->
  In e (Xcode.trace (fold_left (Xcode.handle now logPrefix cb)
                       (map Xcode.chunkEvent chunks) st)).
Proof.
  apply (Inv_output now cb (fun st => In e (Xcode.trace st))).
  - intros phase st0 _ H. unfold Xcode.phaseTransition. now apply In_trace_send.
  - intros st0 H. unfold Xcode.countCompiledFile. destruct (Double.gtb _ _); exact H.
  - intros. now apply In_trace_send.
  - intros _ g1 g2 st0 _ H. unfold Xcode.fileCountSeen.
    destruct (Double.gtb _ _); [apply In_trace_send|]; exact H.
  - intros text st0 H. exact H.
  - intros text st0 H. exact H.
  - intros level text st0 H. simpl. apply in_or_app. now left.
Qed.

Lemma In_trace_onClose e logPrefix cb exitCode st :
  In e (Xcode.trace st) -> In e (Xcode.trace (Xcode.onClose logPrefix cb exitCode st)).
Proof.
  intros H. unfold Xcode.onClose.
  destruct (Xcode.isExitZero exitCode), cb; simpl;
    repeat (apply in_or_app; left); exact H.
Qed.

Lemma In_trace_onError e logPrefix cb errMessage st :
  In e (Xcode.trace st) -> In e (Xcode.trace (Xcode.onError logPrefix cb errMessage st)).
Proof.
  intros H. unfold Xcode.onError.
  destruct cb; simpl; repeat (apply in_or_app; left); exact H.
Qed.

Lemma resolved_onClose logPrefix cb exitCode st :
  exists r, Xcode.resolved (Xcode.onClose logPrefix cb exitCode st) = Some r.
Proof.
  unfold Xcode.onClose.
  destruct (Xcode.isExitZero exitCode); cbn [Xcode.resolve Xcode.resolved];
    match goal with |- context [match ?x with _ => _ end] => destruct x end;
    eexists; reflexivity.
Qed.

(** ** The effects that only report *)

Lemma spawnCount_app (a b : list Event) :
  spawnCount (a ++ b) = (spawnCount a + spawnCount b)%nat.
Proof.
  induction a as [|e a IH]; simpl; [reflexivity|]. destruct e; simpl; now rewrite IH.
Qed.

Lemma xcprettyCalls_app (a b : list Event) :
  More.xcprettyCalls (a ++ b) = (More.xcprettyCalls a + More.xcprettyCalls b)%nat.
Proof.
  induction a as [|e a IH]; simpl; [reflexivity|]. destruct e; simpl; now rewrite IH.
Qed.

Lemma reports_count (more : list Event) :
  forallb More.isReport more = true ->
  spawnCount more = 0%nat /\ More.xcprettyCalls more = 0%nat
  /\ forall file args, ~ In (Spawn file args) more.
Proof.
  induction more as [|e more IH]; simpl; [intros _; repeat split; auto|].
  intros H. apply andb_true_iff in H as [He Hm]. destruct (IH Hm) as (H1 & H2 & H3).
  destruct e; simpl in He; try discriminate; repeat split; auto;
    intros file args [E | E]; try discriminate E; now apply (H3 file args).
Qed.

Lemma reportsSince_refl (start : list Event) (st : Xcode.State) :
  Xcode.trace st = start -> More.reportsSince start st.
Proof. intros <-. exists []. split; [now rewrite app_nil_r | reflexivity]. Qed.

Lemma reportsSince_emit start e st :
  More.isReport e = true ->
  More.reportsSince start st -> More.reportsSince start (Xcode.emit e st).
Proof.
  intros He (more & E & Hm). exists (more ++ [e])%list. split.
  - cbn [Xcode.emit Xcode.trace]. now rewrite E, app_assoc.
  - rewrite forallb_app, Hm. simpl. now rewrite He.
Qed.

Lemma reportsSince_send start now cb message forceSend st :
  More.reportsSince start st ->
  More.reportsSince start (Xcode.sendProgressUpdate now cb message forceSend st).
Proof.
  intros H. unfold Xcode.sendProgressUpdate.
  destruct (cb && _); [apply reportsSince_emit; [reflexivity|]|]; exact H.
Qed.

Lemma reportsSince_output start now logPrefix cb chunks st :
  More.reportsSince start st ->
  More.reportsSince start
    (fold_left (Xcode.handle now logPrefix cb) (map Xcode.chunkEvent chunks) st).
Proof.
  apply (Inv_output now cb (More.reportsSince start)).
  - intros phase st0 _ H. unfold Xcode.phaseTransition. now apply reportsSince_send.
  - intros st0 H. unfold Xcode.countCompiledFile. destruct (Double.gtb _ _); exact H.
  - intros. now apply reportsSince_send.
  - intros _ g1 g2 st0 _ H. unfold Xcode.fileCountSeen.
    destruct (Double.gtb _ _); [apply reportsSince_send|]; exact H.
  - intros text st0 H. exact H.
  - intros text st0 H. exact H.
  - intros level text st0 H. now apply reportsSince_emit.
Qed.

Lemma reportsSince_onClose start logPrefix cb exitCode st :
  More.reportsSince start st ->
  More.reportsSince start (Xcode.onClose logPrefix cb exitCode st).
Proof.
  intros H. unfold Xcode.onClose.
  destruct (Xcode.isExitZero exitCode), cb;
    repeat (first [ apply reportsSince_emit; [reflexivity|] | exact H ]).
Qed.

Lemma reportsSince_onError start logPrefix cb errMessage st :
  More.reportsSince start st ->
  More.reportsSince start (Xcode.onError logPrefix cb errMessage st).
Proof.
  intros H. unfold Xcode.onError.
  destruct cb; repeat (first [ apply reportsSince_emit; [reflexivity|] | exact H ]).
Qed.

(** After its [spawn], [executeStandard] only reports. *)
Lemma standard_execution_effects now logPrefix cb before commandString run :
  exists more,
    Xcode.events (Xcode.executeStandard now logPrefix cb before commandString run)
    = (before ++ Spawn "sh" ["-c"; commandString] :: more)%list
    /\ forallb More.isReport more = true.
Proof.
  unfold Xcode.executeStandard, Xcode.runStandard.
  assert (H0 : More.reportsSince (before ++ [Spawn "sh" ["-c"; commandString]])
                 (Xcode.initialState (before ++ [Spawn "sh" ["-c"; commandString]])))
    by now apply reportsSince_refl.
  assert (H : More.reportsSince (before ++ [Spawn "sh" ["-c"; commandString]])
                (fold_left (Xcode.handle now logPrefix cb) (Xcode.processEvents run)
                   (Xcode.initialState (before ++ [Spawn "sh" ["-c"; commandString]])))).
  { destruct run as [chunks exitCode | errMessage errno | errMessage];
      cbn [Xcode.processEvents].
    - rewrite fold_left_snoc. apply reportsSince_onClose. now apply reportsSince_output.
    - cbn [fold_left Xcode.handle]. apply reportsSince_onClose.
      now apply reportsSince_onError.
    - exact H0. }
  destruct H as (more & E & Hm).
  destruct run as [chunks exitCode | errMessage errno | errMessage]; cbn [Xcode.events].
  1, 2: exists more; split; [|exact Hm]; rewrite E, <- app_assoc; reflexivity.
  exists []. split; [reflexivity|]. reflexivity.
Qed.

(** [spawn] is called, whatever it and the child do afterwards. *)
Lemma standard_execution_spawns now logPrefix cb before commandString run :
  In (Spawn "sh" ["-c"; commandString])
     (Xcode.events (Xcode.executeStandard now logPrefix cb before commandString run)).
Proof.
  unfold Xcode.executeStandard, Xcode.runStandard.
  assert (H0 : In (Spawn "sh" ["-c"; commandString])
                 (Xcode.trace (Xcode.initialState
                                 (before ++ [Spawn "sh" ["-c"; commandString]])%list))).
  { simpl. apply in_or_app. right. now left. }
  destruct run as [chunks exitCode | errMessage errno | errMessage];
    cbn [Xcode.events]; simpl Xcode.processEvents.
  - rewrite fold_left_snoc. apply In_trace_onClose. now apply In_trace_output.
  - simpl fold_left. apply In_trace_onClose. now apply In_trace_onError.
  - exact H0.
Qed.

(** The promise of [executeStandard] is settled, whatever the child does:
    it resolves when [spawn] returns a child, and rejects when [spawn]
    throws. *)
Lemma standard_execution_settles now logPrefix cb before commandString run :
  let out := Xcode.executeStandard now logPrefix cb before commandString run in
  match run with
  | Xcode.SpawnThrows errMessage =>
      Xcode.result out = None /\ Xcode.rejected out = Some errMessage
  | _ => (exists r, Xcode.result out = Some r) /\ Xcode.rejected out = None
  end.
Proof.
  cbv zeta. unfold Xcode.executeStandard, Xcode.runStandard.
  destruct run as [chunks exitCode | errMessage errno | errMessage];
    cbn [Xcode.result Xcode.rejected]; simpl Xcode.processEvents;
    (split; [|reflexivity]).
  - rewrite fold_left_snoc. apply resolved_onClose.
  - simpl fold_left. apply resolved_onClose.
  - reflexivity.
Qed.

(* ================================================================== *)
(** * The result of an execution *)

(** The result of [executeStandard] when the child cannot be started: the
    [error] listener settles the promise, and sends the terminal update with
    an estimate of 0 when there is a callback. *)
Lemma result_on_spawn_failure now logPrefix cb before commandString errMessage errno :
  let out := Xcode.executeStandard now logPrefix cb before commandString
               (Xcode.FailsToStart errMessage errno) in
  Xcode.result out
  = Some (Xcode.mkResponse false EmptyString
            (Some ("Failed to start process: " ++ errMessage)))
  /\ (cb = true ->
      In (Progress (mkUpdate failed (Double.Finite 0)
                      ("Failed to start " ++ logPrefix ++ " process: " ++ errMessage)
                      None))
         (Xcode.events out)).
Proof.
  cbv zeta. unfold Xcode.executeStandard, Xcode.runStandard, Xcode.processEvents.
  cbn [fold_left Xcode.handle Xcode.result Xcode.events].
  split.
  - destruct cb; reflexivity.
  - intros ->. apply In_trace_onClose.
    unfold Xcode.onError. cbn [Xcode.trace Xcode.emit Xcode.resolve].
    apply in_or_app. right. now left.
Qed.

(** The test of [executeXcodeCommand] for xcpretty fails, whatever the
    command and whatever the helper would do. *)
Lemma useXcpretty_never env command : Xcode.useXcpretty env command = None.
Proof.
  unfold Xcode.useXcpretty. destruct command as [|first rest]; [reflexivity|].
  change (String.eqb Xcode.typeofXcpretty "function") with false.
  now rewrite andb_false_r.
Qed.


Lemma progressUpdates_snoc_log (evs : list Event) (level text : string) :
  progressUpdates (evs ++ [Log level text]) = progressUpdates evs.
Proof. rewrite progressUpdates_app. simpl. apply app_nil_r. Qed.

Lemma progressUpdates_snoc (evs : list Event) (u : ToolProgressUpdate) :
  progressUpdates (evs ++ [Progress u]) = (progressUpdates evs ++ [u])%list.
Proof. now rewrite progressUpdates_app. Qed.

(** C1, as amended. Every execution is run by the direct path: the xcpretty
    helper is never attempted.  When [spawn] returns a child, one result is
    returned and nothing is thrown; when the child cannot be started and
    Node says so with the [error] event, the result is a failure whose error
    describes the failure to start, and a callback receives a [failed]
    update with the estimate 0.  When [spawn] itself throws, no result is
    returned: the promise rejects with the error of [spawn], and a callback
    receives no terminal update. *)
Theorem result_unless_spawn_throws
    (env : Xcode.Env) (command : list string) (logPrefix : string)
    (progressCallback : bool) :
  let out := Xcode.executeXcodeCommand env command logPrefix progressCallback in
  Xcode.useXcpretty env command = None
  /\ match Xcode.child env with
     | Xcode.Exits _ _ => oneResult out
     | Xcode.FailsToStart errMessage _ =>
         Xcode.result out
         = Some (Xcode.mkResponse false EmptyString
                   (Some ("Failed to start process: " ++ errMessage)))
         /\ Xcode.rejected out = None
         /\ (progressCallback = true ->
             In (Progress
                   (mkUpdate failed (Double.Finite 0)
                      ("Failed to start " ++ logPrefix ++ " process: " ++ errMessage)
                      None))
                (Xcode.events out))
     | Xcode.SpawnThrows errMessage =>
         Xcode.result out = None
         /\ Xcode.rejected out = Some errMessage
         /\ Forall isRunning (progressUpdates (Xcode.events out))
     end.
Proof.
  cbv zeta. split; [apply useXcpretty_never|].
  unfold Xcode.executeXcodeCommand. rewrite useXcpretty_never.
  match goal with
  | |- context [Xcode.executeStandard ?n ?l ?c ?b ?cs (Xcode.child env)] =>
      pose proof (standard_execution_settles n l c b cs (Xcode.child env)) as Hs;
      pose proof (result_on_spawn_failure n l c b cs) as Hf
  end.
  cbv zeta in Hs, Hf.
  destruct (Xcode.child env) as [chunks exitCode | errMessage errno | errMessage].
  - exact Hs.
  - destruct (Hf errMessage errno) as [Hr Hu]. destruct Hs as [_ Hrej]. auto.
  - destruct Hs as [Hr Hrej]. repeat split; try assumption.
    unfold Xcode.executeStandard. cbn [Xcode.events].
    rewrite !progressUpdates_app.
    destruct progressCallback; cbn [progressUpdates app]; repeat constructor.
Qed.

(** C1, as stated, fails: when [spawn] throws, as it does when the command
    string and the environment are together longer than the system takes
    (E2BIG), the promise of the execution rejects; the error is thrown to the
    caller and no result is returned. *)
Lemma spawn_error_reaches_the_caller :
  ~ oneResult
      (Xcode.executeXcodeCommand
         (Xcode.mkEnv (fun _ => 0) None (Xcode.SpawnThrows "spawn E2BIG"))
         ["xcodebuild"; "build"] "Build" true).
Proof. intros [[r Hr] _]. discriminate Hr. Qed.



(* ================================================================== *)
(** * [addXcodeParameters] and an invalid target *)

Lemma addXcodeParameters_tokens command params logPrefix :
  fst (Xcode.addXcodeParameters command params logPrefix)
  = (command
       ++ fst (Xcode.pathParameters params logPrefix)
       ++ fst (Xcode.flagParameter "-scheme" "scheme" (Xcode.scheme params) logPrefix)
       ++ fst (Xcode.flagParameter "-configuration" "configuration"
                 (Xcode.configuration params) logPrefix)
       ++ fst (Xcode.flagParameter "-derivedDataPath" "derived data path"
                 (Xcode.derivedDataPath params) logPrefix)
       ++ fst (Xcode.destinationParameters params logPrefix)
       ++ fst (Xcode.extraParameters params logPrefix))%list.
Proof.
  unfold Xcode.addXcodeParameters.
  destruct (Xcode.pathParameters _ _), (Xcode.flagParameter "-scheme" _ _ _),
    (Xcode.flagParameter "-configuration" _ _ _),
    (Xcode.flagParameter "-derivedDataPath" _ _ _),
    (Xcode.destinationParameters _ _), (Xcode.extraParameters _ _).
  reflexivity.
Qed.

Lemma extraParameters_tokens params logPrefix :
  fst (Xcode.extraParameters params logPrefix) = extraTokens params.
Proof.
  unfold Xcode.extraParameters, extraTokens.
  destruct (Xcode.extraArgs params) as [[|a args]|]; reflexivity.
Qed.

(** C10. [addXcodeParameters] called with a platform and no explicit
    destination, the platform a simulator platform and neither simulator name
    nor simulator identifier given: the error of the resolver is logged and
    not thrown (the function returns the array), no [-destination] is pushed,
    the array is the one the same parameters without a platform give, it ends
    with the extra arguments, and [executeXcodeCommand] run on it with the
    standard method spawns the child. *)
Theorem addXcodeParameters_swallows_invalid_target
    (command : list string) (params : Xcode.XcodeParams) (logPrefix : string)
    (p : XcodePlatform) :
  truthy (Xcode.destination params) = false ->
  Xcode.platform params = Some p ->
  In p Xcode.simulatorPlatforms ->
  truthy (Xcode.simulatorName params) = false ->
  truthy (Xcode.simulatorId params) = false ->
  let tokens := fst (Xcode.addXcodeParameters command params logPrefix) in
  (exists logs,
      Xcode.destinationParameters params logPrefix = ([], logs)
      /\ In (Log "error"
               (logPrefix ++ ": Error constructing destination: "
                  ++ "Simulator name or ID is required for specific "
                  ++ platformString p ++ " operations")) logs)
  /\ tokens = fst (Xcode.addXcodeParameters command (withoutPlatform params) logPrefix)
  /\ (exists front, tokens = (command ++ front ++ extraTokens params)%list)
  /\ (forall env progressCallback,
        Xcode.xcpretty env = None ->
        In (Spawn "sh" ["-c"; join " " (map Xcode.escapeArg tokens)])
           (Xcode.events (Xcode.executeXcodeCommand env tokens logPrefix progressCallback))).
Proof.
  intros Hdest Hplat Hp Hname Hid tokens.
  apply isSimulatorPlatform_In in Hp.
  assert (Hd : Xcode.destinationParameters params logPrefix
               = ([],
                  [Log "warning"
                     ("Constructing generic destination for " ++ platformString p
                        ++ " without name or ID. This might not be specific enough.");
                   Log "error"
                     (logPrefix ++ ": Error constructing destination: "
                        ++ "Simulator name or ID is required for specific "
                        ++ platformString p ++ " operations");
                   Log "warning"
                     (logPrefix
                        ++ ": Proceeding without explicit -destination parameter due to error.")])).
  { unfold Xcode.destinationParameters, Xcode.constructDestinationString.
    rewrite Hdest, Hplat, Hp, Hid, Hname. reflexivity. }
  assert (Hd' : Xcode.destinationParameters (withoutPlatform params) logPrefix = ([], [])).
  { unfold Xcode.destinationParameters. cbn [withoutPlatform Xcode.destination Xcode.platform].
    now rewrite Hdest. }
  repeat split.
  - eexists. split; [exact Hd|]. simpl. auto.
  - subst tokens. rewrite !addXcodeParameters_tokens, Hd, Hd'. reflexivity.
  - subst tokens. rewrite addXcodeParameters_tokens, Hd, extraParameters_tokens.
    exists (fst (Xcode.pathParameters params logPrefix)
              ++ fst (Xcode.flagParameter "-scheme" "scheme" (Xcode.scheme params) logPrefix)
              ++ fst (Xcode.flagParameter "-configuration" "configuration"
                        (Xcode.configuration params) logPrefix)
              ++ fst (Xcode.flagParameter "-derivedDataPath" "derived data path"
                        (Xcode.derivedDataPath params) logPrefix))%list.
    cbn [fst app]. now rewrite <- !app_assoc.
  - intros env progressCallback Hx.
    unfold Xcode.executeXcodeCommand.
    replace (Xcode.useXcpretty env tokens) with (@None Xcode.XcprettyRun).
    + apply standard_execution_spawns.
    + unfold Xcode.useXcpretty. rewrite Hx.
      destruct tokens as [|first ?]; [reflexivity|]. now destruct (String.eqb first _).
Qed.

Lemma addXcodeParameters_swallows_invalid_target_witness :
  fst (Xcode.addXcodeParameters ["xcodebuild"]
         (Xcode.mkParams None None (Some "App") None None (Some iOSSimulator)
            None None None None None (Some ["-quiet"]))
         "Build")
  = ["xcodebuild"; "-scheme"; "App"; "-quiet"].
Proof.
  pose (params := Xcode.mkParams None None (Some "App") None None (Some iOSSimulator)
                    None None None None None (Some ["-quiet"])).
  assert (Hp : In iOSSimulator Xcode.simulatorPlatforms) by (simpl; auto).
  destruct (addXcodeParameters_swallows_invalid_target ["xcodebuild"] params "Build"
              iOSSimulator eq_refl eq_refl Hp eq_refl eq_refl) as (_ & H & _).
  exact H.
Defined.

(* ================================================================== *)
(** * The progress updates of [executeStandard] *)

(** ** Rounding *)

Lemma pow2_pos (e : Z) : (0 < Double.pow2 e)%Q.
Proof.
  destruct e as [|p|p]; unfold Double.pow2, Qlt; cbn [Qnum Qden inject_Z]; try lia.
  all: try (rewrite Z.mul_1_r, Z.mul_0_l; apply Z.pow_pos_nonneg; lia).
Qed.

Lemma roundHalfEven_nonneg (q : Q) : (0 <= q)%Q -> 0 <= Double.roundHalfEven q.
Proof.
  intros H. unfold Double.roundHalfEven.
  assert (Hf : 0 <= Qfloor q) by (change 0 with (Qfloor 0); now apply Qfloor_resp_le).
  destruct (Qcompare _ _); [destruct (Z.even _)| |]; lia.
Qed.

Lemma Qnum_nonneg (q : Q) : (0 <= q)%Q -> (Qnum q <? 0) = false.
Proof.
  unfold Qle. cbn [Qnum Qden]. intros H. apply Z.ltb_ge. lia.
Qed.

(** The double of a number that is not negative is not negative. *)
Lemma round_nonneg (q : Q) : (0 <= q)%Q -> counted (Double.round q).
Proof.
  intros H. unfold Double.round. cbv zeta.
  destruct (Qeq_bool (Qred q) 0); [right; exists 0%Q; split; [reflexivity | apply Qle_refl]|].
  set (ulp := Double.pow2 (Z.max _ _)).
  set (v := Qred _).
  assert (Hv : (0 <= v)%Q).
  { subst v. rewrite Qred_correct. apply Qmult_le_0_compat.
    - change 0%Q with (inject_Z 0). rewrite <- Zle_Qle. apply roundHalfEven_nonneg.
      assert (Hq : (0 <= Qred q)%Q) by (rewrite Qred_correct; exact H).
      apply Qle_shift_div_l; [apply pow2_pos|]. rewrite Qmult_0_l. exact Hq.
    - apply Qlt_le_weak, pow2_pos. }
  destruct (Qle_bool _ (Qabs v)).
  - left. f_equal. exact (Qnum_nonneg _ Hv).
  - right. exists v. split; [reflexivity | exact Hv].
Qed.

(** The double of a real number does not depend on how the number is
    written. *)
Lemma round_Qeq (p q : Q) : (p == q)%Q -> Double.round p = Double.round q.
Proof. intros H. unfold Double.round. now rewrite (Qred_complete p q H). Qed.

Lemma same_eq (x y : Double.Number) : Double.same x y = true -> x = y.
Proof.
  destruct x as [|a|[n d]], y as [|b|[m e]]; cbn; try discriminate; try reflexivity.
  - intros H. apply Bool.eqb_prop in H. now subst.
  - intros H. apply andb_true_iff in H as [H1 H2].
    apply Z.eqb_eq in H1. apply Pos.eqb_eq in H2. now subst.
Qed.

(** A check that holds of the first numbers holds of each of them. *)
Lemma checked_upto (f : Z -> bool) (bound : nat) :
  forallb f (map Z.of_nat (seq 0 bound)) = true ->
  forall n, 0 <= n < Z.of_nat bound -> f n = true.
Proof.
  intros H n Hn. rewrite forallb_forall in H. apply H.
  apply in_map_iff. exists (Z.to_nat n). split; [lia|]. apply in_seq. lia.
Qed.

(** The quarters up to 120 are doubles. *)
Lemma round_quarter (n : Z) :
  0 <= n <= 480 -> Double.round (n # 4) = Double.Finite (Qred (n # 4)).
Proof.
  intros Hn. apply same_eq.
  apply (checked_upto
           (fun n => Double.same (Double.round (n # 4)) (Double.Finite (Qred (n # 4))))
           481); [vm_compute; reflexivity | lia].
Qed.

Lemma integer_quarter (j : Z) :
  0 <= j <= 100 -> Double.Finite (inject_Z j) = Double.Finite (Qred ((4 * j) # 4)).
Proof.
  intros Hj. apply same_eq.
  apply (checked_upto
           (fun j => Double.same (Double.Finite (inject_Z j))
                       (Double.Finite (Qred ((4 * j) # 4))))
           101); [vm_compute; reflexivity | lia].
Qed.

(** ** The order of the numbers *)

Lemma leb_trans (x y z : Double.Number) :
  Double.leb x y = true -> Double.leb y z = true -> Double.leb x z = true.
Proof.
  destruct x as [|[|]|a], y as [|[|]|b], z as [|[|]|c]; cbn;
    try discriminate; try reflexivity.
  rewrite !Qle_bool_iff. apply Qle_trans.
Qed.

Lemma leb_notBelow (x y : Double.Number) : Double.leb x y = true -> notBelow x y.
Proof. intros H. unfold notBelow, Double.ltb. rewrite H. apply andb_false_r. Qed.

Lemma notBelow_refl (x : Double.Number) : notBelow x x.
Proof. unfold notBelow, Double.ltb. now destruct (Double.leb x x). Qed.

Lemma notBelow_leb (x y z : Double.Number) :
  notBelow x y -> Double.leb y z = true -> notBelow x z.
Proof.
  unfold notBelow, Double.ltb. intros Hxy Hyz.
  destruct (Double.leb z x) eqn:Hzx; [|reflexivity].
  pose proof (leb_trans y z x Hyz Hzx) as Hyx. rewrite Hyx in Hxy.
  cbn [andb] in Hxy. apply negb_false_iff in Hxy.
  now rewrite (leb_trans x y z Hxy Hyz).
Qed.

Lemma gtb_zero (b : Q) :
  Double.gtb (Double.Finite b) (Double.Finite 0) = true -> (0 < b)%Q.
Proof.
  unfold Double.gtb, Double.ltb. cbn [Double.leb]. intros H.
  apply andb_true_iff in H as [_ H]. apply negb_true_iff in H.
  apply Qnot_le_lt. intros Hle. apply Qle_bool_iff in Hle. congruence.
Qed.

(** ** Arithmetic of the estimates *)

Lemma quarter_le (k : Z) (bound : Z) :
  k <= 4 * bound -> Double.leb (Double.Finite (Qred (k # 4))) (Double.Finite (inject_Z bound)) = true.
Proof.
  intros Hk. cbn [Double.leb]. apply Qle_bool_iff. rewrite Qred_correct.
  unfold Qle. cbn [Qnum Qden inject_Z]. lia.
Qed.

Lemma quarter_capped (x : Double.Number) : quarter x -> capped x.
Proof.
  intros [-> | (k & Hk & ->)]; [now left | right].
  apply (quarter_le k 95). lia.
Qed.

Lemma capped_notBelow_100 (x : Double.Number) : capped x -> notBelow x (Double.Finite 100).
Proof.
  intros [-> | H]; [reflexivity|].
  apply leb_notBelow. apply (leb_trans _ _ _ H). reflexivity.
Qed.

Lemma counted_add_one (p : Double.Number) :
  counted p -> counted (Double.add p (Double.Finite 1)).
Proof.
  intros [-> | (q & -> & Hq)]; [now left|].
  cbn [Double.add]. apply round_nonneg. lra.
Qed.

Lemma counted_ofZ (z : Z) : 0 <= z -> counted (Double.ofZ z).
Proof.
  intros H. apply round_nonneg. change 0%Q with (inject_Z 0). now rewrite <- Zle_Qle.
Qed.

(** The quotient of two counters, the divisor above zero: NaN (an infinity by
    an infinity) or a number that is not negative. *)
Lemma div_counted (p t : Double.Number) :
  counted p -> counted t -> Double.gtb t (Double.Finite 0) = true ->
  Double.div p t = Double.NaN \/ counted (Double.div p t).
Proof.
  intros [-> | (a & -> & Ha)] [-> | (b & -> & Hb)] Hgt; cbn [Double.div].
  - now left.
  - right. left. apply gtb_zero in Hgt. cbn [Double.isNegative xorb]. f_equal.
    apply Qnum_nonneg. lra.
  - right. right. exists 0%Q. split; [reflexivity | lra].
  - apply gtb_zero in Hgt. destruct (Qeq_bool b 0) eqn:E.
    + apply Qeq_bool_iff in E. lra.
    + right. apply round_nonneg. apply Qle_shift_div_l; lra.
Qed.

Lemma mul_counted (x : Double.Number) (k : Z) :
  counted x -> 0 < k -> counted (Double.mul x (Double.Finite (inject_Z k))).
Proof.
  intros [-> | (c & -> & Hc)] Hk; cbn [Double.mul].
  - cbn [Double.isZero orb Double.isNegative xorb].
    destruct (Qeq_bool (inject_Z k) 0) eqn:E.
    + apply Qeq_bool_iff in E. unfold Qeq in E. cbn [Qnum Qden inject_Z] in E. lia.
    + left. f_equal. cbn [Qnum inject_Z]. apply Z.ltb_ge. lia.
  - apply round_nonneg. apply Qmult_le_0_compat; [exact Hc|].
    unfold Qle. cbn [Qnum Qden inject_Z]. lia.
Qed.

Lemma min_floor_counted (x : Double.Number) (cap : Z) :
  counted x -> 0 <= cap ->
  exists j, 0 <= j <= cap
            /\ Double.min (Double.floor x) (Double.Finite (inject_Z cap))
               = Double.Finite (inject_Z j).
Proof.
  intros [-> | (e & -> & He)] Hcap; cbn [Double.floor Double.min Double.leb].
  - exists cap. split; [lia | reflexivity].
  - destruct (Qle_bool _ _) eqn:E.
    + exists (Qfloor e). split; [|reflexivity]. split.
      * change 0 with (Qfloor 0). now apply Qfloor_resp_le.
      * apply Qle_bool_iff in E. now rewrite <- Zle_Qle in E.
    + exists cap. split; [lia | reflexivity].
Qed.

(** [Math.min(Math.floor((p / t) * k), cap)] on two counters, [t] above
    zero: NaN, or an integer from 0 to [cap]. *)
Lemma ratio_capped (p t : Double.Number) (k cap : Z) :
  counted p -> counted t -> Double.gtb t (Double.Finite 0) = true ->
  0 < k -> 0 <= cap ->
  Double.min (floorRatio p t (Double.Finite (inject_Z k))) (Double.Finite (inject_Z cap))
  = Double.NaN
  \/ exists j, 0 <= j <= cap
               /\ Double.min (floorRatio p t (Double.Finite (inject_Z k)))
                    (Double.Finite (inject_Z cap))
                  = Double.Finite (inject_Z j).
Proof.
  intros Hp Ht Hgt Hk Hcap. unfold floorRatio.
  destruct (div_counted p t Hp Ht Hgt) as [-> | Hd]; [now left|].
  right. apply min_floor_counted; [|exact Hcap]. now apply mul_counted.
Qed.

Lemma phaseFloor_quarter (phase : string) :
  In phase Xcode.buildPhases ->
  quarter (Xcode.phaseFloor (Xcode.indexOf phase Xcode.buildPhases)).
Proof.
  intros [<- | [<- | [<- | [<- | []]]]]; right.
  - exists 0. split; [lia | vm_compute; reflexivity].
  - exists 100. split; [lia | vm_compute; reflexivity].
  - exists 200. split; [lia | vm_compute; reflexivity].
  - exists 300. split; [lia | vm_compute; reflexivity].
Qed.

Lemma fileCountEstimate_quarter (processed total : Double.Number) :
  counted processed -> counted total ->
  Double.gtb total (Double.Finite 0) = true ->
  quarter (Xcode.fileCountEstimate processed total).
Proof.
  intros Hp Ht Hgt. unfold Xcode.fileCountEstimate.
  destruct (ratio_capped processed total 90 95 Hp Ht Hgt ltac:(lia) ltac:(lia))
    as [H | (j & Hj & H)].
  - left. exact H.
  - right. exists (4 * j). split; [lia|].
    etransitivity; [exact H|]. apply integer_quarter. lia.
Qed.

Lemma div_four (j : Z) :
  0 <= j <= 100 ->
  Double.div (Double.Finite (inject_Z j)) (Double.Finite 4)
  = Double.Finite (Qred (j # 4)).
Proof.
  intros Hj. unfold Double.div. change (Qeq_bool 4 0) with false. cbv iota.
  rewrite (round_Qeq _ (j # 4)); [apply round_quarter; lia|].
  symmetry. apply (Qmake_Qdiv j 4).
Qed.

Lemma add_quarters (k j : Z) :
  0 <= k -> 0 <= j -> k + j <= 480 ->
  Double.add (Double.Finite (Qred (k # 4))) (Double.Finite (Qred (j # 4)))
  = Double.Finite (Qred ((k + j) # 4)).
Proof.
  intros Hk Hj Hkj. unfold Double.add.
  rewrite (round_Qeq _ ((k + j) # 4)); [apply round_quarter; lia|].
  rewrite !Qred_correct. unfold Qeq, Qplus. cbn [Qnum Qden]. lia.
Qed.

(** A compiled file, the total known: the estimate becomes NaN, or it does
    not fall; it stays NaN or a quarter from 0 to 95. *)
Lemma compiled_file_raises (est processed total : Double.Number) :
  quarter est -> counted processed -> counted total ->
  Double.gtb total (Double.Finite 0) = true ->
  quarter
    (Double.min
       (Double.add est
          (Double.div
             (Double.min (floorRatio processed total (Double.Finite 100))
                (Double.Finite 100))
             (Double.Finite 4)))
       (Double.Finite 95))
  /\ (Double.min
        (Double.add est
           (Double.div
              (Double.min (floorRatio processed total (Double.Finite 100))
                 (Double.Finite 100))
              (Double.Finite 4)))
        (Double.Finite 95)
      = Double.NaN
      \/ Double.leb est
           (Double.min
              (Double.add est
                 (Double.div
                    (Double.min (floorRatio processed total (Double.Finite 100))
                       (Double.Finite 100))
                    (Double.Finite 4)))
              (Double.Finite 95))
         = true).
Proof.
  intros Hest Hp Ht Hgt.
  destruct (ratio_capped processed total 100 100 Hp Ht Hgt ltac:(lia) ltac:(lia))
    as [H | (j & Hj & H)];
    change (Double.Finite (inject_Z 100)) with (Double.Finite 100) in H; rewrite H.
  - destruct Hest as [-> | (k & Hk & ->)]; cbn [Double.div Double.add Double.min];
      (split; left; reflexivity).
  - destruct Hest as [-> | (k & Hk & ->)].
    + cbn [Double.add Double.min]. split; left; reflexivity.
    + rewrite div_four by exact Hj. rewrite add_quarters by lia.
      cbn [Double.min]. destruct (Double.leb _ _) eqn:E.
      * split; right.
        -- exists (k + j). split; [|reflexivity].
           cbn [Double.leb] in E. apply Qle_bool_iff in E. rewrite Qred_correct in E.
           unfold Qle in E. cbn [Qnum Qden] in E. lia.
        -- cbn [Double.leb]. apply Qle_bool_iff.
           rewrite !Qred_correct. unfold Qle. cbn [Qnum Qden]. lia.
      * split; right.
        -- exists 380. split; [lia | reflexivity].
        -- apply (quarter_le k 95). lia.
Qed.

(** ** The digits of a match *)

Lemma digitValue_nonneg (c : ascii) : isDigit c = true -> 0 <= digitValue c.
Proof.
  unfold isDigit. simpl. rewrite !orb_true_iff, !Ascii.eqb_eq.
  intros H. repeat (destruct H as [H | H]); try discriminate; subst c;
    vm_compute; discriminate.
Qed.

Lemma parseDigits_nonneg (digits : string) (acc : Z) :
  Xcode.anyChar (fun c => negb (isDigit c)) digits = false ->
  0 <= acc -> 0 <= parseDigits acc digits.
Proof.
  revert acc.
  induction digits as [|c digits IH]; cbn [parseDigits Xcode.anyChar];
    intros acc H Hacc; [assumption|].
  apply orb_false_iff in H as [Hc Hd]. apply negb_false_iff in Hc.
  apply IH; [assumption|]. pose proof (digitValue_nonneg c Hc) as Hv. lia.
Qed.

Lemma spanDigits_digits (s d r : string) :
  spanDigits s = (d, r) -> Xcode.anyChar (fun c => negb (isDigit c)) d = false.
Proof.
  revert d r. induction s as [|c s IH]; simpl; intros d r H.
  - now inversion H.
  - destruct (isDigit c) eqn:Hc.
    + destruct (spanDigits s) as [d' r'] eqn:E. inversion H; subst.
      simpl. rewrite Hc. simpl. now apply (IH d' r).
    + now inversion H.
Qed.

Lemma matchFileCountHere_digits (s g1 g2 : string) :
  matchFileCountHere s = Some (g1, g2) ->
  counted (parseInt g1) /\ counted (parseInt g2).
Proof.
  unfold matchFileCountHere.
  destruct (spanDigits s) as [d1 r1] eqn:E1.
  destruct (isEmpty d1); [discriminate|].
  destruct (stripPrefix " of " r1) as [r2|]; [|discriminate].
  destruct (spanDigits r2) as [d2 r3] eqn:E2.
  destruct (isEmpty d2); [discriminate|].
  destruct (stripPrefix " files" r3); [|discriminate].
  intros H. inversion H; subst.
  split; (apply counted_ofZ, parseDigits_nonneg;
          [eapply spanDigits_digits; eassumption | lia]).
Qed.

Lemma matchFileCount_digits (s g1 g2 : string) :
  matchFileCount s = Some (g1, g2) ->
  counted (parseInt g1) /\ counted (parseInt g2).
Proof.
  induction s as [|c s IH]; cbn [matchFileCount].
  - discriminate.
  - destruct (matchFileCountHere (String c s)) as [m|] eqn:E; [|exact IH].
    intros H. inversion H; subst. now apply matchFileCountHere_digits in E.
Qed.

(** ** The invariant of the estimates *)

Lemma lastLe_snoc (ups : list ToolProgressUpdate) (u : ToolProgressUpdate)
    (x : Double.Number) :
  notBelow (progress u) x -> lastLe (ups ++ [u]) x.
Proof.
  intros H before u' E. apply app_inj_tail in E as [_ <-]. exact H.
Qed.

(** An update is sent, or not, from a state whose estimate may just have been
    set: the update must be a step from the last one. *)
Lemma Mono_send_step now message forceSend st :
  Forall (fun u => isRunning u /\ capped (progress u))
    (progressUpdates (Xcode.trace st)) ->
  Chain stepAmended (progressUpdates (Xcode.trace st)) ->
  quarter (Xcode.estimatedProgress st) ->
  counted (Xcode.processedFiles st) ->
  counted (Xcode.totalFiles st) ->
  (forall before u0 details,
      progressUpdates (Xcode.trace st) = (before ++ [u0])%list ->
      stepAmended u0 (mkUpdate running (Xcode.estimatedProgress st) message details)) ->
  (forceSend = false ->
   lastLe (progressUpdates (Xcode.trace st)) (Xcode.estimatedProgress st)) ->
  Mono (Xcode.sendProgressUpdate now true message forceSend st).
Proof.
  intros Hrun Hchain Hq Hcount Htotal Hstep Hlast.
  unfold Xcode.sendProgressUpdate. cbn [andb].
  destruct (forceSend || _) eqn:E.
  - constructor;
      cbn [Xcode.trace Xcode.emit Xcode.estimatedProgress Xcode.processedFiles
           Xcode.totalFiles Xcode.set_lastProgressUpdate Xcode.set_clockReads];
      rewrite ?progressUpdates_snoc.
    + apply Forall_app. split; [assumption|].
      constructor; [|constructor]. split; [reflexivity | now apply quarter_capped].
    + apply Chain_snoc; [assumption|]. intros before u0 E0. now apply (Hstep before).
    + apply lastLe_snoc. apply notBelow_refl.
    + assumption.
    + assumption.
    + assumption.
  - apply orb_false_iff in E as [-> _].
    constructor; cbn [Xcode.trace Xcode.estimatedProgress Xcode.processedFiles
                      Xcode.totalFiles Xcode.set_clockReads]; auto.
Qed.

Lemma Mono_send now message forceSend st :
  Mono st -> Mono (Xcode.sendProgressUpdate now true message forceSend st).
Proof.
  intros [Hrun Hchain Hlast Hq Hcount Htotal].
  apply Mono_send_step; auto.
  intros before u0 details E. left. exact (Hlast before u0 E).
Qed.

Lemma Mono_transition now phase st :
  In phase Xcode.buildPhases -> Mono st ->
  Mono (Xcode.phaseTransition now true phase st).
Proof.
  intros Hin [Hrun Hchain Hlast Hq Hcount Htotal].
  unfold Xcode.phaseTransition.
  apply Mono_send_step;
    cbn [Xcode.trace Xcode.estimatedProgress Xcode.processedFiles Xcode.totalFiles
         Xcode.set_estimatedProgress Xcode.set_currentPhase]; auto.
  - now apply phaseFloor_quarter.
  - intros before u0 details _. right. left.
    exists phase. repeat split; assumption.
  - discriminate.
Qed.

Lemma Mono_count st : Mono st -> Mono (Xcode.countCompiledFile st).
Proof.
  intros [Hrun Hchain Hlast Hq Hcount Htotal].
  unfold Xcode.countCompiledFile.
  cbn [Xcode.totalFiles Xcode.processedFiles Xcode.estimatedProgress
       Xcode.set_processedFiles].
  pose proof (counted_add_one _ Hcount) as Hcount'.
  destruct (Double.gtb (Xcode.totalFiles st) (Double.Finite 0)) eqn:E.
  - destruct (compiled_file_raises _ _ _ Hq Hcount' Htotal E) as [Hq' Hup].
    constructor;
      cbn [Xcode.trace Xcode.estimatedProgress Xcode.processedFiles Xcode.totalFiles
           Xcode.set_estimatedProgress Xcode.set_processedFiles]; auto.
    intros before u E0. destruct Hup as [Hup | Hup].
    + rewrite Hup. reflexivity.
    + eapply notBelow_leb; [exact (Hlast before u E0) | exact Hup].
  - constructor;
      cbn [Xcode.trace Xcode.estimatedProgress Xcode.processedFiles Xcode.totalFiles
           Xcode.set_processedFiles]; auto.
Qed.

Lemma Mono_files now line group1 group2 st :
  matchFileCount line = Some (group1, group2) ->
  Mono st -> Mono (Xcode.fileCountSeen now true group1 group2 st).
Proof.
  intros Hm [Hrun Hchain Hlast Hq Hcount Htotal].
  apply matchFileCount_digits in Hm as [H1 H2].
  unfold Xcode.fileCountSeen.
  cbn [Xcode.totalFiles Xcode.processedFiles Xcode.set_processedFiles Xcode.set_totalFiles].
  destruct (Double.gtb (parseInt group2) (Double.Finite 0)) eqn:E.
  - apply Mono_send_step;
      cbn [Xcode.trace Xcode.estimatedProgress Xcode.processedFiles Xcode.totalFiles
           Xcode.set_estimatedProgress Xcode.set_processedFiles Xcode.set_totalFiles];
      auto.
    + now apply fileCountEstimate_quarter.
    + intros before u0 details _. right. right.
      exists (parseInt group1), (parseInt group2).
      repeat split; assumption.
    + discriminate.
  - constructor;
      cbn [Xcode.trace Xcode.estimatedProgress Xcode.processedFiles Xcode.totalFiles
           Xcode.set_processedFiles Xcode.set_totalFiles]; auto.
Qed.

Lemma Mono_output now logPrefix chunks st :
  Mono st ->
  Mono (fold_left (Xcode.handle now logPrefix true) (map Xcode.chunkEvent chunks) st).
Proof.
  apply (Inv_output now true Mono).
  - apply Mono_transition.
  - apply Mono_count.
  - intros. now apply Mono_send.
  - apply Mono_files.
  - intros text st0 []. now constructor.
  - intros text st0 []. now constructor.
  - intros level text st0 [].
    constructor;
      cbn [Xcode.trace Xcode.emit Xcode.estimatedProgress Xcode.processedFiles
           Xcode.totalFiles];
      rewrite ?progressUpdates_snoc_log; assumption.
Qed.

(** ** The terminal updates *)

Lemma updates_onClose logPrefix exitCode st :
  progressUpdates (Xcode.trace (Xcode.onClose logPrefix true exitCode st))
  = (progressUpdates (Xcode.trace st)
     ++ [mkUpdate
           (if Xcode.isExitZero exitCode then completed else failed)
           (if Xcode.isExitZero exitCode then Double.Finite 100
            else Xcode.estimatedProgress st)
           (if Xcode.isExitZero exitCode then logPrefix ++ " completed successfully"
            else logPrefix ++ " failed with exit code " ++ Xcode.showExitCode exitCode)
           (if Xcode.isExitZero exitCode then None
            else Some (substring 0 500 (Xcode.stderr st)))])%list.
Proof.
  unfold Xcode.onClose.
  destruct (Xcode.isExitZero exitCode);
    cbn [Xcode.trace Xcode.emit Xcode.resolve Xcode.estimatedProgress Xcode.stderr];
    rewrite progressUpdates_snoc_log, progressUpdates_snoc, progressUpdates_snoc_log;
    reflexivity.
Qed.

Lemma updates_onError logPrefix errMessage st :
  progressUpdates (Xcode.trace (Xcode.onError logPrefix true errMessage st))
  = (progressUpdates (Xcode.trace st)
     ++ [mkUpdate failed (Double.Finite 0)
           ("Failed to start " ++ logPrefix ++ " process: " ++ errMessage) None])%list
  /\ Xcode.estimatedProgress (Xcode.onError logPrefix true errMessage st)
     = Xcode.estimatedProgress st
  /\ Xcode.stderr (Xcode.onError logPrefix true errMessage st) = Xcode.stderr st.
Proof.
  unfold Xcode.onError.
  cbn [Xcode.trace Xcode.emit Xcode.resolve Xcode.estimatedProgress Xcode.stderr].
  rewrite progressUpdates_snoc, progressUpdates_snoc_log.
  repeat split.
Qed.

Lemma Mono_initial before commandString starting :
  progressUpdates before = [starting] ->
  status starting = running ->
  progress starting = Double.Finite 0 ->
  Mono (Xcode.initialState (before ++ [Spawn "sh" ["-c"; commandString]])).
Proof.
  intros Hups Hrun Hzero.
  constructor;
    cbn [Xcode.initialState Xcode.trace Xcode.estimatedProgress Xcode.processedFiles
         Xcode.totalFiles];
    rewrite ?progressUpdates_app, ?Hups; cbn [progressUpdates app].
  - constructor; [|constructor]. split; [exact Hrun|]. rewrite Hzero. now right.
  - constructor.
  - intros [|? [|? ?]] u E; inversion E; subst. rewrite Hzero. reflexivity.
  - right. exists 0. split; [lia | reflexivity].
  - right. exists 0%Q. split; [reflexivity | apply Qle_refl].
  - right. exists 0%Q. split; [reflexivity | apply Qle_refl].
Qed.

(** The updates of a standard execution with a callback, the update sent by
    [executeXcodeCommand] first.  Each update is a step from the one before.
    When the child started: updates with status [running] and an estimate
    that is NaN or 95 at most, then one terminal update.  When the child
    could not be started: the update of the [error] listener and the update
    of the [close] listener.  When [spawn] throws: nothing more. *)
Lemma standard_updates now logPrefix before commandString run starting :
  progressUpdates before = [starting] ->
  status starting = running ->
  progress starting = Double.Finite 0 ->
  Chain stepAmended
    (progressUpdates
       (Xcode.events (Xcode.executeStandard now logPrefix true before commandString run)))
  /\ match run with
     | Xcode.Exits _ exitCode =>
         exists data final,
           progressUpdates
             (Xcode.events
                (Xcode.executeStandard now logPrefix true before commandString run))
           = (data ++ [final])%list
           /\ Forall (fun u => isRunning u /\ capped (progress u)) data
           /\ status final = (if Xcode.isExitZero exitCode then completed else failed)
           /\ (Xcode.isExitZero exitCode = true -> progress final = Double.Finite 100)
     | Xcode.FailsToStart errMessage errno =>
         progressUpdates
           (Xcode.events
              (Xcode.executeStandard now logPrefix true before commandString run))
         = [starting;
            mkUpdate failed (Double.Finite 0)
              ("Failed to start " ++ logPrefix ++ " process: " ++ errMessage) None;
            mkUpdate failed (Double.Finite 0)
              (logPrefix ++ " failed with exit code "
                 ++ Xcode.showExitCode (Some (Z.neg errno)))
              (Some EmptyString)]
     | Xcode.SpawnThrows _ =>
         progressUpdates
           (Xcode.events
              (Xcode.executeStandard now logPrefix true before commandString run))
         = [starting]
     end.
Proof.
  intros Hups Hrun Hzero.
  pose proof (Mono_initial before commandString starting Hups Hrun Hzero) as H0.
  unfold Xcode.executeStandard, Xcode.runStandard.
  destruct run as [chunks exitCode | errMessage errno | errMessage];
    cbn [Xcode.events Xcode.processEvents].
  - rewrite fold_left_snoc. cbn [Xcode.handle].
    apply (Mono_output now logPrefix chunks) in H0.
    set (st := fold_left _ _ _) in *.
    destruct H0 as [Hr Hc Hl Hq _ _].
    rewrite updates_onClose.
    split.
    + apply Chain_snoc; [assumption|].
      intros pre u0 E. left. cbn [progress].
      destruct (Xcode.isExitZero exitCode); [|exact (Hl pre u0 E)].
      rewrite E in Hr. apply Forall_app in Hr as [_ Hr]. inversion Hr; subst.
      apply capped_notBelow_100. tauto.
    + eexists _, _. split; [reflexivity|]. cbn [status progress].
      repeat split; [assumption|].
      intros ->. reflexivity.
  - cbn [fold_left Xcode.handle].
    set (st0 := Xcode.initialState _) in *.
    destruct (updates_onError logPrefix errMessage st0) as (E1 & Hest & Herr).
    rewrite updates_onClose, E1, Hest, Herr.
    assert (Hst : progressUpdates (Xcode.trace st0) = [starting]).
    { subst st0. cbn [Xcode.initialState Xcode.trace].
      rewrite progressUpdates_app, Hups. reflexivity. }
    rewrite Hst. subst st0.
    cbn [Xcode.isExitZero Z.eqb Xcode.initialState Xcode.estimatedProgress Xcode.stderr
         app substring].
    split; [|reflexivity].
    constructor; [|constructor; [|constructor]]; left; cbn [progress].
    + rewrite Hzero. reflexivity.
    + reflexivity.
  - rewrite progressUpdates_app, Hups. cbn [progressUpdates app].
    split; [constructor | reflexivity].
Qed.

(* ================================================================== *)
(** * The progress updates of an execution *)

(** The updates of an execution with a callback. *)
Lemma execution_updates env command logPrefix :
  Chain stepAmended
    (progressUpdates (Xcode.events (Xcode.executeXcodeCommand env command logPrefix true)))
  /\ match Xcode.child env with
     | Xcode.Exits _ exitCode =>
         exists data final,
           progressUpdates
             (Xcode.events (Xcode.executeXcodeCommand env command logPrefix true))
           = (data ++ [final])%list
           /\ Forall (fun u => isRunning u /\ capped (progress u)) data
           /\ status final = (if Xcode.isExitZero exitCode then completed else failed)
           /\ (Xcode.isExitZero exitCode = true -> progress final = Double.Finite 100)
     | Xcode.FailsToStart errMessage errno =>
         progressUpdates
           (Xcode.events (Xcode.executeXcodeCommand env command logPrefix true))
         = [mkUpdate running (Double.Finite 0) ("Starting " ++ logPrefix ++ "...") None;
            mkUpdate failed (Double.Finite 0)
              ("Failed to start " ++ logPrefix ++ " process: " ++ errMessage) None;
            mkUpdate failed (Double.Finite 0)
              (logPrefix ++ " failed with exit code "
                 ++ Xcode.showExitCode (Some (Z.neg errno)))
              (Some EmptyString)]
     | Xcode.SpawnThrows _ =>
         progressUpdates
           (Xcode.events (Xcode.executeXcodeCommand env command logPrefix true))
         = [mkUpdate running (Double.Finite 0) ("Starting " ++ logPrefix ++ "...") None]
     end.
Proof.
  unfold Xcode.executeXcodeCommand. rewrite useXcpretty_never.
  apply standard_updates; reflexivity.
Qed.

(** C7, as amended. With a progress callback supplied, the updates of an
    execution are, by what becomes of the child process:
    - the child started and ran to its exit: updates with status [running],
      then exactly one terminal update, the last update, with status
      [completed] when the exit code is 0 and [failed] otherwise;
    - the child could not be started ([error], then [close]): the starting
      update and then two terminal updates, both [failed] with the estimate
      0, the first from the [error] listener and the second from the [close]
      listener;
    - [spawn] threw: the starting update and no terminal update at all. *)
Theorem terminal_updates_of_an_execution
    (env : Xcode.Env) (command : list string) (logPrefix : string) :
  match Xcode.child env with
  | Xcode.Exits _ exitCode =>
      exists before final,
        progressUpdates
          (Xcode.events (Xcode.executeXcodeCommand env command logPrefix true))
        = (before ++ [final])%list
        /\ Forall isRunning before
        /\ status final = (if Xcode.isExitZero exitCode then completed else failed)
  | Xcode.FailsToStart errMessage errno =>
      progressUpdates
        (Xcode.events (Xcode.executeXcodeCommand env command logPrefix true))
      = [mkUpdate running (Double.Finite 0) ("Starting " ++ logPrefix ++ "...") None;
         mkUpdate failed (Double.Finite 0)
           ("Failed to start " ++ logPrefix ++ " process: " ++ errMessage) None;
         mkUpdate failed (Double.Finite 0)
           (logPrefix ++ " failed with exit code "
              ++ Xcode.showExitCode (Some (Z.neg errno)))
           (Some EmptyString)]
  | Xcode.SpawnThrows _ =>
      progressUpdates
        (Xcode.events (Xcode.executeXcodeCommand env command logPrefix true))
      = [mkUpdate running (Double.Finite 0) ("Starting " ++ logPrefix ++ "...") None]
  end.
Proof.
  destruct (execution_updates env command logPrefix) as [_ H].
  destruct (Xcode.child env) as [chunks exitCode | errMessage errno | errMessage];
    [|exact H|exact H].
  destruct H as (data & final & E & Hd & Hs & _).
  exists data, final. repeat split; try assumption.
  eapply Forall_impl; [|exact Hd]. now intros u [? _].
Qed.

(** C7, as stated, fails.  When the child process cannot be started, the
    callback receives two terminal updates, the update of the [error]
    listener and then the update of the [close] listener.  When [spawn]
    throws, it receives no terminal update. *)
Lemma one_terminal_update_fails :
  ~ oneTerminalLast
      (progressUpdates
         (Xcode.events
            (Xcode.executeXcodeCommand
               (Xcode.mkEnv (fun _ => 0) None (Xcode.FailsToStart "spawn sh EAGAIN" 11))
               ["xcodebuild"; "build"] "Build" true)))
  /\ ~ oneTerminalLast
         (progressUpdates
            (Xcode.events
               (Xcode.executeXcodeCommand
                  (Xcode.mkEnv (fun _ => 0) None (Xcode.SpawnThrows "spawn E2BIG"))
                  ["xcodebuild"; "build"] "Build" true))).
Proof.
  split.
  - assert (E : progressUpdates
                  (Xcode.events
                     (Xcode.executeXcodeCommand
                        (Xcode.mkEnv (fun _ => 0) None
                           (Xcode.FailsToStart "spawn sh EAGAIN" 11))
                        ["xcodebuild"; "build"] "Build" true))
                = ([mkUpdate running (Double.Finite 0) "Starting Build..." None;
                    mkUpdate failed (Double.Finite 0)
                      "Failed to start Build process: spawn sh EAGAIN" None]
                   ++ [mkUpdate failed (Double.Finite 0) "Build failed with exit code -11"
                         (Some EmptyString)])%list)
      by (vm_compute; reflexivity).
    intros (before & final & H & Hrun & _).
    rewrite E in H. apply app_inj_tail in H as [<- _].
    inversion Hrun as [|? ? _ H2]. inversion H2 as [|? ? Hf _].
    discriminate Hf.
  - assert (E : progressUpdates
                  (Xcode.events
                     (Xcode.executeXcodeCommand
                        (Xcode.mkEnv (fun _ => 0) None (Xcode.SpawnThrows "spawn E2BIG"))
                        ["xcodebuild"; "build"] "Build" true))
                = ([] ++ [mkUpdate running (Double.Finite 0) "Starting Build..." None])%list)
      by (vm_compute; reflexivity).
    intros (before & final & H & _ & [Hf | Hf]);
      rewrite E in H; apply app_inj_tail in H as [_ <-]; discriminate Hf.
Qed.

(** C8, as amended. With a progress callback, on every execution: from one
    update to the next the estimate does not fall, unless the update is the
    one of a phase transition, which resets the estimate to the floor of the
    phase, or the one of a line [N of M files], which recomputes it from the
    two counts; every estimate sent with status [running] is 95 at most, or
    it is NaN (the counts of a line [N of M files] are too large for a
    number, and the estimate is the quotient of two infinities); and when the
    child exits with code 0 the last update has the estimate 100.  A NaN is
    neither below nor above a number. *)
Theorem estimates_of_an_execution
    (env : Xcode.Env) (command : list string) (logPrefix : string) :
  progressAmended
    (progressUpdates (Xcode.events (Xcode.executeXcodeCommand env command logPrefix true)))
    (exitedZero (Xcode.child env)).
Proof.
  destruct (execution_updates env command logPrefix) as [Hchain H].
  split; [exact Hchain|]. unfold exitedZero.
  destruct (Xcode.child env) as [chunks exitCode | errMessage errno | errMessage].
  - destruct H as (data & final & -> & Hd & Hs & Hp). split.
    + apply Forall_app. split.
      * eapply Forall_impl; [|exact Hd]. now intros u [_ Hu] _.
      * constructor; [|constructor]. unfold isRunning. rewrite Hs.
        destruct (Xcode.isExitZero exitCode); discriminate.
    + intros Hzero. exists data, final. split; [reflexivity | exact (Hp Hzero)].
  - rewrite H. split; [|discriminate].
    constructor; [|constructor; [|constructor; [|constructor]]];
      cbn [progress]; intros _; now right.
  - rewrite H. split; [|discriminate].
    constructor; [|constructor]. intros _. now right.
Qed.

(** The estimates sent for a build that compiles, links, and then prints a
    count of files: a phase transition raises the estimate to 25 and another
    to 50, the count resets it to 22, and the exit with code 0 ends at 100. *)
Example estimates_of_a_build :
  map progress
    (progressUpdates
       (Xcode.events
          (Xcode.executeXcodeCommand
             (Xcode.mkEnv (fun _ => 0) None
                (Xcode.Exits
                   [Xcode.OnStdout
                      ("CompileSwift main.swift" ++ String LF "Linking App"
                         ++ String LF "29 of 115 files")]
                   (Some 0)))
             ["xcodebuild"; "build"] "Build" true)))
  = [Double.Finite 0; Double.Finite 25; Double.Finite 50; Double.Finite 22;
     Double.Finite 100].
Proof. vm_compute. reflexivity. Qed.

Lemma estimates_of_an_execution_witness :
  progressAmended
    (progressUpdates
       (Xcode.events
          (Xcode.executeXcodeCommand
             (Xcode.mkEnv (fun _ => 0) None
                (Xcode.Exits
                   [Xcode.OnStdout
                      ("CompileSwift main.swift" ++ String LF "Linking App"
                         ++ String LF "29 of 115 files")]
                   (Some 0)))
             ["xcodebuild"; "build"] "Build" true)))
    true.
Proof.
  exact (estimates_of_an_execution
           (Xcode.mkEnv (fun _ => 0) None
              (Xcode.Exits
                 [Xcode.OnStdout
                    ("CompileSwift main.swift" ++ String LF "Linking App"
                       ++ String LF "29 of 115 files")]
                 (Some 0)))
           ["xcodebuild"; "build"] "Build").
Defined.

(** C8, as stated, fails.  After the phase [CodeSign] has set the estimate
    to 75, a line [7 of 10 files] sets it to 62 (the double of 7/10 times 90
    is below 63) and the update is sent: the estimate falls and no phase
    changed.  And a line [N of M files] whose two counts have 310 digits
    sends the estimate NaN, which is not below 100. *)
Lemma estimate_falls_without_phase_transition :
  ~ progressClaim
      (progressUpdates
         (Xcode.events
            (Xcode.executeXcodeCommand
               (Xcode.mkEnv (fun _ => 0) None
                  (Xcode.Exits [Xcode.OnStdout ("CodeSign" ++ String LF "7 of 10 files")]
                     (Some 0)))
               ["xcodebuild"; "build"] "Build" true)))
      true
  /\ ~ progressClaim
         (progressUpdates
            (Xcode.events
               (Xcode.executeXcodeCommand
                  (Xcode.mkEnv (fun _ => 0) None
                     (Xcode.Exits
                        [Xcode.OnStdout
                           (String "1" (Double.zeros 309) ++ " of "
                              ++ String "1" (Double.zeros 309) ++ " files")]
                        (Some 0)))
                  ["xcodebuild"; "build"] "Build" true)))
         true.
Proof.
  split.
  - assert (E : progressUpdates
                  (Xcode.events
                     (Xcode.executeXcodeCommand
                        (Xcode.mkEnv (fun _ => 0) None
                           (Xcode.Exits
                              [Xcode.OnStdout ("CodeSign" ++ String LF "7 of 10 files")]
                              (Some 0)))
                        ["xcodebuild"; "build"] "Build" true))
                = [mkUpdate running (Double.Finite 0) "Starting Build..." None;
                   mkUpdate running (Double.Finite 75) "CodeSign phase..."
                     (Some "Phase: CodeSign");
                   mkUpdate running (Double.Finite 62) "Processing file 7 of 10"
                     (Some "Phase: CodeSign");
                   mkUpdate completed (Double.Finite 100) "Build completed successfully"
                     None])
      by (vm_compute; reflexivity).
    intros (Hchain & _). rewrite E in Hchain.
    inversion Hchain as [| |? ? ? _ H1]; subst.
    inversion H1 as [| |? ? ? Hstep _]; subst.
    destruct Hstep as [Hle | (phase & Hin & Hmsg & _)].
    + discriminate Hle.
    + simpl in Hin. destruct Hin as [<- | [<- | [<- | [<- | []]]]]; discriminate Hmsg.
  - assert (E : progressUpdates
                  (Xcode.events
                     (Xcode.executeXcodeCommand
                        (Xcode.mkEnv (fun _ => 0) None
                           (Xcode.Exits
                              [Xcode.OnStdout
                                 (String "1" (Double.zeros 309) ++ " of "
                                    ++ String "1" (Double.zeros 309) ++ " files")]
                              (Some 0)))
                        ["xcodebuild"; "build"] "Build" true))
                = [mkUpdate running (Double.Finite 0) "Starting Build..." None;
                   mkUpdate running Double.NaN "Processing file Infinity of Infinity"
                     (Some "Phase: Preparing");
                   mkUpdate completed (Double.Finite 100) "Build completed successfully"
                     None])
      by (vm_compute; reflexivity).
    intros (_ & Hbelow & _). rewrite E in Hbelow.
    inversion Hbelow as [|? ? _ H1]; subst.
    inversion H1 as [|? ? Hnan _]; subst.
    specialize (Hnan eq_refl). discriminate Hnan.
Qed.

(* ================================================================== *)
(** * More on the destination resolver *)

(** X1. The resolver throws exactly for a simulator platform with neither a
    usable identifier nor a usable name; for every other input it returns a
    destination and writes no log line, so that its last branch, for a
    platform outside the enumeration, is never taken. *)
Theorem resolver_throws_exactly_without_simulator_identity
    (p : XcodePlatform) (name id : option string)
    (useLatest : option bool) (arch : option string) :
  if Xcode.isSimulatorPlatform p && negb (truthy id) && negb (truthy name)
  then exists logs errorMessage,
         Xcode.constructDestinationString p name id useLatest arch
         = (logs, Throw errorMessage)
  else exists destination,
         Xcode.constructDestinationString p name id useLatest arch
         = ([], Return destination).
Proof.
  unfold Xcode.constructDestinationString.
  destruct (Xcode.isSimulatorPlatform p) eqn:Hp, (truthy id), (truthy name);
    cbn [andb negb]; try (eexists; reflexivity); try (eexists; eexists; reflexivity);
    destruct p; try discriminate Hp; eexists; reflexivity.
Qed.

(** X2. What the resolver reads: the simulator name, the simulator
    identifier and the OS flag only for a simulator platform, and the
    architecture only for macOS.  Every other parameter may be dropped
    without changing the log lines or the result. *)
Theorem resolver_reads_only_what_the_platform_needs
    (p : XcodePlatform) (name id : option string)
    (useLatest : option bool) (arch : option string) :
  Xcode.constructDestinationString p name id useLatest arch
  = Xcode.constructDestinationString p
      (if Xcode.isSimulatorPlatform p then name else None)
      (if Xcode.isSimulatorPlatform p then id else None)
      (if Xcode.isSimulatorPlatform p then useLatest else None)
      (if platform_eqb p macOS then arch else None).
Proof.
  unfold Xcode.constructDestinationString.
  destruct p; cbn [Xcode.isSimulatorPlatform existsb Xcode.simulatorPlatforms];
    try reflexivity;
    change (platform_eqb ?a ?b) with false; cbn [orb andb];
    destruct (truthy id), (truthy name); reflexivity.
Qed.

(* ================================================================== *)
(** * More on [addXcodeParameters] *)

(** X3. An explicit destination overrides the target: with [destination]
    set, the array and the log lines of [addXcodeParameters] are the same
    whatever the platform, the simulator name and identifier, the OS flag and
    the architecture, and the resolver is not called (an invalid target goes
    unnoticed). *)
Theorem explicit_destination_overrides_target
    (command : list string) (params : Xcode.XcodeParams) (logPrefix : string)
    (p : option XcodePlatform) (name id : option string)
    (latest : option bool) (arch : option string) :
  truthy (Xcode.destination params) = true ->
  Xcode.addXcodeParameters command (More.withTarget params p name id latest arch) logPrefix
  = Xcode.addXcodeParameters command params logPrefix
  /\ Xcode.destinationParameters params logPrefix
     = (["-destination"; show (Xcode.destination params)],
        [Log "info" (logPrefix ++ ": Using explicit destination "
                       ++ show (Xcode.destination params))]).
Proof.
  intros Hd. split.
  - unfold Xcode.addXcodeParameters, Xcode.destinationParameters.
    cbn [More.withTarget Xcode.destination Xcode.workspacePath Xcode.projectPath
         Xcode.scheme Xcode.configuration Xcode.derivedDataPath Xcode.extraArgs
         Xcode.pathParameters Xcode.extraParameters].
    rewrite Hd. reflexivity.
  - unfold Xcode.destinationParameters. now rewrite Hd.
Qed.

Lemma explicit_destination_overrides_target_witness :
  fst (Xcode.addXcodeParameters ["xcodebuild"]
         (Xcode.mkParams None None None None None (Some iOSSimulator)
            (Some "id=ABC") None None None None None)
         "Build")
  = ["xcodebuild"; "-destination"; "id=ABC"].
Proof.
  pose (params := Xcode.mkParams None None None None None None
                    (Some "id=ABC") None None None None None).
  pose proof (proj1 (explicit_destination_overrides_target ["xcodebuild"] params "Build"
                       (Some iOSSimulator) None None None None eq_refl)) as H.
  exact (f_equal fst H).
Defined.

(** X4. [addXcodeParameters] never reads the architecture: the array and the
    log lines are the same for every [arch]; so for macOS, without an
    explicit destination, the destination pushed is [platform=macOS] whatever
    architecture (and whatever simulator settings) the parameters hold. *)
Theorem addXcodeParameters_never_reads_arch
    (command : list string) (params : Xcode.XcodeParams) (logPrefix : string)
    (name id : option string) (latest : option bool) (arch : option string) :
  truthy (Xcode.destination params) = false ->
  Xcode.addXcodeParameters command
    (More.withTarget params (Xcode.platform params) (Xcode.simulatorName params)
       (Xcode.simulatorId params) (Xcode.useLatestOS params) arch)
    logPrefix
  = Xcode.addXcodeParameters command params logPrefix
  /\ fst (Xcode.destinationParameters
            (More.withTarget params (Some macOS) name id latest arch) logPrefix)
     = ["-destination"; "platform=macOS"].
Proof.
  intros Hd. split; [reflexivity|].
  unfold Xcode.destinationParameters.
  cbn [More.withTarget Xcode.destination Xcode.platform Xcode.simulatorName
       Xcode.simulatorId Xcode.useLatestOS].
  rewrite Hd. reflexivity.
Qed.

Lemma addXcodeParameters_never_reads_arch_witness :
  fst (Xcode.destinationParameters
         (Xcode.mkParams None None None None None (Some macOS) None None None None
            (Some "arm64") None)
         "Build")
  = ["-destination"; "platform=macOS"].
Proof.
  pose (params := Xcode.mkParams None None None None None None None None None None
                    None None).
  exact (proj2 (addXcodeParameters_never_reads_arch [] params "Build"
                  None None None (Some "arm64") eq_refl)).
Defined.

(** X5. The workspace takes precedence over the project: with
    [workspacePath] set, the array and the log lines are the same whatever
    [projectPath] is, the array holds [-workspace] and the path right after
    the command it was given, and [-project] is not pushed for the path. *)
Theorem workspace_takes_precedence
    (command : list string) (params : Xcode.XcodeParams) (logPrefix : string)
    (project : option string) :
  truthy (Xcode.workspacePath params) = true ->
  Xcode.addXcodeParameters command (More.withProject params project) logPrefix
  = Xcode.addXcodeParameters command params logPrefix
  /\ exists rest,
       fst (Xcode.addXcodeParameters command params logPrefix)
       = (command ++ ["-workspace"; show (Xcode.workspacePath params)] ++ rest)%list.
Proof.
  intros Hw. split.
  - unfold Xcode.addXcodeParameters, Xcode.pathParameters.
    cbn [More.withProject Xcode.workspacePath Xcode.projectPath
         Xcode.scheme Xcode.configuration Xcode.derivedDataPath Xcode.extraArgs
         Xcode.extraParameters].
    rewrite Hw. reflexivity.
  - rewrite addXcodeParameters_tokens.
    unfold Xcode.pathParameters. rewrite Hw. cbn [fst].
    eexists. reflexivity.
Qed.

Lemma workspace_takes_precedence_witness :
  fst (Xcode.addXcodeParameters ["xcodebuild"]
         (Xcode.mkParams (Some "App.xcworkspace") (Some "App.xcodeproj") None None None
            None None None None None None None)
         "Build")
  = ["xcodebuild"; "-workspace"; "App.xcworkspace"].
Proof.
  pose (params := Xcode.mkParams (Some "App.xcworkspace") None None None None
                    None None None None None None None).
  pose proof (proj1 (workspace_takes_precedence ["xcodebuild"] params "Build"
                       (Some "App.xcodeproj") eq_refl)) as H.
  exact (f_equal fst H).
Defined.

(* ================================================================== *)
(** * The destinations of the callers *)

(** X6. The destination [executeXcodeBuild] computes is the one the resolver
    gives for the options as they are: when the function goes on with a
    destination, the resolver called with the platform, name, identifier, OS
    flag and architecture of the options returns that destination; when it
    returns a response early, the platform is a simulator platform and the
    resolver throws.  The branch for an unsupported platform and the [catch]
    are never reached through the destination, and no log line is written. *)
Theorem build_destination_agrees_with_resolver (opts : BuildUtils.PlatformBuildOptions) :
  let resolved :=
    More.resolverResult (BuildUtils.platform opts) (BuildUtils.simulatorName opts)
      (BuildUtils.simulatorId opts) (BuildUtils.useLatestOS opts) (BuildUtils.arch opts) in
  match BuildUtils.buildDestination opts with
  | (logs, Return (inl destination)) => logs = [] /\ resolved = Return destination
  | (logs, Return (inr text)) =>
      logs = []
      /\ Xcode.isSimulatorPlatform (BuildUtils.platform opts) = true
      /\ text = "For " ++ platformString (BuildUtils.platform opts)
                  ++ " platform, either simulatorId or simulatorName must be provided"
      /\ exists errorMessage, resolved = Throw errorMessage
  | (_, Throw _) => False
  end.
Proof.
  destruct opts as [p name id latest arch logPrefix].
  unfold More.resolverResult, BuildUtils.buildDestination,
    Xcode.constructDestinationString.
  cbn [BuildUtils.platform BuildUtils.simulatorName BuildUtils.simulatorId
       BuildUtils.useLatestOS BuildUtils.arch].
  destruct p; simpl;
    repeat match goal with
           | |- context [truthy ?x] => destruct (truthy x)
           end;
    simpl; repeat split; try reflexivity; eexists; reflexivity.
Qed.

(** X7. The destination of [_handleGetAppPathLogic] is the one the resolver
    gives for the same platform, name, identifier and OS flag, for every
    platform but macOS; and the function returns its response early exactly
    when the resolver throws.  For macOS the destination names the two
    architectures, whatever the parameters. *)
Theorem app_path_destination_agrees_with_resolver
    (params : AppPath.Params) (arch : option string) :
  let resolved :=
    More.resolverResult (AppPath.platform params) (AppPath.simulatorName params)
      (AppPath.simulatorId params) (Some (AppPath.useLatestOS params)) arch in
  if platform_eqb (AppPath.platform params) macOS
  then AppPath.destinationString params = inl "platform=macOS,arch=arm64,arch=x86_64"
  else match AppPath.destinationString params with
       | inl destination => resolved = Return destination
       | inr text =>
           text = "For " ++ platformString (AppPath.platform params)
                    ++ " platform, either simulatorId or simulatorName must be provided"
           /\ exists errorMessage, resolved = Throw errorMessage
       end.
Proof.
  destruct params as [ws proj scheme conf p name id latest].
  unfold More.resolverResult, AppPath.destinationString,
    Xcode.constructDestinationString.
  cbn [AppPath.platform AppPath.simulatorName AppPath.simulatorId AppPath.useLatestOS].
  destruct p; simpl;
    repeat match goal with
           | |- context [truthy ?x] => destruct (truthy x)
           end;
    simpl; repeat split; try reflexivity; eexists; reflexivity.
Qed.

(* ================================================================== *)
(** * More on the result of an execution *)

Lemma append_not_empty_r (a b : string) : b <> EmptyString -> a ++ b <> EmptyString.
Proof. destruct a; simpl; [auto | discriminate]. Qed.

Lemma orElseOpt_not_empty (v : option string) (d : string) :
  d <> EmptyString -> orElseOpt v d <> EmptyString.
Proof.
  unfold orElseOpt. destruct v as [[|c s]|]; simpl; auto; discriminate.
Qed.

(** X8. Every result that reaches the caller, on the direct path and on the
    xcpretty path, after an exit, a spawn failure, a resolved or a rejected
    xcpretty promise: a success has a non-empty output and no error; a
    failure has an error, which is not empty. *)
Theorem result_is_never_silent
    (env : Xcode.Env) (command : list string) (logPrefix : string)
    (progressCallback : bool) (r : Xcode.XcodeCommandResponse) :
  Xcode.result (Xcode.executeXcodeCommand env command logPrefix progressCallback) = Some r ->
  if Xcode.success r
  then Xcode.output r <> EmptyString /\ Xcode.error r = None
  else exists e, Xcode.error r = Some e /\ e <> EmptyString.
Proof.
  unfold Xcode.executeXcodeCommand.
  destruct (Xcode.useXcpretty env command) as [[errMessage | calls x | calls errMessage]|].
  - discriminate.
  - unfold Xcode.executeWithXcpretty, Xcode.onResolved.
    destruct (Xcode.xstatus x =? 0); cbn [Xcode.result];
      intros H; inversion H; subst; cbn [Xcode.success Xcode.output Xcode.error].
    + split; [|reflexivity]. apply orElse_not_empty, append_not_empty_r. discriminate.
    + eexists. split; [reflexivity|]. apply orElseOpt_not_empty. discriminate.
  - unfold Xcode.executeWithXcpretty, Xcode.onRejected. cbn [Xcode.result].
    intros H; inversion H; subst; cbn [Xcode.success Xcode.output Xcode.error].
    eexists. split; [reflexivity | discriminate].
  - destruct (Xcode.child env) as [chunks exitCode | errMessage errno | errMessage].
    + rewrite result_on_exit.
      destruct (Xcode.isExitZero exitCode);
        intros H; inversion H; subst; cbn [Xcode.success Xcode.output Xcode.error].
      * split; [|reflexivity]. apply orElse_not_empty, append_not_empty_r. discriminate.
      * eexists. split; [reflexivity|]. apply orElse_not_empty. discriminate.
    + rewrite (proj1 (result_on_spawn_failure _ _ _ _ _ _ _)).
      intros H; inversion H; subst; cbn [Xcode.success Xcode.output Xcode.error].
      eexists. split; [reflexivity | discriminate].
    + discriminate.
Qed.

Lemma result_is_never_silent_witness :
  Xcode.output (Xcode.mkResponse true "Build operation completed successfully" None)
    <> EmptyString
  /\ Xcode.error (Xcode.mkResponse true "Build operation completed successfully" None)
     = None.
Proof.
  exact (result_is_never_silent
           (Xcode.mkEnv (fun _ => 0) None (Xcode.Exits [] (Some 0)))
           ["xcodebuild"; "build"] "Build" false
           (Xcode.mkResponse true "Build operation completed successfully" None)
           eq_refl).
Defined.

(** X9. The result of an execution does not depend on the progress
    reporting: it is the same with and without a callback, and whatever the
    clock says. *)
Theorem result_ignores_clock_and_callback
    (now1 now2 : nat -> Z) (helper : option Xcode.XcprettyRun) (run : Xcode.ProcessRun)
    (command : list string) (logPrefix : string) (callback1 callback2 : bool) :
  Xcode.result
    (Xcode.executeXcodeCommand (Xcode.mkEnv now1 helper run) command logPrefix callback1)
  = Xcode.result
      (Xcode.executeXcodeCommand (Xcode.mkEnv now2 helper run) command logPrefix callback2).
Proof.
  unfold Xcode.executeXcodeCommand.
  change (Xcode.useXcpretty (Xcode.mkEnv now2 helper run) command)
    with (Xcode.useXcpretty (Xcode.mkEnv now1 helper run) command).
  destruct (Xcode.useXcpretty _ command) as [[errMessage | calls x | calls errMessage]|];
    cbn [Xcode.child Xcode.dateNow].
  - reflexivity.
  - unfold Xcode.executeWithXcpretty, Xcode.onResolved.
    destruct (Xcode.xstatus x =? 0); reflexivity.
  - reflexivity.
  - destruct run as [chunks exitCode | errMessage errno | errMessage].
    + now rewrite !result_on_exit.
    + now rewrite !(proj1 (result_on_spawn_failure _ _ _ _ _ _ _)).
    + reflexivity.
Qed.

(* ================================================================== *)
(** * The processes an execution starts *)

Lemma onProgress_reports now cb st data :
  exists more,
    Xcode.x_trace (Xcode.onProgress now cb st data) = (Xcode.x_trace st ++ more)%list
    /\ forallb More.isReport more = true.
Proof.
  unfold Xcode.onProgress.
  destruct data as [d|]; [|exists []; now rewrite app_nil_r].
  destruct cb; [|exists []; now rewrite app_nil_r].
  destruct (truthy (Xcode.phase d));
    (destruct (_ - _ >? _); cbn [Xcode.x_trace];
     [eexists; split; [reflexivity | reflexivity] | exists []; now rewrite app_nil_r]).
Qed.

Lemma calls_report now cb calls st :
  exists more,
    Xcode.x_trace (fold_left (Xcode.onProgress now cb) calls st)
    = (Xcode.x_trace st ++ more)%list
    /\ forallb More.isReport more = true.
Proof.
  revert st. induction calls as [|data calls IH]; simpl; intros st.
  - exists []. now rewrite app_nil_r.
  - destruct (onProgress_reports now cb st data) as (m1 & E1 & H1).
    destruct (IH (Xcode.onProgress now cb st data)) as (m2 & E2 & H2).
    exists (m1 ++ m2)%list. split.
    + now rewrite E2, E1, app_assoc.
    + now rewrite forallb_app, H1, H2.
Qed.

(** Membership of a [Spawn] in a list of effects made of known effects and
    of reports: the known ones are looked at, the reports have none. *)
Ltac sort_out_spawns H :=
  let Hin := fresh "Hin" in
  intros ? ? Hin;
  repeat (apply in_app_or in Hin as [Hin | Hin] || destruct Hin as [Hin | Hin]);
  try discriminate Hin; try contradiction;
  try (inversion Hin; subst; auto; fail);
  now apply H in Hin.

(** X10. An execution starts one child process, [sh -c] with the command
    string, when the command is run by the standard method, at once or as
    the fallback; it starts none when xcpretty runs the command.  xcpretty is
    called once when it is used, never otherwise.  No other process is
    started. *)
Theorem one_child_per_execution
    (env : Xcode.Env) (command : list string) (logPrefix : string)
    (progressCallback : bool) :
  let evs :=
    Xcode.events (Xcode.executeXcodeCommand env command logPrefix progressCallback) in
  (spawnCount evs, More.xcprettyCalls evs)
  = match Xcode.useXcpretty env command with
    | None => (1, 0)
    | Some (Xcode.HelperThrows _) => (1, 1)
    | Some (Xcode.HelperResolves _ _) | Some (Xcode.HelperRejects _ _) => (0, 1)
    end%nat
  /\ forall file args,
       In (Spawn file args) evs ->
       file = "sh" /\ args = ["-c"; join " " (map Xcode.escapeArg command)].
Proof.
  cbv zeta. unfold Xcode.executeXcodeCommand.
  destruct (Xcode.useXcpretty env command) as [[errMessage | calls x | calls errMessage]|].
  1, 4: unfold Xcode.executeWithXcpretty; cbn [Xcode.events Xcode.x_trace];
        match goal with
        | |- context [Xcode.executeStandard ?n ?l ?c ?b ?cs ?r] =>
            destruct (standard_execution_effects n l c b cs r) as (more & -> & Hm)
        end;
        destruct (reports_count more Hm) as (H1 & H2 & H3);
        destruct progressCallback; split; try sort_out_spawns H3;
        rewrite !spawnCount_app, !xcprettyCalls_app; simpl; now rewrite H1, H2.
  all: unfold Xcode.executeWithXcpretty, Xcode.onResolved, Xcode.onRejected;
       match goal with
       | |- context [fold_left (Xcode.onProgress ?n ?c) ?l ?st] =>
           destruct (calls_report n c l st) as (more & E & Hm)
       end;
       cbn [Xcode.x_trace] in E;
       destruct (reports_count more Hm) as (H1 & H2 & H3);
       try match goal with |- context [?a =? 0] => destruct (a =? 0) end;
       destruct progressCallback; cbn [Xcode.events]; rewrite E;
       split; try sort_out_spawns H3;
       rewrite !spawnCount_app, !xcprettyCalls_app; simpl; now rewrite H1, H2.
Qed.

(* ================================================================== *)
(** * More on the progress updates *)

Lemma updates_kept_without_callback now logPrefix before commandString run :
  progressUpdates
    (Xcode.events (Xcode.executeStandard now logPrefix false before commandString run))
  = progressUpdates before.
Proof.
  unfold Xcode.executeStandard, Xcode.runStandard.
  set (Keeps := fun st : Xcode.State =>
                  progressUpdates (Xcode.trace st) = progressUpdates before).
  assert (H0 : Keeps (Xcode.initialState (before ++ [Spawn "sh" ["-c"; commandString]]))).
  { unfold Keeps. cbn [Xcode.initialState Xcode.trace].
    rewrite progressUpdates_app. simpl. apply app_nil_r. }
  assert (Hout : forall chunks st,
             Keeps st ->
             Keeps (fold_left (Xcode.handle now logPrefix false)
                      (map Xcode.chunkEvent chunks) st)).
  { intros chunks. apply (Inv_output now false Keeps); unfold Keeps.
    - intros phase st0 _ H. exact H.
    - intros st0 H. unfold Xcode.countCompiledFile. destruct (Double.gtb _ _); exact H.
    - intros message forceSend st0 H. exact H.
    - intros _ g1 g2 st0 _ H. unfold Xcode.fileCountSeen. destruct (Double.gtb _ _); exact H.
    - intros text st0 H. exact H.
    - intros text st0 H. exact H.
    - intros level text st0 H. cbn [Xcode.emit Xcode.trace].
      now rewrite progressUpdates_snoc_log. }
  assert (Hclose : forall exitCode st,
             Keeps st -> Keeps (Xcode.onClose logPrefix false exitCode st)).
  { unfold Keeps. intros exitCode st H. unfold Xcode.onClose.
    destruct (Xcode.isExitZero exitCode); cbn [Xcode.emit Xcode.resolve Xcode.trace];
      now rewrite !progressUpdates_snoc_log. }
  destruct run as [chunks exitCode | errMessage errno | errMessage];
    cbn [Xcode.events Xcode.processEvents].
  - rewrite fold_left_snoc. apply Hclose, Hout, H0.
  - cbn [fold_left Xcode.handle]. apply Hclose. unfold Keeps, Xcode.onError.
    cbn [Xcode.emit Xcode.resolve Xcode.trace]. now rewrite progressUpdates_snoc_log.
  - exact H0.
Qed.

Lemma calls_kept_without_callback now calls st :
  fold_left (Xcode.onProgress now false) calls st = st.
Proof.
  induction calls as [|data calls IH]; simpl; [reflexivity|].
  replace (Xcode.onProgress now false st data) with st; [exact IH|].
  unfold Xcode.onProgress. now destruct data.
Qed.

(** X11. Without a progress callback an execution sends no progress update
    at all, on any path and whatever the child or xcpretty does. *)
Theorem no_callback_no_updates
    (env : Xcode.Env) (command : list string) (logPrefix : string) :
  progressUpdates (Xcode.events (Xcode.executeXcodeCommand env command logPrefix false))
  = [].
Proof.
  unfold Xcode.executeXcodeCommand.
  destruct (Xcode.useXcpretty env command) as [[errMessage | calls x | calls errMessage]|];
    unfold Xcode.executeWithXcpretty; cbn [Xcode.events Xcode.x_trace].
  - now rewrite updates_kept_without_callback.
  - rewrite calls_kept_without_callback. unfold Xcode.onResolved.
    destruct (Xcode.xstatus x =? 0); reflexivity.
  - rewrite calls_kept_without_callback. reflexivity.
  - now rewrite updates_kept_without_callback.
Qed.

Lemma substring_length (n : nat) (s : string) :
  String.length (substring 0 n s) = Nat.min n (String.length s).
Proof.
  revert s. induction n as [|n IH]; intros [|c s]; simpl; try reflexivity.
  now rewrite IH.
Qed.

Lemma substring_is_prefix (n : nat) (s : string) :
  exists rest, s = substring 0 n s ++ rest.
Proof.
  revert s. induction n as [|n IH]; intros [|c s]; simpl.
  - now exists EmptyString.
  - now exists (String c s).
  - now exists EmptyString.
  - destruct (IH s) as (rest & E). exists rest. now rewrite <- E.
Qed.

(** X12. When the child of [executeStandard] exits with a code other than 0
    and there is a callback, the last update is the [failed] one, its
    message names the exit code, and its details are exactly the first 500
    characters of the captured standard error: all of it when it is no
    longer than that. *)
Theorem failure_update_carries_stderr
    (now : nat -> Z) (logPrefix : string) (before : list Event) (commandString : string)
    (chunks : list Xcode.OutputChunk) (exitCode : option Z) :
  exitCode <> Some 0 ->
  (exists earlier estimate,
      progressUpdates
        (Xcode.events
           (Xcode.executeStandard now logPrefix true before commandString
              (Xcode.Exits chunks exitCode)))
      = (earlier
           ++ [mkUpdate failed estimate
                 (logPrefix ++ " failed with exit code " ++ Xcode.showExitCode exitCode)
                 (Some (substring 0 500 (errText chunks)))])%list)
  /\ (exists rest, errText chunks = substring 0 500 (errText chunks) ++ rest)
  /\ String.length (substring 0 500 (errText chunks))
     = Nat.min 500 (String.length (errText chunks)).
Proof.
  intros Hcode.
  assert (Hz : Xcode.isExitZero exitCode = false).
  { destruct (Xcode.isExitZero exitCode) eqn:E; [|reflexivity].
    now apply isExitZero_iff in E. }
  split; [|split; [apply substring_is_prefix | apply substring_length]].
  unfold Xcode.executeStandard, Xcode.runStandard, Xcode.processEvents.
  rewrite fold_left_snoc. cbn [Xcode.events Xcode.handle].
  match goal with
  | |- context [fold_left ?f (map Xcode.chunkEvent chunks) ?st0] =>
      destruct (output_captured now logPrefix true chunks st0) as (_ & Herr & _);
      set (st := fold_left f (map Xcode.chunkEvent chunks) st0) in *
  end.
  simpl in Herr.
  rewrite updates_onClose, Hz, Herr.
  exists (progressUpdates (Xcode.trace st)), (Xcode.estimatedProgress st).
  reflexivity.
Qed.

Lemma failure_update_carries_stderr_witness :
  (exists earlier estimate,
      progressUpdates
        (Xcode.events
           (Xcode.executeStandard (fun _ => 0) "Build" true [] "xcodebuild build"
              (Xcode.Exits [Xcode.OnStderr "error: no such scheme"] (Some 65))))
      = (earlier
           ++ [mkUpdate failed estimate "Build failed with exit code 65"
                 (Some "error: no such scheme")])%list)
  /\ (exists rest, "error: no such scheme" = "error: no such scheme" ++ rest)
  /\ String.length "error: no such scheme" = 21%nat.
Proof.
  apply (failure_update_carries_stderr (fun _ => 0) "Build" [] "xcodebuild build"
           [Xcode.OnStderr "error: no such scheme"] (Some 65)).
  discriminate.
Defined.

(** ** The throttle of the updates *)

Lemma countIf_app {A : Type} (p : A -> bool) (l1 l2 : list A) :
  More.countIf p (l1 ++ l2) = More.countIf p l1 + More.countIf p l2.
Proof. induction l1 as [|a l1 IH]; simpl; [reflexivity | rewrite IH; lia]. Qed.

Section SentMessages.

Variable now : nat -> Z.
Variable progressCallback : bool.

(** As in the section of the listeners above, with the messages of the two
    updates the listeners send themselves. *)
Variable Inv : Xcode.State -> Prop.

Hypothesis Inv_transition : forall phase st,
  In phase Xcode.buildPhases -> Inv st ->
  Inv (Xcode.phaseTransition now progressCallback phase st).
Hypothesis Inv_count : forall st, Inv st -> Inv (Xcode.countCompiledFile st).
Hypothesis Inv_line : forall line st,
  Inv st ->
  Inv (Xcode.sendProgressUpdate now progressCallback
         ("Processing: " ++ substring 0 80 line ++ "...") false st).
Hypothesis Inv_files : forall line group1 group2 st,
  matchFileCount line = Some (group1, group2) -> Inv st ->
  Inv (Xcode.fileCountSeen now progressCallback group1 group2 st).
Hypothesis Inv_warning : forall chunk st,
  Inv st ->
  Inv (Xcode.sendProgressUpdate now progressCallback
         ("Warning: " ++ substring 0 100 chunk ++ "...") true st).
Hypothesis Inv_stdout : forall text st, Inv st -> Inv (Xcode.set_stdout text st).
Hypothesis Inv_stderr : forall text st, Inv st -> Inv (Xcode.set_stderr text st).
Hypothesis Inv_log : forall level text st,
  Inv st -> Inv (Xcode.emit (Log level text) st).

Lemma Sent_phaseSeen (phase line : string) (st : Xcode.State) :
  In phase Xcode.buildPhases -> Inv st ->
  Inv (Xcode.phaseSeen now progressCallback phase line st).
Proof.
  intros Hin H. unfold Xcode.phaseSeen.
  apply Inv_line.
  destruct (String.eqb phase "CompileC" || String.eqb phase "CompileSwift");
    [apply Inv_count|];
    (destruct (negb (String.eqb (Xcode.currentPhase st) phase));
     [now apply Inv_transition | assumption]).
Qed.

Lemma Sent_detectPhase (phases : list string) (line : string) (st : Xcode.State) :
  incl phases Xcode.buildPhases -> Inv st ->
  Inv (Xcode.detectPhase now progressCallback phases line st).
Proof.
  induction phases as [|phase phases IH]; simpl; intros Hincl H; [assumption|].
  destruct (includes line phase).
  - apply Sent_phaseSeen; [apply Hincl; now left | assumption].
  - apply IH; [|assumption]. intros x Hx. apply Hincl. now right.
Qed.

Lemma Sent_lines (lines : list string) (st : Xcode.State) :
  Inv st -> Inv (fold_left (Xcode.processLine now progressCallback) lines st).
Proof.
  revert st. induction lines as [|line lines IH]; simpl; intros st H; [assumption|].
  apply IH. unfold Xcode.processLine, Xcode.detectFileCount.
  pose proof (Sent_detectPhase Xcode.buildPhases line st (incl_refl _) H) as H'.
  destruct (matchFileCount line) as [[group1 group2]|] eqn:E; [|assumption].
  now apply (Inv_files line).
Qed.

Lemma Sent_if (c : bool) (st1 st2 : Xcode.State) :
  Inv st1 -> Inv st2 -> Inv (if c then st1 else st2).
Proof. now destruct c. Qed.

Lemma Sent_output (logPrefix : string) (chunks : list Xcode.OutputChunk)
    (st : Xcode.State) :
  Inv st ->
  Inv (fold_left (Xcode.handle now logPrefix progressCallback)
         (map Xcode.chunkEvent chunks) st).
Proof.
  revert st. induction chunks as [|c chunks IH]; simpl; intros st H; [assumption|].
  apply IH. destruct c as [chunk | chunk]; simpl.
  - unfold Xcode.onStdout.
    apply Sent_if; [apply Sent_lines|]; now apply Inv_stdout.
  - unfold Xcode.onStderr.
    apply Sent_if; [apply Inv_warning|]; apply Inv_log; now apply Inv_stderr.
Qed.

End SentMessages.

Lemma throttled_send now tmin tmax msg forceSend st :
  More.monotone now -> More.within now tmin tmax ->
  (forceSend = true -> String.prefix "Processing: " msg = false) ->
  More.throttled now tmin st ->
  More.throttled now tmin (Xcode.sendProgressUpdate now true msg forceSend st).
Proof.
  intros Hmono Hw Hforced H. unfold More.throttled, Xcode.sendProgressUpdate in *.
  cbv zeta in *. cbn [andb].
  pose proof (Hw (Xcode.clockReads st)) as Hnow.
  assert (Hlast : forall i, (i < Xcode.clockReads st)%nat ->
                            now i <= now (Xcode.clockReads st))
    by (intros i Hi; apply Hmono; lia).
  destruct forceSend.
  - cbn [orb]. unfold Xcode.emit.
    cbn [Xcode.trace Xcode.lastProgressUpdate Xcode.clockReads Xcode.set_lastProgressUpdate
         Xcode.set_clockReads].
    rewrite progressUpdates_snoc, countIf_app.
    cbn [More.countIf]. repeat match goal with
    | |- context [More.isLineUpdate (mkUpdate running ?p ?m ?d)] =>
        change (More.isLineUpdate (mkUpdate running p m d))
          with (String.prefix "Processing: " m)
    end.
    rewrite (Hforced eq_refl).
    destruct H as [H | (H & i & Hi & E)]; [left; lia | right].
    split; [specialize (Hlast i Hi); lia | exists (Xcode.clockReads st); split; [lia | reflexivity]].
  - cbn [orb]. 
    cbn [Xcode.trace Xcode.lastProgressUpdate Xcode.clockReads Xcode.set_lastProgressUpdate
         Xcode.set_clockReads].
    destruct (Z.gtb_spec (now (Xcode.clockReads st) - Xcode.lastProgressUpdate st)
                Xcode.progressUpdateInterval) as [Hgap | _].
    + unfold Xcode.emit, Xcode.progressUpdateInterval in *.
      cbn [Xcode.trace Xcode.lastProgressUpdate Xcode.clockReads Xcode.set_lastProgressUpdate
           Xcode.set_clockReads].
      rewrite progressUpdates_snoc, countIf_app.
      cbn [More.countIf]. repeat match goal with
    | |- context [More.isLineUpdate (mkUpdate running ?p ?m ?d)] =>
        change (More.isLineUpdate (mkUpdate running p m d))
          with (String.prefix "Processing: " m)
    end.
      right. split.
      * destruct (String.prefix "Processing: " msg);
          destruct H as [H | (H & i & Hi & E)]; lia.
      * exists (Xcode.clockReads st). split; [lia | reflexivity].
    + cbn [Xcode.trace Xcode.lastProgressUpdate Xcode.clockReads Xcode.set_clockReads].
      destruct H as [H | (H & i & Hi & E)]; [now left | right].
      split; [exact H | exists i; split; [lia | exact E]].
Qed.

Lemma throttled_output now tmin tmax logPrefix chunks st :
  More.monotone now -> More.within now tmin tmax ->
  More.throttled now tmin st ->
  More.throttled now tmin
    (fold_left (Xcode.handle now logPrefix true) (map Xcode.chunkEvent chunks) st).
Proof.
  intros Hmono Hw. apply Sent_output.
  - intros phase st0 Hin H. unfold Xcode.phaseTransition.
    apply (throttled_send now tmin tmax); try assumption.
    intros _. simpl in Hin.
    destruct Hin as [<-|[<-|[<-|[<-|[]]]]]; reflexivity.
  - intros st0 H. unfold Xcode.countCompiledFile.
    destruct (Double.gtb _ _); exact H.
  - intros line st0 H. apply (throttled_send now tmin tmax); try assumption. discriminate.
  - intros _ g1 g2 st0 _ H. unfold Xcode.fileCountSeen.
    destruct (Double.gtb _ _); [|exact H].
    apply (throttled_send now tmin tmax); try assumption. reflexivity.
  - intros chunk st0 H. apply (throttled_send now tmin tmax); try assumption. reflexivity.
  - intros text st0 H. exact H.
  - intros text st0 H. exact H.
  - intros level text st0 H. unfold More.throttled, Xcode.emit in *.
    cbn [Xcode.trace Xcode.lastProgressUpdate Xcode.clockReads].
    rewrite progressUpdates_snoc_log. exact H.
Qed.

Lemma isLineUpdate_terminal (u : ToolProgressUpdate) :
  isTerminal u -> More.isLineUpdate u = false.
Proof. unfold isTerminal, More.isLineUpdate. now intros [-> | ->]. Qed.

Lemma standard_lines_throttled now tmin tmax logPrefix before commandString run :
  More.monotone now -> More.within now tmin tmax ->
  More.countIf More.isLineUpdate (progressUpdates before) = 0 ->
  1001 * (More.countIf More.isLineUpdate
            (progressUpdates
               (Xcode.events
                  (Xcode.executeStandard now logPrefix true before commandString run))) - 1)
  <= tmax - tmin.
Proof.
  intros Hmono Hw Hbefore.
  assert (H0 : More.throttled now tmin
                 (Xcode.initialState (before ++ [Spawn "sh" ["-c"; commandString]]))).
  { left. cbn [Xcode.initialState Xcode.trace].
    rewrite progressUpdates_app. cbn [progressUpdates]. now rewrite app_nil_r. }
  assert (Hend : forall st, More.throttled now tmin st ->
            1001 * (More.countIf More.isLineUpdate (progressUpdates (Xcode.trace st)) - 1)
            <= tmax - tmin).
  { intros st [H | (H & i & _ & E)].
    - rewrite H. pose proof (Hw 0%nat). lia.
    - pose proof (Hw i). lia. }
  unfold Xcode.executeStandard, Xcode.runStandard.
  destruct run as [chunks exitCode | errMessage errno | errMessage];
    cbn [Xcode.events Xcode.processEvents].
  - rewrite fold_left_snoc. cbn [Xcode.handle].
    apply (throttled_output now tmin tmax logPrefix chunks) in H0; try assumption.
    set (st := fold_left _ _ _) in *.
    rewrite updates_onClose, countIf_app. cbn [More.countIf].
    rewrite isLineUpdate_terminal
      by (unfold isTerminal; cbn [status]; destruct (Xcode.isExitZero exitCode); auto).
    specialize (Hend st H0). lia.
  - cbn [fold_left Xcode.handle].
    set (st0 := Xcode.initialState _) in *.
    destruct (updates_onError logPrefix errMessage st0) as (E1 & _ & _).
    rewrite updates_onClose, E1, !countIf_app. cbn [More.countIf].
    rewrite !isLineUpdate_terminal by (unfold isTerminal; cbn; auto).
    specialize (Hend st0 H0). lia.
  - exact (Hend _ H0).
Qed.

(** X15. On the standard path, with a callback, the updates that report a
    line of output (status [running], message [Processing: ...]) are
    throttled: when the clock does not go back and every reading of it lies
    between [tmin] and [tmax], there is at most one of them plus one for
    every 1001 milliseconds between [tmin] and [tmax], whatever the child
    prints.  The updates of phases, file counts and warnings are forced and
    not bounded so; they reset the time stamp the throttle compares with. *)
Theorem line_updates_are_throttled
    (env : Xcode.Env) (command : list string) (logPrefix : string) (tmin tmax : Z) :
  More.monotone (Xcode.dateNow env) ->
  More.within (Xcode.dateNow env) tmin tmax ->
  standardPath env command ->
  1001 * (More.countIf More.isLineUpdate
            (progressUpdates
               (Xcode.events (Xcode.executeXcodeCommand env command logPrefix true))) - 1)
  <= tmax - tmin.
Proof.
  intros Hmono Hw. unfold standardPath, Xcode.executeXcodeCommand.
  destruct (Xcode.useXcpretty env command) as [[errMessage | calls r | calls errMessage]|];
    intros Hpath; try contradiction.
  - unfold Xcode.executeWithXcpretty. cbn [Xcode.events Xcode.x_trace].
    apply standard_lines_throttled; try assumption. reflexivity.
  - apply standard_lines_throttled; try assumption. reflexivity.
Qed.

Lemma line_updates_are_throttled_witness :
  1001 * (More.countIf More.isLineUpdate
            (progressUpdates
               (Xcode.events
                  (Xcode.executeXcodeCommand
                     (Xcode.mkEnv (fun n => 5000 + 600 * Z.of_nat (Nat.min n 4)) None
                        (Xcode.Exits
                           [Xcode.OnStdout
                              (String.concat (String LF EmptyString)
                                 ["CompileC a.c"; "CompileC b.c"; "CompileC c.c"])]
                           (Some 0)))
                     ["xcodebuild"; "build"] "Build" true))) - 1)
  <= 7400 - 5000.
Proof.
  apply (line_updates_are_throttled
           (Xcode.mkEnv (fun n => 5000 + 600 * Z.of_nat (Nat.min n 4)) None
              (Xcode.Exits
                 [Xcode.OnStdout
                    (String.concat (String LF EmptyString)
                       ["CompileC a.c"; "CompileC b.c"; "CompileC c.c"])]
                 (Some 0)))
           ["xcodebuild"; "build"] "Build" 5000 7400).
  - intros n m Hnm. cbn [Xcode.dateNow]. lia.
  - intros n. cbn [Xcode.dateNow]. lia.
  - exact I.
Defined.

(** ** The command string, as [sh] reads it *)

Lemma addChar_cons (c : ascii) (w : string) (r : option (list string)) :
  Shell.addChar c (option_map (cons w) r) = option_map (cons (String c w)) r.
Proof. now destruct r. Qed.

Lemma isOrdinary_plain (c : ascii) :
  Shell.isOrdinary c = true -> Shell.isBlank c = false /\ Ascii.eqb c dquote = false.
Proof.
  unfold Shell.isOrdinary, Shell.isBlank. cbn [existsb].
  destruct (Ascii.eqb c " "), (Ascii.eqb c "009"), (Ascii.eqb c dquote) eqn:E;
    try (rewrite ?orb_true_r; discriminate); try (split; reflexivity).
  unfold dquote in E. rewrite E. rewrite ?orb_true_r. discriminate.
Qed.



Lemma scan_plain (w tail : string) :
  Xcode.anyChar (fun c => negb (Shell.isOrdinary c)) w = false ->
  (tail = EmptyString \/ exists rest, tail = String " " rest) ->
  Shell.scan Shell.Plain (w ++ tail) = option_map (cons w) (More.afterWord tail).
Proof.
  intros Hw Htail. induction w as [|c w IH].
  - destruct Htail as [-> | [rest ->]]; reflexivity.
  - cbn [Xcode.anyChar] in Hw. apply orb_false_iff in Hw as [Hc Hw].
    apply negb_false_iff in Hc. destruct (isOrdinary_plain c Hc) as [Hb _].
    cbn [append Shell.scan]. rewrite Hb, Hc, (IH Hw). apply addChar_cons.
Qed.

Lemma scan_quoted (t tail : string) :
  Xcode.anyChar Sh.breaksLiteral t = false ->
  Shell.scan Shell.Quoted (Xcode.escapeQuotes t ++ String dquote tail)
  = option_map (cons t) (More.afterWord tail).
Proof.
  intros Ht. induction t as [|c t IH].
  - cbn [Xcode.escapeQuotes append Shell.scan]. rewrite Ascii.eqb_refl.
    destruct tail as [|b rest]; [reflexivity|]. unfold More.afterWord, Shell.newWord.
    now destruct (Shell.isBlank b).
  - cbn [Xcode.anyChar] in Ht. apply orb_false_iff in Ht as [Hc Ht]. specialize (IH Ht).
    cbn [Xcode.escapeQuotes].
    destruct (Ascii.eqb c dquote) eqn:Hq.
    + cbn [orb append Shell.scan].
      change (Ascii.eqb backslash dquote) with false.
      change (Sh.breaksLiteral backslash) with false.
      change (Ascii.eqb backslash backslash) with true. cbv iota.
      rewrite Hq. cbn [orb]. rewrite IH. apply addChar_cons.
    + destruct (Ascii.eqb c backslash) eqn:Hb.
      * cbn [orb append Shell.scan].
        change (Ascii.eqb backslash dquote) with false.
        change (Sh.breaksLiteral backslash) with false.
        change (Ascii.eqb backslash backslash) with true. cbv iota.
        rewrite Hq, Hb. cbn [orb]. rewrite IH. apply addChar_cons.
      * cbn [orb append Shell.scan]. rewrite Hq, Hc, Hb, IH. apply addChar_cons.
Qed.

Lemma scan_token (t tail : string) :
  More.readable t ->
  (tail = EmptyString \/ exists rest, tail = String " " rest) ->
  Shell.scan Shell.Between (Xcode.escapeArg t ++ tail)
  = option_map (cons t) (More.afterWord tail).
Proof.
  intros (Hne & Hq & Hx & Hord) Htail. unfold Xcode.escapeArg. rewrite Hq.
  destruct (Xcode.needsQuoting t) eqn:Hn; cbn [andb negb].
  - cbn [append Shell.scan]. rewrite Ascii.eqb_refl.
    change (Shell.isBlank dquote) with false. cbv iota.
    rewrite append_assoc. cbn [append]. now apply scan_quoted.
  - specialize (Hord eq_refl). destruct t as [|c t]; [contradiction|].
    cbn [Xcode.anyChar] in Hord. apply orb_false_iff in Hord as [Hc Ht].
    apply negb_false_iff in Hc. destruct (isOrdinary_plain c Hc) as [Hb Hd].
    cbn [append Shell.scan]. rewrite Hb, Hd, Hc, (scan_plain t tail Ht Htail).
    apply addChar_cons.
Qed.

Lemma join_cons (sep p : string) (rest : list string) :
  rest <> [] -> join sep (p :: rest) = p ++ sep ++ join sep rest.
Proof. destruct rest; [contradiction | reflexivity]. Qed.

(** ** The first word of the command string *)

Lemma upToBlank_plain (w tail : string) :
  Xcode.anyChar (fun c => negb (Shell.isOrdinary c)) w = false ->
  (tail = EmptyString \/ exists rest, tail = String " " rest) ->
  Shell.upToBlank (w ++ tail) = w.
Proof.
  intros Hw Htail. induction w as [|c w IH].
  - destruct Htail as [-> | [rest ->]]; reflexivity.
  - cbn [Xcode.anyChar] in Hw. apply orb_false_iff in Hw as [Hc Hw].
    apply negb_false_iff in Hc. destruct (isOrdinary_plain c Hc) as [Hb _].
    cbn [append Shell.upToBlank]. now rewrite Hb, (IH Hw).
Qed.

(** The first word of a token as the executor writes it, more words after
    it or none: the token itself when it is written bare, and a word that
    begins with a double quote otherwise. *)
Lemma first_word_of_token (t tail : string) :
  More.readable t ->
  (tail = EmptyString \/ exists rest, tail = String " " rest) ->
  existsb (String.eqb t) Shell.reservedWords = false ->
  Shell.beginsWithReservedWord (Xcode.escapeArg t ++ tail) = false.
Proof.
  intros (Hne & Hq & Hx & Hord) Htail Hres.
  unfold Shell.beginsWithReservedWord, Xcode.escapeArg. rewrite Hq.
  destruct (Xcode.needsQuoting t) eqn:Hn; cbn [andb negb].
  - reflexivity.
  - specialize (Hord eq_refl). destruct t as [|c t]; [contradiction|].
    pose proof Hord as Hall.
    cbn [Xcode.anyChar] in Hord. apply orb_false_iff in Hord as [Hc Ht].
    apply negb_false_iff in Hc. destruct (isOrdinary_plain c Hc) as [Hb _].
    cbn [append Shell.skipBlanks]. rewrite Hb.
    change (String c (t ++ tail)) with (String c t ++ tail).
    now rewrite (upToBlank_plain (String c t) tail Hall Htail).
Qed.

Lemma first_word_of_command (command : list string) :
  Forall (fun t => t = EmptyString \/ More.readable t) command ->
  More.namesCommand command ->
  Shell.beginsWithReservedWord (join " " (map Xcode.escapeArg command)) = false.
Proof.
  induction 1 as [|t rest Ht _ IH]; [reflexivity|].
  intros Hname. destruct rest as [|t' rest].
  - cbn [map join]. destruct Ht as [-> | Ht]; [reflexivity|].
    rewrite <- (append_empty_r (Xcode.escapeArg t)).
    apply first_word_of_token; [exact Ht | now left |].
    unfold More.namesCommand, More.nonEmptyTokens in Hname. cbn [filter] in Hname.
    destruct Ht as (Hne & _). destruct t; [contradiction | exact Hname].
  - change (map Xcode.escapeArg (t :: t' :: rest))
      with (Xcode.escapeArg t :: map Xcode.escapeArg (t' :: rest)).
    rewrite join_cons by discriminate.
    destruct Ht as [-> | Ht].
    + apply IH. exact Hname.
    + change (" " ++ ?x) with (String " " x).
      apply first_word_of_token; [exact Ht | right; eexists; reflexivity |].
      unfold More.namesCommand, More.nonEmptyTokens in Hname. cbn [filter] in Hname.
      destruct Ht as (Hne & _). destruct t; [contradiction | exact Hname].
Qed.

Lemma scan_command (command : list string) :
  Forall (fun t => t = EmptyString \/ More.readable t) command ->
  Shell.scan Shell.Between (join " " (map Xcode.escapeArg command))
  = Some (More.nonEmptyTokens command).
Proof.
  induction 1 as [|t rest Ht _ IH]; [reflexivity|].
  destruct rest as [|t' rest].
  - cbn [map join]. destruct Ht as [-> | Ht]; [reflexivity|].
    rewrite <- (append_empty_r (Xcode.escapeArg t)).
    rewrite (scan_token t EmptyString Ht (or_introl eq_refl)).
    destruct Ht as (Hne & _). destruct t; [contradiction | reflexivity].
  - change (map Xcode.escapeArg (t :: t' :: rest))
      with (Xcode.escapeArg t :: map Xcode.escapeArg (t' :: rest)).
    rewrite join_cons by discriminate.
    destruct Ht as [-> | Ht].
    + exact IH.
    + change (" " ++ ?x) with (String " " x).
      rewrite (scan_token t _ Ht (or_intror (ex_intro _ _ eq_refl))).
      cbn [More.afterWord]. change (Shell.isBlank " ") with true. cbv iota.
      rewrite IH. destruct Ht as (Hne & _). destruct t; [contradiction | reflexivity].
Qed.

(** X16. The command string read back: when every token of the command is
    empty or readable (not taken for quoted already, no dollar sign, no
    backquote and no NUL character, and made of ordinary characters when the
    executor leaves it bare), and the first token that is not empty is not a
    reserved word of the shell, [sh] reads the string handed to it as a
    simple command whose words are the tokens of the command that are not
    empty, in order.  The empty tokens are lost: the executor writes nothing
    for them. *)
Theorem command_string_reads_back (command : list string) :
  Forall (fun t => t = EmptyString \/ More.readable t) command ->
  More.namesCommand command ->
  Shell.words (join " " (map Xcode.escapeArg command))
  = Some (More.nonEmptyTokens command).
Proof.
  intros Hall Hname. unfold Shell.words.
  rewrite (first_word_of_command command Hall Hname).
  now apply scan_command.
Qed.

Lemma command_string_reads_back_witness :
  Shell.words
    (join " " (map Xcode.escapeArg
                 ["xcodebuild"; "-scheme"; "My App"; ""; "-destination";
                  "platform=iOS Simulator,name=iPhone 16"]))
  = Some ["xcodebuild"; "-scheme"; "My App"; "-destination";
          "platform=iOS Simulator,name=iPhone 16"].
Proof.
  apply (command_string_reads_back
           ["xcodebuild"; "-scheme"; "My App"; ""; "-destination";
            "platform=iOS Simulator,name=iPhone 16"]).
  - repeat (apply Forall_cons;
            [first [left; reflexivity
                   | right; split;
                     [discriminate
                     | split;
                       [reflexivity
                       | split;
                         [reflexivity
                         | intros H; first [discriminate H | reflexivity]]]]]|]).
    apply Forall_nil.
  - reflexivity.
Defined.

(** A command that begins with a reserved word is not a simple command:
    [sh] does not run the tokens [if] and [x] as a command with one
    argument. *)
Example reserved_word_is_no_command :
  Shell.words (join " " (map Xcode.escapeArg ["if"; "x"])) = None.
Proof. reflexivity. Qed.

(* ================================================================== *)
(** * The callers of the executor *)

(** What an execution does, for its callers: it calls [spawn] once and
    xcpretty never, and its promise resolves with a result, unless [spawn]
    throws: then it rejects with the error of [spawn]. *)
Lemma execution_summary env command logPrefix cb :
  spawnCount (Xcode.events (Xcode.executeXcodeCommand env command logPrefix cb)) = 1%nat
  /\ More.xcprettyCalls (Xcode.events (Xcode.executeXcodeCommand env command logPrefix cb))
     = 0%nat
  /\ match Xcode.child env with
     | Xcode.SpawnThrows errMessage =>
         Xcode.result (Xcode.executeXcodeCommand env command logPrefix cb) = None
         /\ Xcode.rejected (Xcode.executeXcodeCommand env command logPrefix cb)
            = Some errMessage
     | _ =>
         (exists r,
             Xcode.result (Xcode.executeXcodeCommand env command logPrefix cb) = Some r)
         /\ Xcode.rejected (Xcode.executeXcodeCommand env command logPrefix cb) = None
     end.
Proof.
  unfold Xcode.executeXcodeCommand. rewrite useXcpretty_never.
  match goal with
  | |- context [Xcode.executeStandard ?n ?l ?c ?b ?cs ?r] =>
      pose proof (standard_execution_settles n l c b cs r) as Hs;
      destruct (standard_execution_effects n l c b cs r) as (more & E & Hm)
  end.
  cbv zeta in Hs. rewrite E.
  destruct (reports_count more Hm) as (H1 & H2 & _).
  split; [|split; [|exact Hs]].
  - change (Spawn ?f ?a :: more) with ([Spawn f a] ++ more)%list.
    rewrite !spawnCount_app, H1. destruct cb; reflexivity.
  - change (Spawn ?f ?a :: more) with ([Spawn f a] ++ more)%list.
    rewrite !xcprettyCalls_app, H2. destruct cb; reflexivity.
Qed.

Lemma buildDestination_cases (opts : BuildUtils.PlatformBuildOptions) :
  if Xcode.isSimulatorPlatform (BuildUtils.platform opts)
     && negb (truthy (BuildUtils.simulatorId opts))
     && negb (truthy (BuildUtils.simulatorName opts))
  then BuildUtils.buildDestination opts
       = ([], Return (inr ("For " ++ platformString (BuildUtils.platform opts)
                             ++ " platform, either simulatorId or simulatorName must be provided")))
  else exists destination,
         BuildUtils.buildDestination opts = ([], Return (inl destination)).
Proof.
  destruct opts as [p name id latest arch logPrefix].
  unfold BuildUtils.buildDestination, Xcode.constructDestinationString.
  cbn [BuildUtils.platform BuildUtils.simulatorName BuildUtils.simulatorId
       BuildUtils.useLatestOS BuildUtils.arch].
  destruct p; simpl;
    repeat match goal with
           | |- context [truthy ?x] => destruct (truthy x) eqn:?
           end;
    simpl; first [reflexivity | eexists; reflexivity].
Qed.

(** X17. [executeXcodeBuild] runs the executor once or not at all.  For a
    simulator platform with neither an identifier nor a name, and for no
    other input, it answers at once with an error, and starts nothing.  For
    every other input it calls [spawn] once and xcpretty never, and goes on
    with the result of the executor; unless [spawn] throws: then its [catch]
    answers with the error of [spawn]. *)
Theorem build_starts_one_execution
    (env : Xcode.Env) (params : BuildUtils.SharedBuildParams)
    (opts : BuildUtils.PlatformBuildOptions) (buildAction : string) :
  let '(evs, step) := BuildUtils.executeXcodeBuild env params opts buildAction in
  if Xcode.isSimulatorPlatform (BuildUtils.platform opts)
     && negb (truthy (BuildUtils.simulatorId opts))
     && negb (truthy (BuildUtils.simulatorName opts))
  then step
       = BuildUtils.Responded
           ("For " ++ platformString (BuildUtils.platform opts)
              ++ " platform, either simulatorId or simulatorName must be provided")
           true
       /\ spawnCount evs = 0%nat /\ More.xcprettyCalls evs = 0%nat
  else spawnCount evs = 1%nat /\ More.xcprettyCalls evs = 0%nat
       /\ match Xcode.child env with
          | Xcode.SpawnThrows errMessage =>
              step
              = BuildUtils.Responded
                  ("Error during " ++ BuildUtils.logPrefix opts ++ " " ++ buildAction
                     ++ ": " ++ errMessage)
                  true
          | _ => exists r, step = BuildUtils.Executed (Some r)
          end.
Proof.
  unfold BuildUtils.executeXcodeBuild.
  pose proof (buildDestination_cases opts) as Hd.
  destruct (Xcode.isSimulatorPlatform (BuildUtils.platform opts)
            && negb (truthy (BuildUtils.simulatorId opts))
            && negb (truthy (BuildUtils.simulatorName opts))).
  - rewrite Hd. repeat split.
  - destruct Hd as [d ->].
    match goal with
    | |- context [Xcode.executeXcodeCommand env ?c ?l ?b] =>
        destruct (execution_summary env c l b) as (H1 & H2 & H3);
        set (run := Xcode.executeXcodeCommand env c l b) in *
    end.
    destruct (Xcode.child env) as [chunks exitCode | errMessage errno | errMessage];
      destruct H3 as [H3 ->];
      (split; [|split]);
      rewrite ?app_comm_cons, ?spawnCount_app, ?xcprettyCalls_app, ?H1, ?H2;
      try reflexivity.
    + destruct H3 as [r ->]. now exists r.
    + destruct H3 as [r ->]. now exists r.
Qed.

Lemma success_has_output env command logPrefix cb r :
  Xcode.result (Xcode.executeXcodeCommand env command logPrefix cb) = Some r ->
  Xcode.success r = true -> Xcode.output r <> EmptyString.
Proof.
  unfold Xcode.executeXcodeCommand. rewrite useXcpretty_never.
  destruct (Xcode.child env) as [chunks exitCode | errMessage errno | errMessage].
  - rewrite result_on_exit.
    destruct (Xcode.isExitZero exitCode);
      intros H; inversion H; subst; cbn [Xcode.success Xcode.output]; [|discriminate].
    intros _. apply orElse_not_empty, append_not_empty_r. discriminate.
  - rewrite (proj1 (result_on_spawn_failure _ _ _ _ _ _ _)).
    intros H; inversion H; subst; cbn [Xcode.success]. discriminate.
  - discriminate.
Qed.

Lemma destinationString_cases (params : AppPath.Params) :
  if Xcode.isSimulatorPlatform (AppPath.platform params)
     && negb (truthy (AppPath.simulatorId params))
     && negb (truthy (AppPath.simulatorName params))
  then AppPath.destinationString params
       = inr ("For " ++ platformString (AppPath.platform params)
                ++ " platform, either simulatorId or simulatorName must be provided")
  else exists destination, AppPath.destinationString params = inl destination.
Proof.
  destruct params as [ws proj scheme conf p name id latest].
  unfold AppPath.destinationString.
  cbn [AppPath.platform AppPath.simulatorName AppPath.simulatorId AppPath.useLatestOS].
  destruct p; simpl;
    repeat match goal with
           | |- context [truthy ?x] => destruct (truthy x) eqn:?
           end;
    simpl; first [reflexivity | eexists; reflexivity].
Qed.

(** X18. [_handleGetAppPathLogic] runs the executor once or not at all.  For
    a simulator platform with neither an identifier nor a name, and for no
    other input, it answers at once with an error, and starts nothing.  For
    every other input it calls [spawn] once and xcpretty never, and answers
    from the result of the executor; unless [spawn] throws: then its [catch]
    answers with the error of [spawn]. *)
Theorem app_path_starts_one_execution (env : Xcode.Env) (params : AppPath.Params) :
  let '(evs, response) := AppPath._handleGetAppPathLogic env params in
  if Xcode.isSimulatorPlatform (AppPath.platform params)
     && negb (truthy (AppPath.simulatorId params))
     && negb (truthy (AppPath.simulatorName params))
  then response
       = Some (AppPath.TextResponse
                 ("For " ++ platformString (AppPath.platform params)
                    ++ " platform, either simulatorId or simulatorName must be provided")
                 true)
       /\ spawnCount evs = 0%nat /\ More.xcprettyCalls evs = 0%nat
  else spawnCount evs = 1%nat /\ More.xcprettyCalls evs = 0%nat
       /\ match Xcode.child env with
          | Xcode.SpawnThrows errMessage =>
              response
              = Some (AppPath.TextResponse
                        ("Error retrieving app path: " ++ errMessage) true)
          | _ =>
              exists r,
                response = Some (AppPath.respond (AppPath.platform params) r)
          end.
Proof.
  unfold AppPath._handleGetAppPathLogic.
  pose proof (destinationString_cases params) as Hd.
  destruct (Xcode.isSimulatorPlatform (AppPath.platform params)
            && negb (truthy (AppPath.simulatorId params))
            && negb (truthy (AppPath.simulatorName params))).
  - rewrite Hd. repeat split.
  - destruct Hd as [d ->].
    match goal with
    | |- context [Xcode.executeXcodeCommand env ?c ?l ?b] =>
        destruct (execution_summary env c l b) as (H1 & H2 & H3);
        set (run := Xcode.executeXcodeCommand env c l b) in *
    end.
    destruct (Xcode.child env) as [chunks exitCode | errMessage errno | errMessage];
      destruct H3 as [H3 ->];
      (split; [|split]);
      rewrite ?app_comm_cons, ?spawnCount_app, ?xcprettyCalls_app;
      cbn [spawnCount More.xcprettyCalls]; rewrite ?H1, ?H2;
      try reflexivity.
    + destruct H3 as [r ->]. now exists r.
    + destruct H3 as [r ->]. now exists r.
Qed.

(** X19. [_handleGetAppPathLogic] never answers that the build settings
    output is missing: a successful result of the executor always has an
    output, the default text when the command printed nothing, so the test
    of the output never fails. *)
Theorem app_path_output_is_never_missing (env : Xcode.Env) (params : AppPath.Params) :
  snd (AppPath._handleGetAppPathLogic env params)
  <> Some (AppPath.TextResponse
             "Failed to extract build settings output from the result." true).
Proof.
  unfold AppPath._handleGetAppPathLogic.
  destruct (AppPath.destinationString params) as [d | text] eqn:Hd; cbn [snd].
  - match goal with
    | |- context [Xcode.executeXcodeCommand env ?c ?l ?b] =>
        pose proof (success_has_output env c l b) as Hout;
        set (run := Xcode.executeXcodeCommand env c l b) in *
    end.
    destruct (Xcode.rejected run) as [errorMessage|]; cbn [snd]; [discriminate|].
    destruct (Xcode.result run) as [r|]; [|discriminate].
    specialize (Hout r eq_refl). cbn [option_map]. unfold AppPath.respond.
    destruct (Xcode.success r); cbn [negb]; [|discriminate].
    specialize (Hout eq_refl).
    destruct (Xcode.output r) as [|c s] eqn:E; [contradiction|].
    cbn [isEmpty]. destruct (AppPath.appPathOf _); discriminate.
  - intros H. inversion H; subst.
    unfold AppPath.destinationString in Hd.
    repeat match type of Hd with
           | (if ?c then _ else _) = _ => destruct c
           end; try discriminate Hd; inversion Hd as [E];
      destruct (AppPath.platform params); discriminate E.
Qed.

(* ================================================================== *)
(** * The patterns read from the output *)

Lemma stripPrefix_Some (key s rest : string) :
  stripPrefix key s = Some rest <-> s = key ++ rest.
Proof.
  revert s. induction key as [|a key IH]; intros s; cbn [stripPrefix append].
  - split; congruence.
  - destruct s as [|b s]; [split; discriminate|].
    destruct (Ascii.eqb_spec a b) as [-> | Hab].
    + rewrite IH. split; congruence.
    + split; [discriminate | congruence].
Qed.

Lemma takeLine_rest (s : string) :
  exists after,
    s = Patterns.takeLine s ++ after
    /\ Xcode.anyChar isLineTerminator (Patterns.takeLine s) = false
    /\ match after with
       | EmptyString => True
       | String c _ => isLineTerminator c = true
       end.
Proof.
  induction s as [|c s (after & E & Hline & Hafter)]; cbn [Patterns.takeLine].
  - exists EmptyString. now repeat split.
  - destruct (isLineTerminator c) eqn:Hc.
    + exists (String c s). now repeat split.
    + exists after. cbn [append Xcode.anyChar]. rewrite Hc, Hline, <- E. now repeat split.
Qed.

Lemma takeLine_value (value after : string) :
  Xcode.anyChar isLineTerminator value = false ->
  match after with
  | EmptyString => True
  | String c _ => isLineTerminator c = true
  end ->
  Patterns.takeLine (value ++ after) = value.
Proof.
  intros Hv Hafter. induction value as [|c value IH]; cbn [append].
  - destruct after as [|c rest]; [reflexivity|]. cbn [Patterns.takeLine]. now rewrite Hafter.
  - cbn [Xcode.anyChar] in Hv. apply orb_false_iff in Hv as [Hc Hv].
    cbn [Patterns.takeLine]. now rewrite Hc, (IH Hv).
Qed.

Lemma matchSetting_eq (key s : string) :
  Patterns.matchSetting key s
  = match Patterns.matchSettingHere key s with
    | Some value => Some value
    | None =>
        match s with
        | EmptyString => None
        | String _ rest => Patterns.matchSetting key rest
        end
    end.
Proof. destruct s; reflexivity. Qed.

Lemma matchSettingHere_sound (key s value : string) :
  Patterns.matchSettingHere key s = Some value -> More.restOfLine key value s.
Proof.
  unfold Patterns.matchSettingHere.
  destruct (stripPrefix key s) as [rest|] eqn:Hstrip; [|discriminate].
  apply stripPrefix_Some in Hstrip. cbv zeta.
  destruct (takeLine_rest rest) as (after & E & Hline & Hafter).
  destruct (Patterns.takeLine rest) as [|x v]; cbn [isEmpty]; [discriminate|].
  intros H. inversion H; subst value; clear H.
  exists EmptyString, after. cbn [append]. rewrite Hstrip, E.
  repeat split; [discriminate | assumption..].
Qed.

Lemma matchSetting_sound (key s value : string) :
  Patterns.matchSetting key s = Some value -> More.restOfLine key value s.
Proof.
  induction s as [|c s IH]; rewrite matchSetting_eq;
    destruct (Patterns.matchSettingHere key _) as [v|] eqn:Here;
    try discriminate.
  1, 2: intros E; inversion E; subst v; now apply matchSettingHere_sound.
  intros H. destruct (IH H) as (before & after & E & Hne & Hline & Hafter).
  exists (String c before), after. cbn [append]. rewrite <- E. now repeat split.
Qed.

Lemma matchSetting_complete (key s value : string) :
  More.restOfLine key value s -> Patterns.matchSetting key s <> None.
Proof.
  intros (before & after & -> & Hne & Hline & Hafter).
  induction before as [|c before IH]; rewrite matchSetting_eq.
  - cbn [append]. unfold Patterns.matchSettingHere.
    rewrite (proj2 (stripPrefix_Some key _ (value ++ after)) eq_refl).
    rewrite (takeLine_value value after Hline Hafter).
    destruct value; [contradiction | discriminate].
  - destruct (Patterns.matchSettingHere key _); [discriminate | exact IH].
Qed.

(** X20. The path [_handleGetAppPathLogic] makes from the build settings:
    when the two patterns match, the path is the products directory, a
    slash, and the product name, both trimmed, each being what follows an
    occurrence of its key in the output up to the end of the line, and not
    empty before it is trimmed; when the path cannot be made, one of the two
    keys occurs nowhere in the output with a value after it. *)
Theorem app_path_is_read_from_the_output (output : string) :
  match AppPath.appPathOf output with
  | Some appPath =>
      exists builtProductsDir fullProductName,
        More.restOfLine "BUILT_PRODUCTS_DIR = " builtProductsDir output
        /\ More.restOfLine "FULL_PRODUCT_NAME = " fullProductName output
        /\ appPath = trim builtProductsDir ++ "/" ++ trim fullProductName
  | None =>
      (forall value, ~ More.restOfLine "BUILT_PRODUCTS_DIR = " value output)
      \/ (forall value, ~ More.restOfLine "FULL_PRODUCT_NAME = " value output)
  end.
Proof.
  unfold AppPath.appPathOf.
  destruct (Patterns.matchSetting "BUILT_PRODUCTS_DIR = " output) as [dir|] eqn:Hdir.
  - destruct (Patterns.matchSetting "FULL_PRODUCT_NAME = " output) as [name|] eqn:Hname.
    + exists dir, name. repeat split; [now apply matchSetting_sound.. ].
    + right. intros value H. now apply matchSetting_complete in H.
  - left. intros value H. now apply matchSetting_complete in H.
Qed.

Lemma stripPrefix_line (key a b : string) (c : ascii) :
  Xcode.anyChar isLineTerminator key = false ->
  isLineTerminator c = true ->
  stripPrefix key (a ++ String c b)
  = option_map (fun rest => rest ++ String c b) (stripPrefix key a).
Proof.
  intros Hkey Hc. revert a.
  induction key as [|y key IH]; intros a; cbn [stripPrefix]; [reflexivity|].
  cbn [Xcode.anyChar] in Hkey. apply orb_false_iff in Hkey as [Hy Hkey].
  destruct a as [|x a]; cbn [append stripPrefix].
  - destruct (Ascii.eqb_spec y c) as [-> | _]; [congruence | reflexivity].
  - destruct (Ascii.eqb y x); [now apply IH | reflexivity].
Qed.

Lemma takeLine_line (a b : string) (c : ascii) :
  isLineTerminator c = true ->
  Patterns.takeLine (a ++ String c b) = Patterns.takeLine a.
Proof.
  intros Hc. induction a as [|x a IH]; cbn [append Patterns.takeLine].
  - now rewrite Hc.
  - now rewrite IH.
Qed.

Lemma takeLine_prefix (p s : string) :
  Xcode.anyChar isLineTerminator p = false ->
  Patterns.takeLine (p ++ s) = p ++ Patterns.takeLine s.
Proof.
  intros Hp. induction p as [|x p IH]; cbn [append Patterns.takeLine]; [reflexivity|].
  cbn [Xcode.anyChar] in Hp. apply orb_false_iff in Hp as [Hx Hp].
  now rewrite Hx, (IH Hp).
Qed.

Lemma warningGroups_zero (x : ascii) (rest : string) :
  Patterns.warningGroups 0 (String x rest)
  = match stripPrefix Patterns.warningMarker (String x rest) with
    | Some after =>
        Patterns.takeLine after
          :: Patterns.warningGroups (10 + String.length (Patterns.takeLine after)) rest
    | None => Patterns.warningGroups 0 rest
    end.
Proof. reflexivity. Qed.

Lemma warningGroups_line (k : nat) (a b : string) (c : ascii) :
  isLineTerminator c = true ->
  (k <= String.length (Patterns.takeLine a))%nat ->
  Patterns.warningGroups k (a ++ String c b)
  = (Patterns.warningGroups k a ++ Patterns.warningGroups 0 b)%list.
Proof.
  intros Hc. revert k. induction a as [|x a IH]; intros k Hk.
  - cbn [Patterns.takeLine String.length] in Hk.
    assert (k = 0%nat) as -> by lia.
    cbn [append]. rewrite warningGroups_zero.
    change (String c b) with (EmptyString ++ String c b).
    rewrite (stripPrefix_line Patterns.warningMarker EmptyString b c eq_refl Hc). reflexivity.
  - destruct k as [|k].
    + change (String x a ++ String c b) with (String x (a ++ String c b)).
      rewrite !warningGroups_zero.
      change (String x (a ++ String c b)) with (String x a ++ String c b).
      rewrite (stripPrefix_line Patterns.warningMarker (String x a) b c eq_refl Hc).
      destruct (stripPrefix Patterns.warningMarker (String x a)) as [after|] eqn:Hstrip;
        cbn [option_map].
      * rewrite (takeLine_line after b c Hc).
        rewrite IH; [reflexivity|].
        apply stripPrefix_Some in Hstrip. unfold Patterns.warningMarker in Hstrip.
        cbn [append] in Hstrip. inversion Hstrip as [[Hx Ha]].
        change (String "w" (String "a" (String "r" (String "n" (String "i" (String "n"
                 (String "g" (String "]" (String ":" (String " " after))))))))))
          with ("warning]: " ++ after).
        rewrite (takeLine_prefix "warning]: " after eq_refl), length_append.
        cbn [String.length]. lia.
      * apply IH. lia.
    + cbn [append Patterns.warningGroups]. apply IH.
      cbn [Patterns.takeLine] in Hk. destruct (isLineTerminator x); cbn [String.length] in Hk; lia.
Qed.

(** X21. The warnings [executeXcodeBuild] extracts from the output are
    extracted line by line: the warnings of a text with a line terminator in
    it are those of the part before the terminator followed by those of the
    part after it.  No warning runs over a line, and no match is lost at the
    end of one. *)
Theorem warnings_are_read_line_by_line (a b : string) (c : ascii) :
  isLineTerminator c = true ->
  Patterns.extractWarnings (a ++ String c b)
  = (Patterns.extractWarnings a ++ Patterns.extractWarnings b)%list.
Proof.
  intros Hc. unfold Patterns.extractWarnings. apply warningGroups_line; [exact Hc | lia].
Qed.

Lemma warnings_are_read_line_by_line_witness :
  Patterns.extractWarnings
    ("ld: [warning]: a [warning]: b" ++ String LF "x.swift:1: [warning]: c")
  = (Patterns.extractWarnings "ld: [warning]: a [warning]: b"
     ++ Patterns.extractWarnings "x.swift:1: [warning]: c")%list.
Proof.
  apply (warnings_are_read_line_by_line
           "ld: [warning]: a [warning]: b" "x.swift:1: [warning]: c" LF).
  reflexivity.
Defined.

Lemma warningGroups_skipped (k : nat) (s : string) :
  (String.length s <= k)%nat -> Patterns.warningGroups k s = [].
Proof.
  revert k. induction s as [|x s IH]; intros k Hk; [reflexivity|].
  cbn [String.length] in Hk. destruct k as [|k]; [lia|].
  cbn [Patterns.warningGroups]. apply IH. lia.
Qed.

Lemma takeLine_all (s : string) :
  Xcode.anyChar isLineTerminator s = false -> Patterns.takeLine s = s.
Proof.
  intros H. rewrite <- (append_empty_r s) at 1.
  rewrite (takeLine_prefix s EmptyString H). apply append_empty_r.
Qed.

(** X22. A line of the output gives one warning at most: the text that
    follows a warning marker in the line, up to the end of the line.  A
    second marker in the same line starts no warning of its own. *)
Theorem one_warning_per_line (line : string) :
  Xcode.anyChar isLineTerminator line = false ->
  Patterns.extractWarnings line = []
  \/ exists before text,
       line = before ++ Patterns.warningMarker ++ text
       /\ Patterns.extractWarnings line = [text].
Proof.
  unfold Patterns.extractWarnings.
  induction line as [|x line IH]; intros Hline; [now left|].
  rewrite warningGroups_zero.
  destruct (stripPrefix Patterns.warningMarker (String x line)) as [after|] eqn:Hstrip.
  - right. exists EmptyString, after.
    apply stripPrefix_Some in Hstrip. split; [exact Hstrip|].
    rewrite Hstrip in Hline. unfold Patterns.warningMarker in Hstrip, Hline.
    cbn [append] in Hstrip. inversion Hstrip as [[Hx Ha]].
    cbn [append Xcode.anyChar] in Hline. cbn in Hline.
    rewrite (takeLine_all after Hline).
    rewrite warningGroups_skipped; [reflexivity|].
    cbn [String.length]. lia.
  - cbn [Xcode.anyChar] in Hline. apply orb_false_iff in Hline as [_ Hline].
    destruct (IH Hline) as [E | (before & text & E & Hw)]; [now left | right].
    exists (String x before), text. cbn [append]. now rewrite <- E.
Qed.

Lemma one_warning_per_line_witness :
  Patterns.extractWarnings "ld: [warning]: a [warning]: b" = []
  \/ exists before text,
       "ld: [warning]: a [warning]: b" = before ++ Patterns.warningMarker ++ text
       /\ Patterns.extractWarnings "ld: [warning]: a [warning]: b" = [text].
Proof.
  apply (one_warning_per_line "ld: [warning]: a [warning]: b"). reflexivity.
Defined.
